(** * A shallow embedding of the acquisition core of [src/download.py]

    The file follows the source top-down: the Python values the code
    touches ([Py]), [pathlib]'s pure POSIX paths ([PurePath]), the local
    filesystem and the logger as an explicit world threaded through a
    state-and-exception monad ([Run]), and then the methods of the
    [Downloader] class under their own names.  The theorems come after
    the definitions.

    What is outside the process is a parameter: the Drive list and media
    endpoints and HTTP are the fields of [Remote]; [hashlib] and
    [urllib.parse] are the classes [Hashlib] and [Urllib], each with an
    executable instance for running the model on concrete inputs.

    The two thread pools are modelled as queues: a submitted task runs
    when its result is asked for, in submission order, and the first
    exception ends the drain.  This is one schedule of the real pools; the
    statements about a single loop iteration ([process_entry],
    [local_skip]) hold for any state of the disk and so for every
    schedule.  Progress bars, the wall-clock heartbeat, the credential
    files and directories are not modelled. *)

From Stdlib Require Import ZArith Ascii String Strings.Byte List Lia.
From stdpp Require Import base option list gmap strings pretty.

Local Open Scope Z_scope.

(* ===================================================================== *)
(** * Python values: truthiness, exceptions                              *)
(* ===================================================================== *)

Module Py.

(** The exception classes that the code raises or lets through.  The
    message is the constant part of the source's f-string. *)
Inductive Exn : Type :=
| ValueError (msg : string)
| RuntimeError (msg : string)
| FileNotFoundError (msg : string)
| OSError (msg : string)
| HttpError (msg : string)
| AttributeError (msg : string)
| TypeError (msg : string).

Global Instance Exn_eq_dec : EqDecision Exn.
Proof. solve_decision. Defined.

(** [bool(s)] for a [str]. *)
Definition truthy_str (s : string) : bool :=
  match s with EmptyString => false | _ => true end.

(** [bool(o)] for an [Optional[str]]: [None] and [""] are falsy. *)
Definition truthy (o : option string) : bool :=
  match o with Some s => truthy_str s | None => false end.

(** [a or b] on optional strings, when [b] is a plain string. *)
Definition or_else (a : option string) (b : string) : string :=
  match a with
  | Some s => if truthy_str s then s else b
  | None => b
  end.

End Py.
Export Py.

(** File contents are byte strings; text is written through an encoder. *)
Abbreviation bytes := (list byte).

Global Instance byte_eq_dec' : EqDecision byte := Byte.byte_eq_dec.

(** [str.encode("utf-8")] on text whose characters are all below 0x80,
    which is what [json.dumps] emits with its default [ensure_ascii]. *)
Definition encode_utf8 (s : string) : bytes := String.list_byte_of_string s.

(* ===================================================================== *)
(** * [pathlib.PurePosixPath]                                            *)
(* ===================================================================== *)

Module PurePath.

(** A parsed path: its root (["" ], ["/"] or ["//"]) and its components.
    Paths are compared lexically, as [pathlib] does; [".."] is kept. *)
Record t : Type := mk { root : string; parts : list string }.

Global Instance t_eq_dec : EqDecision t.
Proof. solve_decision. Defined.

Global Instance t_countable : Countable t :=
  inj_countable' (λ p, (root p, parts p)) (λ rp, mk rp.1 rp.2)
                 (λ p, match p with mk _ _ => eq_refl end).

(** [s.split("/")]: never empty, [""] splits into [[""]]. *)
Fixpoint split_sep (s : string) : list string :=
  match s with
  | EmptyString => [""]
  | String c s' =>
      match split_sep s' with
      | [] => [String c ""]
      | w :: ws => if Ascii.eqb c "/" then "" :: w :: ws else String c w :: ws
      end
  end.

(** [splitroot]: exactly two leading slashes are kept apart from one. *)
Definition parse_root (s : string) : string :=
  match s with
  | String "/" (String "/" (String "/" _)) => "/"
  | String "/" (String "/" _) => "//"
  | String "/" _ => "/"
  | _ => ""
  end.

Definition keep_part (x : string) : bool :=
  negb (String.eqb x "") && negb (String.eqb x ".").

(** [PurePosixPath(s)]. *)
Definition parse (s : string) : t :=
  mk (parse_root s) (List.filter keep_part (split_sep s)).

(** [p / s]: an absolute right operand replaces the left one. *)
Definition joinpath (p : t) (s : string) : t :=
  let q := parse s in
  if truthy_str (root q) then q else mk (root p) (parts p ++ parts q).

(** [p.name]. *)
Definition name (p : t) : string := List.last (parts p) "".

(** [p.parent]. *)
Definition parent (p : t) : t := mk (root p) (List.removelast (parts p)).

Fixpoint join_sep (l : list string) : string :=
  match l with
  | [] => ""
  | [x] => x
  | x :: l' => x +:+ "/" +:+ join_sep l'
  end.

(** [str(p)]. *)
Definition str (p : t) : string :=
  match root p, parts p with
  | EmptyString, [] => "."
  | r, ps => r +:+ join_sep ps
  end.

Fixpoint strip_prefix (pre l : list string) : option (list string) :=
  match pre, l with
  | [], _ => Some l
  | x :: pre', y :: l' => if String.eqb x y then strip_prefix pre' l' else None
  | _ :: _, [] => None
  end.

(** [p.relative_to(other)]: [ValueError] unless [other] is a lexical
    prefix of [p] with the same root. *)
Definition relative_to (p other : t) : Exn + t :=
  if negb (String.eqb (root p) (root other)) then
    inl (ValueError "is not in the subpath of")
  else
    match strip_prefix (parts other) (parts p) with
    | Some rest => inr (mk "" rest)
    | None => inl (ValueError "is not in the subpath of")
    end.

Fixpoint rfind_dot (s : string) : option nat :=
  match s with
  | EmptyString => None
  | String c s' =>
      match rfind_dot s' with
      | Some i => Some (S i)
      | None => if Ascii.eqb c "." then Some 0%nat else None
      end
  end.

Fixpoint str_drop (n : nat) (s : string) : string :=
  match n, s with
  | O, _ => s
  | S n', String _ s' => str_drop n' s'
  | S _, EmptyString => ""
  end.

Fixpoint str_take (n : nat) (s : string) : string :=
  match n, s with
  | O, _ => ""
  | S n', String c s' => String c (str_take n' s')
  | S _, EmptyString => ""
  end.

(** [p.suffix]: from the last dot of the name, unless that dot is the
    first or the last character. *)
Definition suffix (p : t) : string :=
  let n := name p in
  match rfind_dot n with
  | Some i =>
      if (0 <? i)%nat && (i <? String.length n - 1)%nat then str_drop i n else ""
  | None => ""
  end.

Fixpoint has_sep (s : string) : bool :=
  match s with
  | EmptyString => false
  | String c s' => Ascii.eqb c "/" || has_sep s'
  end.

(** [p.with_suffix(sfx)]. *)
Definition with_suffix (p : t) (sfx : string) : Exn + t :=
  if has_sep sfx then inl (ValueError "Invalid suffix")
  else if (truthy_str sfx && negb (String.prefix "." sfx)) || String.eqb sfx "."
  then inl (ValueError "Invalid suffix")
  else
    let n := name p in
    if negb (truthy_str n) then inl (ValueError "has an empty name")
    else
      let old := suffix p in
      let n' := if truthy_str old
                then str_take (String.length n - String.length old) n +:+ sfx
                else n +:+ sfx in
      inr (mk (root p) (List.removelast (parts p) ++ [n'])).

End PurePath.

Abbreviation Path := PurePath.t.
Infix "//" := PurePath.joinpath (at level 40, left associativity).

(* ===================================================================== *)
(** * The world: local filesystem and logger                             *)
(* ===================================================================== *)

(** Regular files by lexical path.  Directories are implicit ([mkdir] with
    [parents=True, exist_ok=True] always succeeds and is not recorded).
    [denied] is the set of paths at which creating, truncating or
    replacing a file fails with [OSError] (read-only or full disk). *)
Record FS : Type := mkFS { files : gmap Path bytes; denied : gset Path }.

Inductive Level : Type := DEBUG | INFO | WARNING | ERROR.

Global Instance Level_eq_dec : EqDecision Level.
Proof. solve_decision. Defined.

(** A log record: level and the format string of the call. *)
Record LogRecord : Type := mkLog { level : Level; template : string }.

Global Instance LogRecord_eq_dec : EqDecision LogRecord.
Proof. solve_decision. Defined.

(** The log grows at its end. *)
Record World : Type := mkWorld { fs : FS; log : list LogRecord }.

(* ===================================================================== *)
(** * State and exceptions                                               *)
(* ===================================================================== *)

Module Run.

(** How a call ends: a value, a propagating exception, or the model's
    fuel running out (the loop of the source has not ended yet). *)
Inductive Outcome (A : Type) : Type :=
| Return (a : A)
| Raise (e : Exn)
| OutOfFuel.
Global Arguments Return {A} a.
Global Arguments Raise {A} e.
Global Arguments OutOfFuel {A}.

Record M (A : Type) : Type := mk { run : World → Outcome A * World }.
Global Arguments mk {A} _.
Global Arguments run {A} _ _.

Global Instance M_ret : MRet M := λ A a, mk (λ w, (Return a, w)).

Global Instance M_bind : MBind M := λ A B f m,
  mk (λ w, match run m w with
           | (Return a, w') => run (f a) w'
           | (Raise e, w') => (Raise e, w')
           | (OutOfFuel, w') => (OutOfFuel, w')
           end).

Definition raise {A} (e : Exn) : M A := mk (λ w, (Raise e, w)).

Definition out_of_fuel {A} : M A := mk (λ w, (OutOfFuel, w)).

(** [try: body / except Exception as e: handler e]. *)
Definition try_except {A} (body : M A) (handler : Exn → M A) : M A :=
  mk (λ w, match run body w with
           | (Raise e, w') => run (handler e) w'
           | r => r
           end).

(** Lift a library call that either raises or returns. *)
Definition lift {A} (r : Exn + A) : M A :=
  match r with inl e => raise e | inr a => mret a end.

Definition get_fs : M FS := mk (λ w, (Return (fs w), w)).

Definition put_fs (f : FS) : M unit := mk (λ w, (Return tt, mkWorld f (log w))).

Definition logger (l : Level) (tpl : string) : M unit :=
  mk (λ w, (Return tt, mkWorld (fs w) (log w ++ [mkLog l tpl]))).

End Run.
Export Run.

(** ** Filesystem calls of [pathlib.Path] and [io.FileIO] *)

(** [path.exists()]. *)
Definition path_exists (p : Path) : M bool :=
  f ← get_fs; mret (bool_decide (is_Some (files f !! p))).

(** [path.open("rb")] followed by reading everything. *)
Definition read_bytes (p : Path) : M bytes :=
  f ← get_fs;
  match files f !! p with
  | Some data => mret data
  | None => raise (FileNotFoundError "No such file or directory")
  end.

(** [path.stat().st_size]. *)
Definition stat_size (p : Path) : M Z :=
  data ← read_bytes p; mret (Z.of_nat (length data)).

(** [open(p, "wb")] and [io.FileIO(p, "wb")]: create or truncate. *)
Definition open_wb (p : Path) : M unit :=
  f ← get_fs;
  if bool_decide (p ∈ denied f) then raise (OSError "Permission denied")
  else put_fs (mkFS (<[p := []]> (files f)) (denied f)).

(** [fh.write(data)] on a handle opened on [p]. *)
Definition fh_write (p : Path) (data : bytes) : M unit :=
  f ← get_fs;
  put_fs (mkFS (<[p := default [] (files f !! p) ++ data]> (files f)) (denied f)).

(** [path.write_text(s, encoding="utf-8")]. *)
Definition write_text (p : Path) (s : string) : M unit :=
  open_wb p;; fh_write p (encode_utf8 s).

(** [src.replace(dst)] and [src.rename(dst)] (the same call on POSIX). *)
Definition replace (src dst : Path) : M unit :=
  f ← get_fs;
  match files f !! src with
  | None => raise (FileNotFoundError "No such file or directory")
  | Some data =>
      if bool_decide (dst ∈ denied f) then raise (OSError "Permission denied")
      else put_fs (mkFS (<[dst := data]> (delete src (files f))) (denied f))
  end.

(** [path.unlink(missing_ok)]. *)
Definition unlink (p : Path) (missing_ok : bool) : M unit :=
  f ← get_fs;
  match files f !! p with
  | None => if missing_ok then mret tt
            else raise (FileNotFoundError "No such file or directory")
  | Some _ => put_fs (mkFS (delete p (files f)) (denied f))
  end.

(** [path.parent.mkdir(parents=True, exist_ok=True)]. *)
Definition mkdir_parents (p : Path) : M unit := mret tt.

(* ===================================================================== *)
(** * [hashlib.md5]                                                      *)
(* ===================================================================== *)

(** The digest object of [hashlib]: feeding it two blocks is feeding it
    their concatenation, and an empty block changes nothing. *)
Class Hashlib : Type := {
  md5_state : Type;
  md5_new : md5_state;
  md5_update : md5_state → bytes → md5_state;
  md5_hexdigest : md5_state → string;
  md5_update_app : ∀ d a b, md5_update (md5_update d a) b = md5_update d (a ++ b);
  md5_update_nil : ∀ d, md5_update d [] = d
}.

(** [hashlib.md5(data).hexdigest()]. *)
Definition md5_hex `{Hashlib} (data : bytes) : string :=
  md5_hexdigest (md5_update md5_new data).

(* ===================================================================== *)
(** * Data model                                                         *)
(* ===================================================================== *)

(** A YAML scalar as [yaml.safe_load] returns it (floats, dates and
    binaries are left out). *)
Inductive scalar : Type :=
| SNone
| SBool (b : bool)
| SInt (z : Z)
| SStr (s : string).

Global Instance scalar_eq_dec : EqDecision scalar.
Proof. solve_decision. Defined.

(** [bool(v)]. *)
Definition truthy_scalar (v : scalar) : bool :=
  match v with
  | SNone => false
  | SBool b => b
  | SInt z => negb (z =? 0)
  | SStr s => truthy_str s
  end.

(** [str(v)], as an f-string or [%s] formats it. *)
Definition str_scalar (v : scalar) : string :=
  match v with
  | SNone => "None"
  | SBool true => "True"
  | SBool false => "False"
  | SInt z => pretty z
  | SStr s => s
  end.

Inductive ItemKind : Type := http_file | gdrive_folder.

Global Instance ItemKind_eq_dec : EqDecision ItemKind.
Proof. solve_decision. Defined.

(** [DownloadItem].  The dataclass annotations are not enforced at run
    time, so a field holds whatever scalar the YAML document gave. *)
Record DownloadItem : Type := mkItem {
  kind : ItemKind;
  url : scalar;
  filename : scalar;
  folder_id : scalar;
  recursive : bool
}.

(** An element of a YAML sequence: a mapping of scalars, or a scalar. *)
Inductive seq_elem : Type :=
| EMap (kv : list (string * scalar))
| EScalar (v : scalar).

(** A value under a top-level key. *)
Inductive value : Type :=
| VScalar (v : scalar)
| VSeq (l : list seq_elem).

(** What [yaml.safe_load] returned for the whole document. *)
Inductive document : Type :=
| DMap (kv : list (string * value))
| DOther (v : value).

(** [SourceConfig]. *)
Record SourceConfig : Type := mkConfig {
  source : value;
  description : option value;
  output_dir : Path;
  subdir : value;
  items : list DownloadItem
}.

(** The attributes of [Downloader] that the download path reads. *)
Record Downloader : Type := mkDownloader {
  config : SourceConfig;
  max_http_workers : Z;
  max_drive_workers : Z;
  manifest_only : bool;
  verify_only : bool;
  verify_downloads : bool;
  use_progress : bool
}.

(** The metadata dictionary that the walker yields. *)
Record FileMeta : Type := mkMeta {
  meta_id : string;
  meta_name : string;
  meta_mimeType : option string;
  meta_md5Checksum : option string;
  meta_size : option Z
}.

Global Instance FileMeta_eq_dec : EqDecision FileMeta.
Proof. solve_decision. Defined.

(** A manifest entry: the dictionary with keys [id], [path], [md5],
    [size], in that order. *)
Record ManifestEntry : Type := mkEntry {
  entry_id : string;
  entry_path : string;
  entry_md5 : option string;
  entry_size : option Z
}.

Global Instance ManifestEntry_eq_dec : EqDecision ManifestEntry.
Proof. solve_decision. Defined.

(* ===================================================================== *)
(** * The remote side                                                    *)
(* ===================================================================== *)

(** The keyword arguments of [files().list(...)]. *)
Record ListRequest : Type := mkListRequest {
  req_q : string;
  req_spaces : string;
  req_fields : string;
  req_pageToken : option string;
  req_pageSize : Z;
  req_supportsAllDrives : bool;
  req_includeItemsFromAllDrives : bool
}.

(** One element of the [files] array of a response. *)
Record FileItem : Type := mkFileItem {
  item_id : string;
  item_name : option string;
  item_mimeType : option string;
  item_md5Checksum : option string;
  item_size : option string
}.

Record ListResponse : Type := mkListResponse {
  resp_files : option (list FileItem);
  resp_nextPageToken : option string
}.

(** What [MediaIoBaseDownload.next_chunk] does call after call: it writes
    the blocks of [media_chunks] one by one, then either reports [done]
    or raises [media_failure]. *)
Record Media : Type := mkMedia {
  media_chunks : list bytes;
  media_failure : option Exn
}.

(** What [session.get(url, stream=True)] gives: an exception before any
    response, a status that [raise_for_status] rejects, or a body. *)
Inductive HttpReply : Type :=
| HttpUnreachable (e : Exn)
| HttpBadStatus (e : Exn)
| HttpBody (blocks : list bytes) (failure : option Exn).

(** Everything outside the process: the outcome of building the Drive
    client, the Drive list and media endpoints, and HTTP. *)
Record Remote : Type := mkRemote {
  drive_service : Exn + unit;
  drive_list : ListRequest → Exn + ListResponse;
  drive_media : string → Media;
  http_get : string → HttpReply
}.

(* ===================================================================== *)
(** * Verifier                                                           *)
(* ===================================================================== *)

Section Verifier.
Context `{Hashlib}.

(** The loop of [_calculate_md5]: [iter(lambda: handle.read(chunk_size),
    b"")] feeds blocks until a read returns nothing. *)
Fixpoint digest_blocks (fuel chunk_size : nat) (rest : bytes) (d : md5_state)
  : md5_state :=
  match fuel with
  | O => d
  | S fuel' =>
      match take chunk_size rest with
      | [] => d
      | chunk => digest_blocks fuel' chunk_size (drop chunk_size rest) (md5_update d chunk)
      end
  end.

Definition default_chunk_size : nat := N.to_nat 1048576.

(** [_calculate_md5(path, chunk_size)]. *)
Definition _calculate_md5 (path : Path) (chunk_size : nat) : M string :=
  data ← read_bytes path;
  mret (md5_hexdigest (digest_blocks (S (length data)) chunk_size data md5_new)).

(** [_verify_local_file(path, expected_size, expected_md5)]. *)
Definition _verify_local_file (self : Downloader) (path : Path)
    (expected_size : option Z) (expected_md5 : option string) : M bool :=
  ex ← path_exists path;
  if negb (ex : bool) then mret false
  else
    mismatch ← (match expected_size with
                | Some n => sz ← stat_size path; mret (negb (sz =? n))
                | None => mret false
                end : M bool);
    if (mismatch : bool) then
      logger WARNING "Size mismatch for %s";; mret false
    else if verify_downloads self && truthy expected_md5 then
      d ← _calculate_md5 path default_chunk_size;
      mret (bool_decide (Some d = expected_md5))
    else mret true.

(** [_get_drive_service()].  Building the client may fail (credentials);
    the token file it may write is not part of the model. *)
Definition _get_drive_service (env : Remote) : M unit := lift (drive_service env).

(** The [while not done] loop of [_download_gdrive_file] on handle [tmp]. *)
Fixpoint next_chunks (tmp : Path) (chunks : list bytes) (failure : option Exn)
  : M unit :=
  match chunks with
  | chunk :: rest =>
      fh_write tmp chunk;;
      logger DEBUG "Drive download %s: %.2f%% complete";;
      next_chunks tmp rest failure
  | [] =>
      match failure with
      | Some (HttpError msg) =>
          logger ERROR "HTTP error while downloading %s (%s): %s";;
          raise (HttpError msg)
      | Some e => raise e
      | None => mret tt
      end
  end.

(** The temporary name [dest_path.with_suffix(dest_path.suffix +
    f".part.{file_id}")]. *)
Definition part_path (dest_path : Path) (file_id : string) : Exn + Path :=
  PurePath.with_suffix dest_path (PurePath.suffix dest_path +:+ ".part." +:+ file_id).

(** The guarded part of [_download_gdrive_file] up to and including
    [tmp_path.replace(dest_path)]. *)
Definition transfer (env : Remote) (file_id : string) (tmp_path dest_path : Path)
  : M unit :=
  _get_drive_service env;;
  open_wb tmp_path;;
  next_chunks tmp_path (media_chunks (drive_media env file_id))
              (media_failure (drive_media env file_id));;
  replace tmp_path dest_path.

(** The rest of the guarded part: [if self.verify_downloads and not
    self._verify_local_file(...): raise RuntimeError(...)]. *)
Definition verify_after (self : Downloader) (dest_path : Path)
    (expected_size : option Z) (expected_md5 : option string) : M unit :=
  bad ← (if verify_downloads self
         then ok ← _verify_local_file self dest_path expected_size expected_md5;
              mret (negb ok)
         else mret false : M bool);
  if (bad : bool) then raise (RuntimeError "Verification failed for")
  else logger INFO "Saved %s".

(** The [except Exception as e:] block. *)
Definition cleanup (tmp_path dest_path : Path) (e : Exn) : M unit :=
  logger ERROR "Failed to download %s: %s";;
  tmp_there ← path_exists tmp_path;
  (if (tmp_there : bool) then unlink tmp_path true else mret tt);;
  dest_there ← path_exists dest_path;
  (if (dest_there : bool) then unlink dest_path false else mret tt);;
  raise e.

(** [_download_gdrive_file(file_id, name, dest_path, expected_md5,
    expected_size)]. *)
Definition _download_gdrive_file (self : Downloader) (env : Remote)
    (file_id name : string) (dest_path : Path)
    (expected_md5 : option string) (expected_size : option Z) : M unit :=
  logger INFO "Downloading Drive file %s (%s) -> %s";;
  mkdir_parents dest_path;;
  tmp_path ← lift (part_path dest_path file_id);
  try_except
    (transfer env file_id tmp_path dest_path;;
     verify_after self dest_path expected_size expected_md5)
    (cleanup tmp_path dest_path).

End Verifier.

(* ===================================================================== *)
(** * [json.dumps(manifest, indent=2)]                                   *)
(* ===================================================================== *)

Module Json.

Definition dquote : ascii := "034"%char.
Definition nl : string := String "010"%char "".

Definition hex_digit (n : nat) : ascii :=
  match String.get n "0123456789abcdef" with Some c => c | None => "0"%char end.

(** One character under [ensure_ascii=True]; a character is a code point
    below 256 here. *)
Definition escape_char (c : ascii) : string :=
  let n := nat_of_ascii c in
  if Ascii.eqb c dquote then String "\" (String dquote "")
  else if Ascii.eqb c "\" then "\\"
  else if Ascii.eqb c "010" then "\n"
  else if Ascii.eqb c "013" then "\r"
  else if Ascii.eqb c "009" then "\t"
  else if Ascii.eqb c "008" then "\b"
  else if Ascii.eqb c "012" then "\f"
  else if (n <? 32)%nat || (126 <? n)%nat then
    "\u00" +:+ String (hex_digit (n / 16)) (String (hex_digit (n mod 16)) "")
  else String c "".

Fixpoint escape (s : string) : string :=
  match s with
  | EmptyString => ""
  | String c s' => escape_char c +:+ escape s'
  end.

Definition of_str (s : string) : string :=
  String dquote (escape s +:+ String dquote "").

Definition of_opt_str (o : option string) : string :=
  match o with Some s => of_str s | None => "null" end.

Definition of_opt_int (o : option Z) : string :=
  match o with Some z => pretty z | None => "null" end.

Definition key (k : string) : string := of_str k +:+ ": ".

Definition of_entry (e : ManifestEntry) : string :=
  "{" +:+ nl +:+
  "    " +:+ key "id" +:+ of_str (entry_id e) +:+ "," +:+ nl +:+
  "    " +:+ key "path" +:+ of_str (entry_path e) +:+ "," +:+ nl +:+
  "    " +:+ key "md5" +:+ of_opt_str (entry_md5 e) +:+ "," +:+ nl +:+
  "    " +:+ key "size" +:+ of_opt_int (entry_size e) +:+ nl +:+
  "  }".

Fixpoint join_items (l : list string) : string :=
  match l with
  | [] => ""
  | [x] => x
  | x :: l' => x +:+ "," +:+ nl +:+ "  " +:+ join_items l'
  end.

Definition dumps (manifest : list ManifestEntry) : string :=
  match manifest with
  | [] => "[]"
  | _ => "[" +:+ nl +:+ "  " +:+ join_items (of_entry <$> manifest) +:+ nl +:+ "]"
  end.

End Json.

(* ===================================================================== *)
(** * [int(s)] on a decimal string                                       *)
(* ===================================================================== *)

Module PyInt.

(** The white space that [int] strips.  Below 0x80 it is the C locale's:
    tab to carriage return, and the space; above, the two Unicode spaces
    of Latin-1, which [int] turns into spaces first.  The separators
    0x1C to 0x1F are not stripped. *)
Definition is_space (c : ascii) : bool :=
  let n := nat_of_ascii c in
  ((9 <=? n)%nat && (n <=? 13)%nat) || (n =? 32)%nat
  || (n =? 133)%nat || (n =? 160)%nat.

Fixpoint lstrip (s : string) : string :=
  match s with
  | String c s' => if is_space c then lstrip s' else s
  | EmptyString => ""
  end.

Definition strip (s : string) : string :=
  String.rev (lstrip (String.rev (lstrip s))).

(** Digits with single underscores between them. *)
Fixpoint digits (acc : Z) (after_digit : bool) (s : string) : option Z :=
  match s with
  | EmptyString => if after_digit then Some acc else None
  | String c s' =>
      if Ascii.eqb c "_" then
        if after_digit then digits acc false s' else None
      else
        match Ascii.is_nat c with
        | Some d => digits (acc * 10 + Z.of_nat d) true s'
        | None => None
        end
  end.

(** [int(s)]: surrounding white space, an optional sign, decimal digits
    (ASCII only). *)
Definition int (s : string) : Exn + Z :=
  let r := match strip s with
           | String "-" s' => Z.opp <$> digits 0 false s'
           | String "+" s' => digits 0 false s'
           | s' => digits 0 false s'
           end in
  match r with
  | Some z => inr z
  | None => inl (ValueError "invalid literal for int() with base 10")
  end.

End PyInt.

(* ===================================================================== *)
(** * Manifest                                                           *)
(* ===================================================================== *)

Definition MANIFEST_NAME : string := ".manifest.json".

(** A frame of the walker's stack: a folder id and the local directory
    its children go to. *)
Abbreviation Frame := (string * Path)%type.

(** How the generator ends: exhausted, raising, or still running when the
    model's fuel is spent. *)
Inductive WalkEnd : Type :=
| WalkDone
| WalkRaise (e : Exn)
| WalkFuel.

(** The pairs a generator yields, in order, and how it ends. *)
Abbreviation Walk := (list (FileMeta * Path) * WalkEnd)%type.

Section Orchestrator.
Context `{Hashlib}.
Variable self : Downloader.
Variable env : Remote.

(** [_write_manifest(target_root, manifest)]. *)
Definition _write_manifest (target_root : Path) (manifest : list ManifestEntry)
  : M unit :=
  match manifest with
  | [] => mret tt
  | _ =>
      let manifest_path := target_root // MANIFEST_NAME in
      try_except
        (write_text manifest_path (Json.dumps manifest);;
         logger INFO "Wrote manifest with %d entries to %s")
        (λ exc, logger WARNING "Failed to write manifest %s: %s")
  end.

(** The loop of [_verify_against_manifest]: the paths that fail. *)
Fixpoint collect_missing (target_root : Path) (manifest : list ManifestEntry)
  : M (list string) :=
  match manifest with
  | [] => mret []
  | entry :: rest =>
      let expected_path := target_root // entry_path entry in
      let expected_size := match entry_size entry with
                           | Some z => if z =? 0 then None else Some z
                           | None => None
                           end in
      ok ← _verify_local_file self expected_path expected_size (entry_md5 entry);
      missing ← collect_missing target_root rest;
      mret (if (ok : bool) then missing else entry_path entry :: missing)
  end.

(** [_verify_against_manifest(target_root, manifest)]. *)
Definition _verify_against_manifest (target_root : Path)
    (manifest : list ManifestEntry) : M unit :=
  missing ← collect_missing target_root manifest;
  match missing with
  | _ :: _ =>
      logger ERROR "Verification failed. %d file(s) missing or corrupt: %s";;
      raise (RuntimeError "Verification failed - see log for details")
  | [] => logger INFO "Verification succeeded for %d file(s) in %s"
  end.

(* ===================================================================== *)
(** * Drive walker                                                       *)
(* ===================================================================== *)

Definition FOLDER_MIME : string := "application/vnd.google-apps.folder".

(** The query of one listing call. *)
Definition children_query (current_folder_id : string) : string :=
  "'" +:+ current_folder_id +:+ "' in parents and trashed = false".

Definition list_request (current_folder_id : string) (page_token : option string)
    (page_size : Z) : ListRequest :=
  {| req_q := children_query current_folder_id;
     req_spaces := "drive";
     req_fields := "nextPageToken, files(id,name,mimeType,md5Checksum,size)";
     req_pageToken := page_token;
     req_pageSize := page_size;
     req_supportsAllDrives := true;
     req_includeItemsFromAllDrives := true |}.

(** [file_item.get("name") or file_item["id"]]. *)
Definition child_name (file_item : FileItem) : string :=
  or_else (item_name file_item) (item_id file_item).

Definition is_folder (file_item : FileItem) : bool :=
  bool_decide (item_mimeType file_item = Some FOLDER_MIME).

(** [int(file_item["size"]) if file_item.get("size") else None]. *)
Definition child_size (file_item : FileItem) : Exn + option Z :=
  match item_size file_item with
  | Some s =>
      if truthy_str s then
        match PyInt.int s with inr z => inr (Some z) | inl e => inl e end
      else inr None
  | None => inr None
  end.

(** What the body of [for file_item in ...] does with one child. *)
Inductive ChildAction : Type :=
| Push (child_id : string) (next_local : Path)
| Ignore
| Yield (metadata : FileMeta) (local_path : Path)
| Fail (e : Exn).

Definition visit_child (recursive : bool) (current_local : Path)
    (file_item : FileItem) : ChildAction :=
  let mime_type := item_mimeType file_item in
  let name := child_name file_item in
  if is_folder file_item && recursive then
    Push (item_id file_item) (current_local // name)
  else if negb (is_folder file_item) then
    match child_size file_item with
    | inr size =>
        Yield {| meta_id := item_id file_item;
                 meta_name := name;
                 meta_mimeType := mime_type;
                 meta_md5Checksum := item_md5Checksum file_item;
                 meta_size := size |}
              (current_local // name)
    | inl e => Fail e
    end
  else Ignore.

Definition yield_first (ys : list (FileMeta * Path)) (w : Walk) : Walk :=
  (ys ++ w.1, w.2).

(** [stack.pop()]: the frame appended last. *)
Definition pop (stack : list Frame) : option (Frame * list Frame) :=
  match reverse stack with
  | [] => None
  | top :: below => Some (top, reverse below)
  end.

(** One page of children: what is yielded, and the stack afterwards or
    the exception that stopped the page. *)
Fixpoint visit_page (recursive : bool) (current_local : Path)
    (children : list FileItem) (stack : list Frame)
  : list (FileMeta * Path) * (Exn + list Frame) :=
  match children with
  | [] => ([], inr stack)
  | file_item :: rest =>
      match visit_child recursive current_local file_item with
      | Push child_id next_local =>
          visit_page recursive current_local rest (stack ++ [(child_id, next_local)])
      | Ignore => visit_page recursive current_local rest stack
      | Yield metadata local_path =>
          let r := visit_page recursive current_local rest stack in
          ((metadata, local_path) :: r.1, r.2)
      | Fail e => ([], inl e)
      end
  end.

(** The two nested loops of [_walk_folder].  [current] is the frame being
    paginated with its page token, or [None] between frames.  One unit of
    fuel is one pass through either loop header. *)
Fixpoint walk_loop (fuel : nat) (recursive : bool) (page_size : Z)
    (stack : list Frame) (current : option (Frame * option string)) : Walk :=
  match fuel with
  | O => ([], WalkFuel)
  | S fuel' =>
      match current with
      | None =>
          match pop stack with
          | None => ([], WalkDone)
          | Some (frame, stack') =>
              walk_loop fuel' recursive page_size stack' (Some (frame, None))
          end
      | Some ((current_folder_id, current_local), page_token) =>
          match drive_list env (list_request current_folder_id page_token page_size) with
          | inl e => ([], WalkRaise e)
          | inr response =>
              let page := visit_page recursive current_local
                            (default [] (resp_files response)) stack in
              match page.2 with
              | inl e => (page.1, WalkRaise e)
              | inr stack' =>
                  let page_token := resp_nextPageToken response in
                  yield_first page.1
                    (walk_loop fuel' recursive page_size stack'
                       (if truthy page_token
                        then Some ((current_folder_id, current_local), page_token)
                        else None))
              end
          end
      end
  end.

(** [_walk_folder(drive_service, folder_id, local_root, recursive,
    page_size=1000)].  The generator has no effect on the local world
    except the error log of a failed listing, which its consumer replays
    when the generator raises. *)
Definition _walk_folder (fuel : nat) (folder_id : string) (local_root : Path)
    (recursive : bool) : Walk :=
  walk_loop fuel recursive 1000 [(folder_id, local_root)] None.

(* ===================================================================== *)
(** * Acquisition orchestrator: one Drive folder                         *)
(* ===================================================================== *)

(** The arguments of one [executor.submit(self._download_gdrive_file, ...)]. *)
Record Task : Type := mkTask {
  task_file_id : string;
  task_name : string;
  task_dest : Path;
  task_md5 : option string;
  task_size : option Z
}.

(** The local variables of [_download_gdrive_folder] that the listing loop
    updates.  [existing.add(...)] mutates the set stored in
    [seen_md5_by_path] in place, so the map entry changes with it;
    [set(existing)] stores a copy in [conflict_md5s_by_path]. *)
Record LoopState : Type := mkLoop {
  manifest : list ManifestEntry;
  futures : list Task;
  scheduled_count : Z;
  seen_md5_by_path : gmap string (gset string);
  skipped_duplicate_count : Z;
  conflict_md5s_by_path : gmap string (gset string)
}.

Definition initial_state : LoopState :=
  {| manifest := []; futures := []; scheduled_count := 0;
     seen_md5_by_path := ∅; skipped_duplicate_count := 0;
     conflict_md5s_by_path := ∅ |}.

(** [manifest.append({...})]. *)
Definition append_manifest (st : LoopState) (entry : ManifestEntry) : LoopState :=
  {| manifest := manifest st ++ [entry]; futures := futures st;
     scheduled_count := scheduled_count st;
     seen_md5_by_path := seen_md5_by_path st;
     skipped_duplicate_count := skipped_duplicate_count st;
     conflict_md5s_by_path := conflict_md5s_by_path st |}.

(** The arguments that [submit_download] passes to [executor.submit]. *)
Definition download_task (file_meta : FileMeta) (dest_path : Path) : Task :=
  {| task_file_id := meta_id file_meta;
     task_name := or_else (Some (meta_name file_meta)) (meta_id file_meta);
     task_dest := dest_path;
     task_md5 := meta_md5Checksum file_meta;
     task_size := meta_size file_meta |}.

(** [submit_download(file_meta, dest_path)]: the task joins the pool's
    queue; the progress bar is not modelled. *)
Definition submit_download (st : LoopState) (file_meta : FileMeta)
    (dest_path : Path) : LoopState :=
  let task := download_task file_meta dest_path in
  {| manifest := manifest st; futures := futures st ++ [task];
     scheduled_count := scheduled_count st + 1;
     seen_md5_by_path := seen_md5_by_path st;
     skipped_duplicate_count := skipped_duplicate_count st;
     conflict_md5s_by_path := conflict_md5s_by_path st |}.

(** The dictionary appended to the manifest, [rel] being
    [dest_path.relative_to(target_root)]. *)
Definition manifest_entry (file_meta : FileMeta) (rel : Path) : ManifestEntry :=
  {| entry_id := meta_id file_meta;
     entry_path := PurePath.str rel;
     entry_md5 := meta_md5Checksum file_meta;
     entry_size := meta_size file_meta |}.

(** The [if expected_md5:] block.  The flag is [true] on the branch that
    ends in [continue]. *)
Definition dedupe (st : LoopState) (rel_path_str : string)
    (expected_md5 : option string) : LoopState * bool :=
  match expected_md5 with
  | Some md5 =>
      if truthy_str md5 then
        match seen_md5_by_path st !! rel_path_str with
        | None =>
            ({| manifest := manifest st; futures := futures st;
                scheduled_count := scheduled_count st;
                seen_md5_by_path := <[rel_path_str := {[md5]}]> (seen_md5_by_path st);
                skipped_duplicate_count := skipped_duplicate_count st;
                conflict_md5s_by_path := conflict_md5s_by_path st |}, false)
        | Some existing =>
            if bool_decide (md5 ∈ existing) then
              ({| manifest := manifest st; futures := futures st;
                  scheduled_count := scheduled_count st;
                  seen_md5_by_path := seen_md5_by_path st;
                  skipped_duplicate_count := skipped_duplicate_count st + 1;
                  conflict_md5s_by_path := conflict_md5s_by_path st |}, true)
            else
              let grown := existing ∪ {[md5]} in
              ({| manifest := manifest st; futures := futures st;
                  scheduled_count := scheduled_count st;
                  seen_md5_by_path := <[rel_path_str := grown]> (seen_md5_by_path st);
                  skipped_duplicate_count := skipped_duplicate_count st;
                  conflict_md5s_by_path :=
                    <[rel_path_str := grown]> (conflict_md5s_by_path st) |}, false)
        end
      else (st, false)
  | None => (st, false)
  end.

(** The [if dest_path.exists() and not overwrite:] block.  [true] when it
    ends in [continue]. *)
Definition local_skip (overwrite : bool) (dest_path : Path)
    (expected_size : option Z) (expected_md5 : option string) : M bool :=
  there ← path_exists dest_path;
  if (there : bool) && negb overwrite then
    if verify_downloads self then
      _verify_local_file self dest_path expected_size expected_md5
    else mret true
  else mret false.

(** The body of [for file_meta, dest_path in generator:], the same in
    both branches of [if self.use_progress:]. *)
Definition process_entry (overwrite : bool) (target_root : Path)
    (st : LoopState) (yielded : FileMeta * Path) : M LoopState :=
  let file_meta := yielded.1 in
  let dest_path := yielded.2 in
  rel ← lift (PurePath.relative_to dest_path target_root);
  let st := append_manifest st (manifest_entry file_meta rel) in
  if manifest_only self || verify_only self then mret st
  else
    let expected_size := meta_size file_meta in
    let expected_md5 := meta_md5Checksum file_meta in
    let rel_path_str := PurePath.str rel in
    let gate := dedupe st rel_path_str expected_md5 in
    if gate.2 then mret gate.1
    else
      skip ← local_skip overwrite dest_path expected_size expected_md5;
      if (skip : bool) then mret gate.1
      else mret (submit_download gate.1 file_meta dest_path).

Fixpoint for_each {S A} (body : S → A → M S) (xs : list A) (st : S) : M S :=
  match xs with
  | [] => mret st
  | x :: rest => st' ← body st x; for_each body rest st'
  end.

(** A [for] loop over a generator: the body runs on every pair yielded,
    then the generator's end takes effect. *)
Definition consume {S} (generator : Walk) (body : S → FileMeta * Path → M S)
    (st : S) : M S :=
  st' ← for_each body generator.1 st;
  match generator.2 with
  | WalkDone => mret st'
  | WalkRaise (HttpError msg) =>
      logger ERROR "Failed to list folder %s: %s";; raise (HttpError msg)
  | WalkRaise e => raise e
  | WalkFuel => out_of_fuel
  end.

(** The two messages after the listing. *)
Definition report_dedupe (st : LoopState) : M unit :=
  (if negb (skipped_duplicate_count st =? 0)
   then logger INFO "Deduped %d download(s) by identical path+md5"
   else mret tt);;
  (if negb (bool_decide (conflict_md5s_by_path st = ∅))
   then logger WARNING "Detected %d path(s) with multiple different md5 values (possible naming conflicts). Example(s): %s%s"
   else mret tt).

Definition run_task (task : Task) : M unit :=
  _download_gdrive_file self env (task_file_id task) (task_name task)
    (task_dest task) (task_md5 task) (task_size task).

(** [for future in as_completed(futures): future.result()].  The pool is
    modelled as a queue: a submitted task runs when its result is asked
    for, in submission order, and the first exception propagates. *)
Fixpoint drain (queue : list Task) : M unit :=
  match queue with
  | [] => mret tt
  | task :: rest => run_task task;; drain rest
  end.

(** What follows the manifest write. *)
Definition after_manifest (target_root : Path) (st : LoopState) : M unit :=
  if manifest_only self then mret tt
  else if verify_only self then _verify_against_manifest target_root (manifest st)
  else drain (futures st).

(** [_download_gdrive_folder(item, target_root, overwrite)].  The
    heartbeat of the branch without progress bars depends on the wall
    clock and is left out. *)
Definition _download_gdrive_folder (fuel : nat) (item : DownloadItem)
    (target_root : Path) (overwrite : bool) : M unit :=
  if negb (truthy_scalar (folder_id item)) then
    raise (ValueError "gdrive_folder item missing folder_id")
  else
    _get_drive_service env;;
    logger INFO "Downloading Google Drive folder %s (recursive=%s) using Google Drive API";;
    let generator := _walk_folder fuel (str_scalar (folder_id item)) target_root
                       (recursive item) in
    st ← consume generator (process_entry overwrite target_root) initial_state;
    (if use_progress self
     then report_dedupe st;; _write_manifest target_root (manifest st)
     else _write_manifest target_root (manifest st);; report_dedupe st);;
    after_manifest target_root st.

End Orchestrator.

(* ===================================================================== *)
(** * HTTP fetcher and [download_all]                                    *)
(* ===================================================================== *)

(** The two functions of [urllib.parse] that the code calls:
    [urlparse(url).path] (which may raise [ValueError]) and [unquote]. *)
Class Urllib : Type := {
  urlparse_path : string → Exn + string;
  unquote : string → string
}.

Section Source.
Context `{Hashlib} `{Urllib}.
Variable self : Downloader.
Variable env : Remote.

(** The name inferred from the URL:
    [Path(unquote(urlparse(url).path)).name]. *)
Definition inferred_filename (u : string) : Exn + string :=
  match urlparse_path u with
  | inr path => inr (PurePath.name (PurePath.parse (unquote path)))
  | inl e => inl e
  end.

(** The "Determine filename" block of [_download_http_file]. *)
Definition determine_filename (item : DownloadItem) : M scalar :=
  if truthy_scalar (filename item) then mret (filename item)
  else
    match url item with
    | SStr u =>
        name ← lift (inferred_filename u);
        if negb (truthy_str name)
        then raise (ValueError "Cannot infer filename from URL")
        else mret (SStr name)
    | _ => raise (AttributeError "object has no attribute 'decode'")
    end.

(** The loop over [resp.iter_content(chunk_size=8192)]. *)
Fixpoint write_blocks (tmp_path : Path) (blocks : list bytes)
    (failure : option Exn) : M unit :=
  match blocks with
  | chunk :: rest =>
      (match chunk with [] => mret tt | _ => fh_write tmp_path chunk end);;
      write_blocks tmp_path rest failure
  | [] => match failure with Some e => raise e | None => mret tt end
  end.

(** [_download_http_file(item, target_root, overwrite)]. *)
Definition _download_http_file (item : DownloadItem) (target_root : Path)
    (overwrite : bool) : M unit :=
  if negb (truthy_scalar (url item)) then
    raise (ValueError "http_file item missing url")
  else
    name ← determine_filename item;
    dest_path ← (match name with
                 | SStr f => mret (target_root // f)
                 | _ => raise (TypeError "unsupported operand type(s) for /")
                 end : M Path);
    there ← path_exists dest_path;
    if (there : bool) && negb overwrite then
      logger DEBUG "Skipping existing file: %s"
    else
      logger INFO "Downloading %s -> %s";;
      try_except
        (mkdir_parents dest_path;;
         match url item with
         | SStr u =>
             match http_get env u with
             | HttpUnreachable e => raise e
             | HttpBadStatus e => raise e
             | HttpBody blocks failure =>
                 tmp_path ← lift (PurePath.with_suffix dest_path
                                    (PurePath.suffix dest_path +:+ ".part"));
                 open_wb tmp_path;;
                 write_blocks tmp_path blocks failure;;
                 replace tmp_path dest_path;;
                 logger INFO "Saved %s (%s)"
             end
         | _ => raise (ValueError "Invalid URL: No scheme supplied")
         end)
        (λ e, logger ERROR "Failed to download %s: %s";; raise e).

(** The pool of [_download_http_files], as a queue (see [drain]). *)
Fixpoint http_workers (queue : list DownloadItem) (target_root : Path)
    (overwrite : bool) : M unit :=
  match queue with
  | [] => mret tt
  | item :: rest =>
      _download_http_file item target_root overwrite;;
      http_workers rest target_root overwrite
  end.

(** [_download_http_files(items, target_root, overwrite)]. *)
Definition _download_http_files (http_items : list DownloadItem)
    (target_root : Path) (overwrite : bool) : M unit :=
  if manifest_only self then
    logger INFO "Manifest-only mode: skipping HTTP downloads."
  else if verify_only self then
    logger INFO "Verify-only mode: skipping HTTP downloads (no manifest available)."
  else
    logger INFO "Downloading %d HTTP file(s) with up to %d workers";;
    http_workers http_items target_root overwrite.

(** The loop [for item in gdrive_items:]. *)
Fixpoint gdrive_folders (fuel : nat) (gdrive_items : list DownloadItem)
    (target_root : Path) (overwrite : bool) : M unit :=
  match gdrive_items with
  | [] => mret tt
  | item :: rest =>
      _download_gdrive_folder self env fuel item target_root overwrite;;
      gdrive_folders fuel rest target_root overwrite
  end.

Definition is_kind (k : ItemKind) (item : DownloadItem) : bool :=
  bool_decide (kind item = k).

(** [self.config.output_dir / self.config.subdir]. *)
Definition resolve_target_root : M Path :=
  match subdir (config self) with
  | VScalar (SStr s) => mret (output_dir (config self) // s)
  | _ => raise (TypeError "unsupported operand type(s) for /")
  end.

(** [download_all(overwrite)].  [fuel] bounds each folder walk. *)
Definition download_all (fuel : nat) (overwrite : bool) : M unit :=
  target_root ← resolve_target_root;
  mkdir_parents target_root;;
  logger INFO "Downloading %d item(s) for source '%s' into: %s";;
  let http_items := List.filter (is_kind http_file) (items (config self)) in
  let gdrive_items := List.filter (is_kind gdrive_folder) (items (config self)) in
  (match http_items with
   | [] => mret tt
   | _ => _download_http_files http_items target_root overwrite
   end);;
  gdrive_folders fuel gdrive_items target_root overwrite.

End Source.

(* ===================================================================== *)
(** * Config loader                                                      *)
(* ===================================================================== *)

(** [d.get(k)] on the items of a dictionary. *)
Fixpoint dict_get {V} (k : string) (kv : list (string * V)) : option V :=
  match kv with
  | [] => None
  | (k', v) :: rest => if String.eqb k k' then Some v else dict_get k rest
  end.

(** [bool(v)] for a value under a top-level key. *)
Definition truthy_value (v : value) : bool :=
  match v with
  | VScalar s => truthy_scalar s
  | VSeq l => match l with [] => false | _ => true end
  end.

(** [Path(v)]. *)
Definition path_of_value (v : value) : Exn + Path :=
  match v with
  | VScalar (SStr s) => inr (PurePath.parse s)
  | _ => inl (TypeError "expected str, bytes or os.PathLike object")
  end.

(** The body of [for item in items_raw:]. *)
Definition parse_item (item : seq_elem) : Exn + DownloadItem :=
  match item with
  | EScalar _ => inl (ValueError "Each item in 'items' must be a mapping")
  | EMap kv =>
      let kind := default (SStr "http_file") (dict_get "kind" kv) in
      if bool_decide (kind = SStr "http_file") then
        let url := default SNone (dict_get "url" kv) in
        if negb (truthy_scalar url) then
          inl (ValueError "http_file item missing required 'url'")
        else
          inr {| kind := http_file; url := url;
                 filename := default SNone (dict_get "filename" kv);
                 folder_id := SNone; recursive := false |}
      else if bool_decide (kind = SStr "gdrive_folder") then
        let folder_id := default SNone (dict_get "folder_id" kv) in
        if negb (truthy_scalar folder_id) then
          inl (ValueError "gdrive_folder item missing 'folder_id'")
        else
          inr {| kind := gdrive_folder; url := SNone; filename := SNone;
                 folder_id := folder_id;
                 recursive := truthy_scalar
                                (default (SBool false) (dict_get "recursive" kv)) |}
      else inl (ValueError "Unknown item kind")
  end.

Fixpoint parse_items (items_raw : list seq_elem) : Exn + list DownloadItem :=
  match items_raw with
  | [] => inr []
  | item :: rest =>
      match parse_item item with
      | inl e => inl e
      | inr parsed =>
          match parse_items rest with
          | inl e => inl e
          | inr more => inr (parsed :: more)
          end
      end
  end.

(** [_load_config(base_output_dir)].  [config_file] is what
    [yaml.safe_load] returned, or [None] when the file does not exist. *)
Definition _load_config (config_file : option document)
    (base_output_dir : option Path) : Exn + SourceConfig :=
  match config_file with
  | None => inl (FileNotFoundError "Config file not found")
  | Some (DOther _) => inl (ValueError "Config must be a mapping at root")
  | Some (DMap data) =>
      match dict_get "source" data with
      | None => inl (ValueError "Config is missing required key: 'source'")
      | Some source =>
          if negb (truthy_value source) then
            inl (ValueError "Config is missing required key: 'source'")
          else
            let yaml_output_dir :=
              default (VScalar (SStr "downloads/datasets")) (dict_get "output_dir" data) in
            match (match base_output_dir with
                   | Some base => inr base
                   | None => path_of_value yaml_output_dir
                   end) with
            | inl e => inl e
            | inr output_root =>
                let subdir := default source (dict_get "subdir" data) in
                let items_raw := default (VSeq []) (dict_get "items" data) in
                if negb (truthy_value items_raw) then
                  inl (ValueError "Config must contain a non-empty 'items' list")
                else
                  match items_raw with
                  | VSeq l =>
                      match parse_items l with
                      | inl e => inl e
                      | inr items =>
                          inr {| source := source;
                                 description := dict_get "description" data;
                                 output_dir := output_root;
                                 subdir := subdir;
                                 items := items |}
                      end
                  | VScalar (SStr _) =>
                      inl (ValueError "Each item in 'items' must be a mapping")
                  | VScalar _ => inl (TypeError "object is not iterable")
                  end
            end
      end
  end.

(* ===================================================================== *)
(** * Library instances used to run the model on concrete inputs         *)
(* ===================================================================== *)

(** MD5 (RFC 1321) on 32-bit words held in [Z]. *)
Module MD5.

Definition mask32 (x : Z) : Z := Z.land x 0xffffffff.
Definition add32 (x y : Z) : Z := mask32 (x + y).
Definition not32 (x : Z) : Z := Z.lxor x 0xffffffff.
Definition rotl32 (x n : Z) : Z :=
  mask32 (Z.lor (Z.shiftl x n) (Z.shiftr x (32 - n))).

Definition K : list Z :=
  [ 0xd76aa478; 0xe8c7b756; 0x242070db; 0xc1bdceee; 0xf57c0faf; 0x4787c62a;
    0xa8304613; 0xfd469501; 0x698098d8; 0x8b44f7af; 0xffff5bb1; 0x895cd7be;
    0x6b901122; 0xfd987193; 0xa679438e; 0x49b40821; 0xf61e2562; 0xc040b340;
    0x265e5a51; 0xe9b6c7aa; 0xd62f105d; 0x02441453; 0xd8a1e681; 0xe7d3fbc8;
    0x21e1cde6; 0xc33707d6; 0xf4d50d87; 0x455a14ed; 0xa9e3e905; 0xfcefa3f8;
    0x676f02d9; 0x8d2a4c8a; 0xfffa3942; 0x8771f681; 0x6d9d6122; 0xfde5380c;
    0xa4beea44; 0x4bdecfa9; 0xf6bb4b60; 0xbebfbc70; 0x289b7ec6; 0xeaa127fa;
    0xd4ef3085; 0x04881d05; 0xd9d4d039; 0xe6db99e5; 0x1fa27cf8; 0xc4ac5665;
    0xf4292244; 0x432aff97; 0xab9423a7; 0xfc93a039; 0x655b59c3; 0x8f0ccc92;
    0xffeff47d; 0x85845dd1; 0x6fa87e4f; 0xfe2ce6e0; 0xa3014314; 0x4e0811a1;
    0xf7537e82; 0xbd3af235; 0x2ad7d2bb; 0xeb86d391 ].

Definition SHIFT : list Z :=
  [ 7; 12; 17; 22; 7; 12; 17; 22; 7; 12; 17; 22; 7; 12; 17; 22;
    5; 9; 14; 20; 5; 9; 14; 20; 5; 9; 14; 20; 5; 9; 14; 20;
    4; 11; 16; 23; 4; 11; 16; 23; 4; 11; 16; 23; 4; 11; 16; 23;
    6; 10; 15; 21; 6; 10; 15; 21; 6; 10; 15; 21; 6; 10; 15; 21 ].

Definition byte_val (b : byte) : Z := Z.of_N (Byte.to_N b).

Definition byte_of (z : Z) : byte :=
  default x00 (Byte.of_N (Z.to_N (Z.land z 0xff))).

(** [n] bytes of [z], least significant first. *)
Fixpoint le_bytes (n : nat) (z : Z) : bytes :=
  match n with
  | O => []
  | S n' => byte_of z :: le_bytes n' (Z.shiftr z 8)
  end.

Fixpoint le_word (bs : bytes) : Z :=
  match bs with
  | [] => 0
  | b :: bs' => byte_val b + 256 * le_word bs'
  end.

(** The message followed by 0x80, zeros up to 56 modulo 64, and its
    length in bits on 8 bytes. *)
Definition pad (msg : bytes) : bytes :=
  let len := Z.of_nat (length msg) in
  let zeros := Z.to_nat ((55 - len) mod 64) in
  msg ++ [x80] ++ replicate zeros x00 ++ le_bytes 8 (8 * len).

(** The sixteen words of one 64-byte block. *)
Fixpoint words (n : nat) (block : bytes) : list Z :=
  match n with
  | O => []
  | S n' => le_word (take 4 block) :: words n' (drop 4 block)
  end.

Record regs : Type := mkRegs { ra : Z; rb : Z; rc : Z; rd : Z }.

Definition round (w : list Z) (r : regs) (i : nat) : regs :=
  let iz := Z.of_nat i in
  let '(f, g) :=
    if iz <? 16 then
      (Z.lor (Z.land (rb r) (rc r)) (Z.land (not32 (rb r)) (rd r)), iz)
    else if iz <? 32 then
      (Z.lor (Z.land (rd r) (rb r)) (Z.land (not32 (rd r)) (rc r)), (5 * iz + 1) mod 16)
    else if iz <? 48 then
      (Z.lxor (rb r) (Z.lxor (rc r) (rd r)), (3 * iz + 5) mod 16)
    else
      (Z.lxor (rc r) (Z.lor (rb r) (not32 (rd r))), (7 * iz) mod 16) in
  let f' := add32 (add32 (add32 f (ra r)) (default 0 (K !! i)))
                  (default 0 (w !! Z.to_nat g)) in
  {| ra := rd r; rd := rc r; rc := rb r;
     rb := add32 (rb r) (rotl32 f' (default 0 (SHIFT !! i))) |}.

Definition compress (h : regs) (block : bytes) : regs :=
  let r := foldl (round (words 16 block)) h (seq 0 64) in
  {| ra := add32 (ra h) (ra r); rb := add32 (rb h) (rb r);
     rc := add32 (rc h) (rc r); rd := add32 (rd h) (rd r) |}.

Fixpoint blocks (n : nat) (h : regs) (data : bytes) : regs :=
  match n with
  | O => h
  | S n' => blocks n' (compress h (take 64 data)) (drop 64 data)
  end.

Definition digest (msg : bytes) : bytes :=
  let data := pad msg in
  let h := blocks (length data / 64)
             {| ra := 0x67452301; rb := 0xefcdab89;
                rc := 0x98badcfe; rd := 0x10325476 |} data in
  le_bytes 4 (ra h) ++ le_bytes 4 (rb h) ++ le_bytes 4 (rc h) ++ le_bytes 4 (rd h).

Definition hex_of_byte (b : byte) : string :=
  let n := N.to_nat (Byte.to_N b) in
  String (Json.hex_digit (n / 16)) (String (Json.hex_digit (n mod 16)) "").

Fixpoint hex (bs : bytes) : string :=
  match bs with
  | [] => ""
  | b :: bs' => hex_of_byte b +:+ hex bs'
  end.

Definition hexdigest (msg : bytes) : string := hex (digest msg).

End MD5.

(** [hashlib.md5] as it is specified: the object holds what it was fed,
    and the digest is MD5 of all of it. *)
#[refine] Instance md5_hashlib : Hashlib := {|
  md5_state := bytes;
  md5_new := [];
  md5_update d block := d ++ block;
  md5_hexdigest := MD5.hexdigest
|}.
Proof.
  - intros d a b. symmetry. apply app_assoc.
  - intros d. apply app_nil_r.
Defined.

(** [urllib.parse] on ASCII URLs of the shape
    [scheme://authority/path;params?query#fragment] whose escapes are
    below [%80].  The steps are those of [urlsplit] and [urlparse]; the
    authority is not validated. *)
Module Url.

Definition in_range (lo hi : nat) (c : ascii) : bool :=
  let n := nat_of_ascii c in (lo <=? n)%nat && (n <=? hi)%nat.

Definition is_alpha (c : ascii) : bool := in_range 65 90 c || in_range 97 122 c.

Definition is_scheme_char (c : ascii) : bool :=
  is_alpha c || in_range 48 57 c
  || Ascii.eqb c "+" || Ascii.eqb c "-" || Ascii.eqb c ".".

Definition lower (c : ascii) : ascii :=
  if in_range 65 90 c then ascii_of_nat (nat_of_ascii c + 32) else c.

(** Leading C0 controls and spaces go; tab, CR and LF go everywhere. *)
Fixpoint lstrip_c0 (s : string) : string :=
  match s with
  | String c s' => if in_range 0 32 c then lstrip_c0 s' else s
  | EmptyString => ""
  end.

Fixpoint remove_unsafe (s : string) : string :=
  match s with
  | String c s' =>
      if Ascii.eqb c "009" || Ascii.eqb c "010" || Ascii.eqb c "013"
      then remove_unsafe s' else String c (remove_unsafe s')
  | EmptyString => ""
  end.

(** The lower-cased scheme and what follows its colon. *)
Fixpoint scheme_end (s : string) : option (string * string) :=
  match s with
  | EmptyString => None
  | String c s' =>
      if Ascii.eqb c ":" then Some ("", s')
      else if is_scheme_char c then
        match scheme_end s' with
        | Some (sch, rest) => Some (String (lower c) sch, rest)
        | None => None
        end
      else None
  end.

Definition split_scheme (u : string) : string * string :=
  match u with
  | String c _ =>
      if is_alpha c then default ("", u) (scheme_end u) else ("", u)
  | EmptyString => ("", "")
  end.

(** The part of [s] before the first character satisfying [stop]. *)
Fixpoint before (stop : ascii → bool) (s : string) : string :=
  match s with
  | String c s' => if stop c then "" else String c (before stop s')
  | EmptyString => ""
  end.

(** [s] from the first character satisfying [stop] on. *)
Fixpoint from (stop : ascii → bool) (s : string) : string :=
  match s with
  | String c s' => if stop c then s else from stop s'
  | EmptyString => ""
  end.

Definition netloc_end (c : ascii) : bool :=
  Ascii.eqb c "/" || Ascii.eqb c "?" || Ascii.eqb c "#".

Definition drop_netloc (u : string) : string :=
  match u with
  | String "/" (String "/" rest) => from netloc_end rest
  | _ => u
  end.

Definition uses_params : list string :=
  [""; "ftp"; "hdl"; "prospero"; "http"; "imap"; "https"; "shttp"; "rtsp";
   "rtspu"; "sip"; "sips"; "mms"; "sftp"; "tel"].

Fixpoint map_last (f : string → string) (l : list string) : list string :=
  match l with
  | [] => []
  | [x] => [f x]
  | x :: l' => x :: map_last f l'
  end.

(** [_splitparams]: the last segment loses what follows its first [;]. *)
Definition drop_params (path : string) : string :=
  PurePath.join_sep (map_last (before (Ascii.eqb ";")) (PurePath.split_sep path)).

(** [urlparse(url).path]. *)
Definition path (u : string) : string :=
  let '(scheme, rest) := split_scheme (remove_unsafe (lstrip_c0 u)) in
  let rest := drop_netloc rest in
  let rest := before (Ascii.eqb "#") rest in
  let rest := before (Ascii.eqb "?") rest in
  if bool_decide (scheme ∈ uses_params) then drop_params rest else rest.

Definition hex_val (c : ascii) : option nat :=
  if in_range 48 57 c then Some (nat_of_ascii c - 48)%nat
  else if in_range 65 70 c then Some (nat_of_ascii c - 55)%nat
  else if in_range 97 102 c then Some (nat_of_ascii c - 87)%nat
  else None.

(** [unquote(s)]. *)
Fixpoint unquote (s : string) : string :=
  match s with
  | EmptyString => ""
  | String c s' =>
      match s' with
      | String h (String l rest) =>
          match Ascii.eqb c "%", hex_val h, hex_val l with
          | true, Some a, Some b => String (ascii_of_nat (16 * a + b)) (unquote rest)
          | _, _, _ => String c (unquote s')
          end
      | _ => String c (unquote s')
      end
  end.

End Url.

Instance ascii_urllib : Urllib := {|
  urlparse_path u := inr (Url.path u);
  unquote := Url.unquote
|}.

(* ===================================================================== *)
(** * The rules in the words of the specification                        *)
(* ===================================================================== *)

Section Rules.
Context `{Hashlib}.

(** Verifier, section 4.3: a missing file fails; a given size that differs
    fails; with verification enabled and an md5 given, the MD5 of the
    whole file decides; anything else passes.  An md5 is given when the
    source's test [if ... and expected_md5] holds, that is when it is
    neither [None] nor the empty string. *)
Definition verifier_rule (enabled : bool) (content : option bytes)
    (expected_size : option Z) (expected_md5 : option string) : bool :=
  match content with
  | None => false
  | Some data =>
      match expected_size with
      | Some n => Z.of_nat (length data) =? n
      | None => true
      end
      && (if enabled && truthy expected_md5
          then bool_decide (Some (md5_hex data) = expected_md5)
          else true)
  end.

(** Orchestrator, step 4e: with the destination present and overwrite
    off, skip when verification is disabled, skip when it is enabled and
    the local file passes the verifier; schedule in every other case. *)
Definition local_skip_rule (enabled overwrite : bool) (content : option bytes)
    (expected_size : option Z) (expected_md5 : option string) : bool :=
  match content with
  | Some _ =>
      if overwrite then false
      else if enabled then verifier_rule true content expected_size expected_md5
      else true
  | None => false
  end.

(** The manifest entry of a yielded pair, when its path lies under the
    root. *)
Definition entry_of (target_root : Path) (yielded : FileMeta * Path)
  : option ManifestEntry :=
  match PurePath.relative_to yielded.2 target_root with
  | inr rel => Some (manifest_entry yielded.1 rel)
  | inl _ => None
  end.

(** The entries of a manifest with a given path and md5. *)
Definition same_pair (path md5 : string) (entry : ManifestEntry) : bool :=
  bool_decide (entry_path entry = path ∧ entry_md5 entry = Some md5).

End Rules.

(* ===================================================================== *)
(** * Depth-first traversal, as a recursive function                     *)
(* ===================================================================== *)

Section DepthFirst.
Variable env : Remote.

Definition yielded_by (action : ChildAction) : list (FileMeta * Path) :=
  match action with Yield metadata local_path => [(metadata, local_path)] | _ => [] end.

Definition pushed_by (action : ChildAction) : list Frame :=
  match action with Push child_id next_local => [(child_id, next_local)] | _ => [] end.

Definition is_fail (action : ChildAction) : bool :=
  match action with Fail _ => true | _ => false end.

(** The files among [children], in the order listed. *)
Definition files_of (recursive : bool) (local : Path) (children : list FileItem)
  : list (FileMeta * Path) :=
  flat_map (λ child, yielded_by (visit_child recursive local child)) children.

(** The subfolders among [children] to descend into, in the order listed. *)
Definition subfolders_of (recursive : bool) (local : Path) (children : list FileItem)
  : list Frame :=
  flat_map (λ child, pushed_by (visit_child recursive local child)) children.

(** All children of a folder: the pages of the listing, one after the
    other, following [nextPageToken] from [page_token] on. *)
Fixpoint all_children (pages : nat) (folder : string) (page_token : option string)
  : option (list FileItem) :=
  match pages with
  | O => None
  | S pages' =>
      match drive_list env (list_request folder page_token 1000) with
      | inl _ => None
      | inr response =>
          let here := default [] (resp_files response) in
          if truthy (resp_nextPageToken response) then
            more ← all_children pages' folder (resp_nextPageToken response);
            Some (here ++ more)
          else Some here
      end
  end.

(** Depth-first traversal from [frame]: the files of the folder, then
    each subfolder with everything below it, the subfolder listed last
    first.  [None] when a listing fails, a size does not parse, or the
    tree is deeper than [depth] or a folder longer than [pages] pages. *)
Fixpoint depth_first (depth pages : nat) (recursive : bool) (frame : Frame)
  : option (list (FileMeta * Path)) :=
  match depth with
  | O => None
  | S depth' =>
      children ← all_children pages frame.1 None;
      if existsb (λ child, is_fail (visit_child recursive frame.2 child)) children
      then None
      else
        below ← mapM (depth_first depth' pages recursive)
                  (reverse (subfolders_of recursive frame.2 children));
        Some (files_of recursive frame.2 children ++ concat below)
  end.

End DepthFirst.

(* ===================================================================== *)
(** * Vocabulary of the statements                                       *)
(* ===================================================================== *)

(** A logging call only grows the log. *)
Definition logged (w : World) (l : Level) (tpl : string) : World :=
  mkWorld (fs w) (log w ++ [mkLog l tpl]).

(** The world with its files replaced. *)
Definition with_files (w : World) (m : gmap Path bytes) : World :=
  mkWorld (mkFS m (denied (fs w))) (log w).

(** A call that never runs out of fuel: it returns or raises. *)
Definition total {A} (m : M A) : Prop := ∀ w, (run m w).1 ≠ OutOfFuel.

(** What the writer leaves at the manifest path. *)
Definition persisted (target_root : Path) (w : World) : option bytes :=
  files (fs w) !! (target_root // MANIFEST_NAME).

(** The state the loop body leaves, as a function of what is on disk. *)
Definition after_entry `{Hashlib} (self : Downloader) (overwrite : bool)
    (st : LoopState) (yielded : FileMeta * Path) (rel : Path) (content : option bytes) : LoopState :=
  let st1 := append_manifest st (manifest_entry yielded.1 rel) in
  if manifest_only self || verify_only self then st1
  else
    let gate := dedupe st1 (PurePath.str rel) (meta_md5Checksum yielded.1) in
    if gate.2 then gate.1
    else if local_skip_rule (verify_downloads self) overwrite content
              (meta_size yielded.1) (meta_md5Checksum yielded.1)
         then gate.1
         else submit_download gate.1 yielded.1 yielded.2.

(** Every pair of path and non-empty md5 in the manifest is recorded in
    [seen_md5_by_path]. *)
Definition seen_covers (st : LoopState) : Prop :=
  ∀ entry md5,
    entry ∈ manifest st → entry_md5 entry = Some md5 → md5 ≠ "" →
    ∃ existing, seen_md5_by_path st !! entry_path entry = Some existing
                ∧ md5 ∈ existing.

(** The file at [q] and the set of unwritable paths are as before. *)
Definition keeps (q : Path) (w w' : World) : Prop :=
  files (fs w') !! q = files (fs w) !! q ∧ denied (fs w') = denied (fs w).

(** The set of unwritable paths is as before. *)
Definition same_denied (w w' : World) : Prop := denied (fs w') = denied (fs w).

(** A relation between the worlds before and after a call that holds
    when the files did not change and composes. *)
Class FrameRel (R : World → World → Prop) : Prop := {
  frame_same_fs : ∀ w w', fs w' = fs w → R w w';
  frame_trans : ∀ w1 w2 w3, R w1 w2 → R w2 w3 → R w1 w3
}.

(** Every run of [m] relates the world before to the world after. *)
Definition preserves {A} (R : World → World → Prop) (m : M A) : Prop :=
  ∀ w, R w (run m w).2.

(** Whether [m] occurs in [s]. *)
Fixpoint occurs_in (m s : string) : bool :=
  String.prefix m s
  || match s with String _ s' => occurs_in m s' | EmptyString => false end.

(** The disk after [_write_manifest]. *)
Definition written_fs (target_root : Path) (manifest : list ManifestEntry) (f : FS)
  : FS :=
  match manifest with
  | [] => f
  | _ =>
      if bool_decide (target_root // MANIFEST_NAME ∈ denied f) then f
      else mkFS (<[target_root // MANIFEST_NAME := encode_utf8 (Json.dumps manifest)]>
                   (files f)) (denied f)
  end.

(** The first log record of a folder run. *)
Definition folder_log : string :=
  "Downloading Google Drive folder %s (recursive=%s) using Google Drive API".

(** The generator that a folder run consumes. *)
Definition walk_of (env : Remote) (fuel : nat) (item : DownloadItem)
    (target_root : Path) : Walk :=
  _walk_folder env fuel (str_scalar (folder_id item)) target_root (recursive item).

(** The log record that opens [download_all]. *)
Definition download_all_log : string :=
  "Downloading %d item(s) for source '%s' into: %s".

(** The manifest file after a sequence of folder runs, each of which
    rewrites it unless its own manifest is empty. *)
Definition manifest_after (before : option bytes)
    (manifests : list (list ManifestEntry)) : option bytes :=
  foldl (λ current manifest,
           match manifest with
           | [] => current
           | _ => Some (encode_utf8 (Json.dumps manifest))
           end) before manifests.

(* ===================================================================== *)
(** * Sample runs                                                        *)
(* ===================================================================== *)

Module Sample.

(** The resolved root [out/ds] of a source named [ds]. *)
Definition target_root : Path := PurePath.parse "out" // "ds".

Definition config_of (items : list DownloadItem) : SourceConfig :=
  {| source := VScalar (SStr "ds"); description := None;
     output_dir := PurePath.parse "out"; subdir := VScalar (SStr "ds");
     items := items |}.

(** A downloader in normal mode: verification on, no progress bars. *)
Definition normal (items : list DownloadItem) : Downloader :=
  {| config := config_of items; max_http_workers := 8; max_drive_workers := 4;
     manifest_only := false; verify_only := false; verify_downloads := true;
     use_progress := false |}.

Definition folder (id : string) : DownloadItem :=
  {| kind := gdrive_folder; url := SNone; filename := SNone;
     folder_id := SStr id; recursive := true |}.

(** An empty disk on which every path is writable. *)
Definition empty_world : World := mkWorld (mkFS ∅ ∅) [].

Definition no_media : string → Media := λ _, mkMedia [] None.
Definition no_http : string → HttpReply :=
  λ _, HttpUnreachable (OSError "Connection refused").

(** The body [abc] arrives in two blocks. *)
Definition abc_media : string → Media :=
  λ _, mkMedia [encode_utf8 "ab"; encode_utf8 "c"] None.

(** The transfer breaks after the first block. *)
Definition broken_media : string → Media :=
  λ _, mkMedia [encode_utf8 "ab"] (Some (HttpError "503")).

Definition remote_with (listing : ListRequest → Exn + ListResponse)
    (media : string → Media) : Remote :=
  {| drive_service := inr tt; drive_list := listing; drive_media := media;
     http_get := no_http |}.

Definition no_listing : ListRequest → Exn + ListResponse :=
  λ _, inr (mkListResponse (Some []) None).

(** MD5 of [abc]. *)
Definition md5_abc : string := "900150983cd24fb0d6963f7d28e17f72".

Definition pdf (id name : string) : FileItem :=
  {| item_id := id; item_name := Some name;
     item_mimeType := Some "application/pdf";
     item_md5Checksum := Some md5_abc; item_size := Some "3" |}.

(** Folder [F] lists the same name with the same md5 twice, in one page. *)
Definition twice_listing : ListRequest → Exn + ListResponse :=
  λ req, if String.eqb (req_q req) "'F' in parents and trashed = false"
         then inr (mkListResponse (Some [pdf "ID1" "x.pdf"; pdf "ID2" "x.pdf"]) None)
         else inr (mkListResponse (Some []) None).

Definition meta_of (id name : string) : FileMeta :=
  {| meta_id := id; meta_name := name; meta_mimeType := Some "application/pdf";
     meta_md5Checksum := Some md5_abc; meta_size := Some 3 |}.

(** The same pair yielded twice. *)
Definition twice : list (FileMeta * Path) :=
  [(meta_of "ID1" "x.pdf", target_root // "x.pdf");
   (meta_of "ID2" "x.pdf", target_root // "x.pdf")].

(** A disk that already holds [out/ds/x.pdf], with other content. *)
Definition stale_world : World :=
  mkWorld (mkFS {[ target_root // "x.pdf" := encode_utf8 "old" ]} ∅) [].

(** Folder [F] holds [a.pdf], folder [G] holds [b.pdf]. *)
Definition two_listing : ListRequest → Exn + ListResponse :=
  λ req, if String.eqb (req_q req) "'F' in parents and trashed = false"
         then inr (mkListResponse (Some [pdf "ID1" "a.pdf"]) None)
         else if String.eqb (req_q req) "'G' in parents and trashed = false"
         then inr (mkListResponse (Some [pdf "ID2" "b.pdf"]) None)
         else inr (mkListResponse (Some []) None).

(** A disk that holds the manifest of an earlier run. *)
Definition old_manifest : list ManifestEntry :=
  [ mkEntry "OLD" "gone.pdf" None None ].

Definition old_manifest_world : World :=
  mkWorld (mkFS {[ target_root // MANIFEST_NAME := encode_utf8 (Json.dumps old_manifest) ]}
                ∅) [].

(** A disk on which the manifest cannot be written. *)
Definition read_only_world : World :=
  mkWorld (mkFS ∅ {[ target_root // MANIFEST_NAME ]}) [].

(** An HTTP item with no [filename]. *)
Definition http (u : string) : DownloadItem :=
  {| kind := http_file; url := SStr u; filename := SNone;
     folder_id := SNone; recursive := false |}.

(** A config whose only item is an HTTP file at the root of a host. *)
Definition root_url_document : document :=
  DMap [ ("source", VScalar (SStr "ds"));
         ("items", VSeq [ EMap [ ("kind", SStr "http_file");
                                 ("url", SStr "https://host/") ] ]) ].

(** The same downloader with [--manifest-only]. *)
Definition listing_only (items : list DownloadItem) : Downloader :=
  {| config := config_of items; max_http_workers := 8; max_drive_workers := 4;
     manifest_only := true; verify_only := false; verify_downloads := true;
     use_progress := false |}.

Definition subfolder (id name : string) : FileItem :=
  {| item_id := id; item_name := Some name; item_mimeType := Some FOLDER_MIME;
     item_md5Checksum := None; item_size := None |}.

(** Folder [R] holds [a.pdf] and the folders [A] and [B]; [A] holds
    [x.pdf]; [B] holds [y1.pdf] and [y2.pdf] on two pages. *)
Definition tree_listing : ListRequest → Exn + ListResponse :=
  λ req,
    if String.eqb (req_q req) (children_query "R") then
      inr (mkListResponse (Some [pdf "f1" "a.pdf"; subfolder "A" "A"; subfolder "B" "B"])
                          None)
    else if String.eqb (req_q req) (children_query "A") then
      inr (mkListResponse (Some [pdf "f2" "x.pdf"]) None)
    else if String.eqb (req_q req) (children_query "B") then
      match req_pageToken req with
      | None => inr (mkListResponse (Some [pdf "f3" "y1.pdf"]) (Some "t2"))
      | Some _ => inr (mkListResponse (Some [pdf "f4" "y2.pdf"]) None)
      end
    else inr (mkListResponse (Some []) None).

(** A disk that holds [out/ds/x.pdf] with content [abc]. *)
Definition abc_world : World :=
  mkWorld (mkFS {[ target_root // "x.pdf" := encode_utf8 "abc" ]} ∅) [].

Definition x_pdf : Path := target_root // "A" // "x.pdf".
Definition x_pdf_part : Path := target_root // "A" // "x.pdf.part.ID1".

End Sample.

(* ===================================================================== *)
(** * More sample data                                                   *)
(* ===================================================================== *)

Module Example.

(** A host that answers every request with the body [abc], in two blocks
    with an empty keep-alive block between them. *)
Definition abc_http : string → HttpReply :=
  λ _, HttpBody [encode_utf8 "ab"; []; encode_utf8 "c"] None.

(** A host whose connection breaks after the first block. *)
Definition broken_http : string → HttpReply :=
  λ _, HttpBody [encode_utf8 "ab"] (Some (OSError "Connection reset by peer")).

Definition http_remote (reply : string → HttpReply) : Remote :=
  {| drive_service := inr tt; drive_list := Sample.no_listing;
     drive_media := Sample.no_media; http_get := reply |}.

Definition x_pdf : Path := Sample.target_root // "x.pdf".
Definition x_pdf_part : Path := Sample.target_root // "x.pdf.part".

End Example.

(* ===================================================================== *)
(** * More vocabulary                                                    *)
(* ===================================================================== *)

(** The size that [_verify_against_manifest] passes on:
    [int(entry["size"]) if entry.get("size") else None]. *)
Definition manifest_size (entry : ManifestEntry) : option Z :=
  match entry_size entry with
  | Some z => if z =? 0 then None else Some z
  | None => None
  end.

(** Whether the file that a manifest entry names passes the verifier on
    disk [f]. *)
Definition entry_passes `{Hashlib} (self : Downloader) (target_root : Path) (f : FS)
    (entry : ManifestEntry) : bool :=
  verifier_rule (verify_downloads self) (files f !! (target_root // entry_path entry))
    (manifest_size entry) (entry_md5 entry).

(** An item that its downloader does not reject as incomplete: an HTTP
    item with a truthy [url], a Drive item with a truthy [folder_id]. *)
Definition item_complete (item : DownloadItem) : bool :=
  match kind item with
  | http_file => truthy_scalar (url item)
  | gdrive_folder => truthy_scalar (folder_id item)
  end.

Module Example2.

(** A document whose source is a number and that names no subdir. *)
Definition numeric_source_document : document :=
  DMap [ ("source", VScalar (SInt 5));
         ("items", VSeq [ EMap [ ("url", SStr "https://host/files/x.pdf") ] ]) ].

(** The items of [Sample.root_url_document], and the same document with
    an [output_dir: null] in front. *)
Definition plain_data : list (string * value) :=
  [ ("source", VScalar (SStr "ds"));
    ("items", VSeq [ EMap [ ("kind", SStr "http_file");
                            ("url", SStr "https://host/") ] ]) ].

Definition null_output_dir_data : list (string * value) :=
  ("output_dir", VScalar SNone) :: plain_data.

End Example2.

(** [p] lies lexically below [dir]: same root, and the components of
    [dir] come first. *)
Definition below (dir p : Path) : Prop :=
  PurePath.root p = PurePath.root dir
  ∧ ∃ rest, PurePath.parts p = PurePath.parts dir ++ rest.

(** No child in any listing has a name that starts with a slash. *)
Definition relative_names (env : Remote) : Prop :=
  ∀ request response,
    drive_list env request = inr response →
    Forall (λ child, PurePath.parse_root (child_name child) = "")
           (default [] (resp_files response)).

(** The counters of the listing loop agree with its lists: the queue is
    as long as [scheduled_count] says, and queued and deduplicated
    entries, with [slack] more, are at most the entries listed. *)
Definition counters_within (slack : Z) (st : LoopState) : Prop :=
  scheduled_count st = Z.of_nat (length (futures st))
  ∧ 0 ≤ skipped_duplicate_count st
  ∧ scheduled_count st + skipped_duplicate_count st + slack
    ≤ Z.of_nat (length (manifest st)).

(** Nothing queued, counted or recorded. *)
Definition nothing_scheduled (st : LoopState) : Prop :=
  futures st = [] ∧ scheduled_count st = 0 ∧ skipped_duplicate_count st = 0
  ∧ seen_md5_by_path st = ∅ ∧ conflict_md5s_by_path st = ∅.

(** Every queued download that carries an md5 is recorded under its
    relative path in [seen_md5_by_path]. *)
Definition queue_recorded (target_root : Path) (st : LoopState) : Prop :=
  ∀ task md5,
    task ∈ futures st → task_md5 task = Some md5 → md5 ≠ "" →
    ∃ rel existing,
      PurePath.relative_to (task_dest task) target_root = inr rel
      ∧ seen_md5_by_path st !! PurePath.str rel = Some existing
      ∧ md5 ∈ existing.

(** No two queued downloads share a destination and a non-empty md5. *)
Definition queued_once (st : LoopState) : Prop :=
  ∀ i j t1 t2,
    (i < j)%nat → futures st !! i = Some t1 → futures st !! j = Some t2 →
    task_dest t1 = task_dest t2 → truthy (task_md5 t1) = true →
    task_md5 t1 ≠ task_md5 t2.

Module Example3.

(** Two checksums, shortened: the listing loop only compares them. *)
Definition first_md5 : string := "0a".
Definition other_md5 : string := "0b".

Definition meta_with (id md5 : string) : FileMeta :=
  {| meta_id := id; meta_name := "x.pdf"; meta_mimeType := Some "application/pdf";
     meta_md5Checksum := Some md5; meta_size := None |}.

(** One name listed three times: two contents, the first one twice. *)
Definition conflicting : list (FileMeta * Path) :=
  [ (meta_with "ID1" first_md5, Example.x_pdf);
    (meta_with "ID2" other_md5, Example.x_pdf);
    (meta_with "ID3" first_md5, Example.x_pdf) ].

End Example3.

(** [seen_md5_by_path] holds, for each path, exactly the non-empty md5s
    that the manifest lists for it. *)
Definition seen_exact (st : LoopState) : Prop :=
  ∀ p m,
    (∃ existing, seen_md5_by_path st !! p = Some existing ∧ m ∈ existing)
    ↔ (m ≠ "" ∧ ∃ entry, entry ∈ manifest st ∧ entry_path entry = p
                         ∧ entry_md5 entry = Some m).

(** No recorded set is empty, and [conflict_md5s_by_path] holds exactly
    the recorded sets of two md5s or more. *)
Definition conflicts_exact (st : LoopState) : Prop :=
  (∀ p existing, seen_md5_by_path st !! p = Some existing → existing ≠ ∅)
  ∧ ∀ p s, conflict_md5s_by_path st !! p = Some s
           ↔ (seen_md5_by_path st !! p = Some s ∧ (2 ≤ size s)%nat).

(** Every yielded file is on disk and is skipped by the local check. *)
Definition all_pass_local_skip `{Hashlib} (self : Downloader) (overwrite : bool)
    (f : FS) (ys : list (FileMeta * Path)) : Prop :=
  Forall (λ y, local_skip_rule (verify_downloads self) overwrite (files f !! y.2)
                 (meta_size y.1) (meta_md5Checksum y.1) = true) ys.

Module Example4.

(** Folder [R] lists a file and the folder [A]; listing [A] fails. *)
Definition failing_listing : ListRequest → Exn + ListResponse :=
  λ req, if String.eqb (req_q req) (children_query "R")
         then inr (mkListResponse (Some [Sample.pdf "f1" "a.pdf"; Sample.subfolder "A" "A"])
                                  None)
         else inl (HttpError "500").

End Example4.

(** Whether [entry] repeats one of the entries [earlier]: the same path
    and the same md5, which is not empty. *)
Definition repeats (earlier : list ManifestEntry) (entry : ManifestEntry) : bool :=
  truthy (entry_md5 entry)
  && existsb (λ e, bool_decide (entry_path e = entry_path entry
                                ∧ entry_md5 e = entry_md5 entry)) earlier.

(** The number of entries of [rest] that repeat an entry before them,
    [earlier] being what comes before [rest]. *)
Fixpoint repeated_from (earlier rest : list ManifestEntry) : Z :=
  match rest with
  | [] => 0
  | entry :: rest' =>
      (if repeats earlier entry then 1 else 0) + repeated_from (earlier ++ [entry]) rest'
  end.

Definition repeated_entries (manifest : list ManifestEntry) : Z :=
  repeated_from [] manifest.

(** A path component as [PurePosixPath] produces them: not empty, not a
    single dot, without a slash. *)
Definition plain_part (x : string) : bool :=
  PurePath.keep_part x && negb (PurePath.has_sep x).

(** [p] lies below [dir] by plain components. *)
Definition plainly_below (dir p : Path) : Prop :=
  PurePath.root p = PurePath.root dir
  ∧ ∃ rest, PurePath.parts p = PurePath.parts dir ++ rest
            ∧ Forall (λ x, plain_part x = true) rest.

(* ===================================================================== *)
(** * [Downloader.__init__] and the loop of [downloads/cli.py]           *)
(* ===================================================================== *)

(** What reading a config file gives: an exception of the YAML parser,
    no file, or the document. *)
Abbreviation ConfigContent := (Exn + option document)%type.

(** [Downloader(config_path, base_output_dir, api_key, ...)].  [api_key]
    is the argument or, failing that, the environment's [GOOGLE_API_KEY];
    the credential and token paths, the sessions and the console are not
    modelled (the outcome of building the Drive client is a field of
    [Remote]). *)
Definition Downloader_init (content : ConfigContent) (base_output_dir : option Path)
    (api_key : option string) (max_http_workers max_drive_workers : Z)
    (manifest_only verify_only verify_downloads use_progress : bool) : M Downloader :=
  config ← lift (match content with
                 | inl e => inl e
                 | inr config_file => _load_config config_file base_output_dir
                 end);
  (if truthy api_key
   then logger WARNING "API key authentication is not supported by the Google Drive API client. Provide OAuth2 credentials or a service account instead."
   else mret tt);;
  mret {| config := config;
          max_http_workers := Z.max 1 max_http_workers;
          max_drive_workers := Z.max 1 max_drive_workers;
          manifest_only := manifest_only;
          verify_only := verify_only;
          verify_downloads := verify_downloads;
          use_progress := use_progress |}.

(** The options that [main] passes on. *)
Record Args : Type := mkArgs {
  arg_output_dir : Path;
  arg_overwrite : bool;
  arg_api_key : option string;
  arg_max_http_workers : Z;
  arg_max_drive_workers : Z;
  arg_manifest_only : bool;
  arg_verify_only : bool;
  arg_skip_verify : bool;
  arg_progress : bool
}.

(** A config path: its stem and what is behind it. *)
Record ConfigPath : Type := mkConfigPath {
  stem : string;
  content : ConfigContent
}.

Section Cli.
Context `{Hashlib} `{Urllib}.
Variable args : Args.
Variable env : Remote.

(** The body of [for config_path in config_paths:] in [main]; [failed]
    is the list it appends to. *)
Definition process_config (fuel : nat) (failed : list string) (config_path : ConfigPath)
  : M (list string) :=
  logger INFO "Processing config: %s";;
  try_except
    (downloader ← Downloader_init (content config_path) (Some (arg_output_dir args))
                    (arg_api_key args) (arg_max_http_workers args)
                    (arg_max_drive_workers args) (arg_manifest_only args)
                    (arg_verify_only args) (negb (arg_skip_verify args))
                    (arg_progress args);
     download_all downloader env fuel (arg_overwrite args);;
     mret failed)
    (λ e, logger ERROR "Failed to process config %s: %s";;
          mret (failed ++ [stem config_path])).

(** The part of [main] after the configs are chosen.  The value is the
    exit status: 1 stands for [sys.exit(1)], 0 for returning. *)
Definition main_loop (fuel : nat) (config_paths : list ConfigPath) : M Z :=
  failed ← for_each (process_config fuel) config_paths [];
  match failed with
  | [] => mret 0
  | _ => logger ERROR "Failed to download %d config(s): %s";; mret 1
  end.

End Cli.

(* ===================================================================== *)
(** * The loop of [dedupe_manifest] in [downloads/dedupe.py]             *)
(* ===================================================================== *)

(** The local variables of the loop.  The entries are those of a
    manifest that the downloader wrote: [path] is a string, [md5] a
    string or [null]. *)
Record DedupeState : Type := mkDedupe {
  seen_keys : gset (string * string);
  md5s_by_path : gmap string (gset string);
  deduped : list ManifestEntry;
  duplicates_removed : Z;
  md5_missing : Z
}.

Definition dedupe_start : DedupeState :=
  {| seen_keys := ∅; md5s_by_path := ∅; deduped := [];
     duplicates_removed := 0; md5_missing := 0 |}.

(** The body of [for entry in entries:]. *)
Definition dedupe_entry (st : DedupeState) (entry : ManifestEntry) : DedupeState :=
  let rel_path := entry_path entry in
  match entry_md5 entry with
  | None =>
      {| seen_keys := seen_keys st; md5s_by_path := md5s_by_path st;
         deduped := deduped st ++ [entry];
         duplicates_removed := duplicates_removed st;
         md5_missing := md5_missing st + 1 |}
  | Some md5 =>
      let key := (rel_path, md5) in
      if bool_decide (key ∈ seen_keys st) then
        {| seen_keys := seen_keys st; md5s_by_path := md5s_by_path st;
           deduped := deduped st;
           duplicates_removed := duplicates_removed st + 1;
           md5_missing := md5_missing st |}
      else
        {| seen_keys := seen_keys st ∪ {[key]};
           md5s_by_path :=
             <[rel_path := default ∅ (md5s_by_path st !! rel_path) ∪ {[md5]}]>
               (md5s_by_path st);
           deduped := deduped st ++ [entry];
           duplicates_removed := duplicates_removed st;
           md5_missing := md5_missing st |}
  end.

(** The loop over the entries of the manifest. *)
Definition dedupe_loop (entries : list ManifestEntry) : DedupeState :=
  foldl dedupe_entry dedupe_start entries.

(** No two entries share a path and an md5. *)
Definition distinct_keys (entries : list ManifestEntry) : Prop :=
  ∀ i j e1 e2,
    (i < j)%nat → entries !! i = Some e1 → entries !! j = Some e2 →
    entry_path e1 = entry_path e2 → entry_md5 e1 = entry_md5 e2 →
    entry_md5 e1 = None.

(* ===================================================================== *)
(** * Theorems                                                           *)
(* ===================================================================== *)

(** ** Stepping through monadic code *)

(** The calls of the model are stepped by their equations, not unfolded. *)
#[global] Arguments logger : simpl never.
#[global] Arguments raise : simpl never.
#[global] Arguments out_of_fuel : simpl never.
#[global] Arguments try_except : simpl never.
#[global] Arguments path_exists : simpl never.
#[global] Arguments read_bytes : simpl never.
#[global] Arguments stat_size : simpl never.
#[global] Arguments open_wb : simpl never.
#[global] Arguments fh_write : simpl never.
#[global] Arguments write_text : simpl never.
#[global] Arguments replace : simpl never.
#[global] Arguments unlink : simpl never.
#[global] Arguments M_bind : simpl never.
#[global] Arguments M_ret : simpl never.
#[global] Arguments mbind : simpl never.
#[global] Arguments mret : simpl never.

Lemma run_bind {A B} (m : M A) (f : A → M B) w :
  run (m ≫= f) w =
  match run m w with
  | (Return a, w') => run (f a) w'
  | (Raise e, w') => (Raise e, w')
  | (OutOfFuel, w') => (OutOfFuel, w')
  end.
Proof. reflexivity. Qed.

Lemma run_ret {A} (a : A) w : run (mret a) w = (Return a, w).
Proof. reflexivity. Qed.

Lemma run_raise {A} e w : run (raise e : M A) w = (Raise e, w).
Proof. reflexivity. Qed.

Lemma run_bind_return {A B} (m : M A) (f : A → M B) w a w' :
  run m w = (Return a, w') → run (m ≫= f) w = run (f a) w'.
Proof. intros E. by rewrite run_bind, E. Qed.

Lemma run_bind_raise {A B} (m : M A) (f : A → M B) w e w' :
  run m w = (Raise e, w') → run (m ≫= f) w = (Raise e, w').
Proof. intros E. by rewrite run_bind, E. Qed.

Lemma run_try_raise {A} (m : M A) h w e w' :
  run m w = (Raise e, w') → run (try_except m h) w = run (h e) w'.
Proof. intros E. unfold try_except. simpl. by rewrite E. Qed.

Lemma run_try_return {A} (m : M A) h w a w' :
  run m w = (Return a, w') → run (try_except m h) w = (Return a, w').
Proof. intros E. unfold try_except. simpl. by rewrite E. Qed.

Lemma surjective_pairing_return {A} (r : Outcome A * World) a :
  r.1 = Return a → r = (Return a, r.2).
Proof. destruct r as [o w]. simpl. by intros ->. Qed.

Lemma world_eta w : mkWorld (fs w) (log w) = w.
Proof. by destruct w. Qed.

Lemma fs_eta f : mkFS (files f) (denied f) = f.
Proof. by destruct f. Qed.

Lemma run_logger l tpl w : run (logger l tpl) w = (Return tt, logged w l tpl).
Proof. reflexivity. Qed.

Lemma run_path_exists p w :
  run (path_exists p) w = (Return (bool_decide (is_Some (files (fs w) !! p))), w).
Proof. reflexivity. Qed.

Lemma run_read_bytes_Some p w data :
  files (fs w) !! p = Some data → run (read_bytes p) w = (Return data, w).
Proof. intros E. unfold read_bytes. rewrite run_bind. simpl. by rewrite E. Qed.

Lemma run_stat_size p w data :
  files (fs w) !! p = Some data →
  run (stat_size p) w = (Return (Z.of_nat (length data)), w).
Proof.
  intros E. unfold stat_size.
  by rewrite (run_bind_return _ _ _ _ _ (run_read_bytes_Some _ _ _ E)).
Qed.

(** ** Verifier *)

Section VerifierFacts.
Context `{Hashlib}.

Lemma digest_blocks_all (fuel chunk_size : nat) (rest : bytes) (d : md5_state) :
  (0 < chunk_size)%nat → (length rest < fuel)%nat →
  digest_blocks fuel chunk_size rest d = md5_update d rest.
Proof.
  intros Hpos. revert rest d.
  induction fuel as [|fuel IH]; intros rest d Hlen; [lia|].
  simpl. destruct (take chunk_size rest) as [|b chunk] eqn:Htake.
  - destruct rest as [|b rest]; [by rewrite md5_update_nil|].
    destruct chunk_size; [lia|discriminate].
  - rewrite IH.
    + rewrite md5_update_app, <- Htake. by rewrite take_drop.
    + rewrite length_drop. destruct rest; [by rewrite take_nil in Htake|simpl in *; lia].
Qed.

Lemma default_chunk_size_pos : (0 < default_chunk_size)%nat.
Proof. unfold default_chunk_size. lia. Qed.

(** Reading in blocks of 1 MiB digests the whole file. *)
Lemma run_calculate_md5 p w data :
  files (fs w) !! p = Some data →
  run (_calculate_md5 p default_chunk_size) w = (Return (md5_hex data), w).
Proof.
  intros E. unfold _calculate_md5.
  rewrite (run_bind_return _ _ _ _ _ (run_read_bytes_Some _ _ _ E)).
  rewrite run_ret. unfold md5_hex.
  rewrite digest_blocks_all; [done|apply default_chunk_size_pos|lia].
Qed.

(** The verifier returns what the rule says and leaves the files alone;
    the only trace is the warning of a size mismatch. *)
Lemma run_verify_local_file self path expected_size expected_md5 w :
  ∃ w', run (_verify_local_file self path expected_size expected_md5) w
        = (Return (verifier_rule (verify_downloads self) (files (fs w) !! path)
                     expected_size expected_md5), w')
        ∧ fs w' = fs w.
Proof.
  unfold _verify_local_file, verifier_rule.
  rewrite run_bind, run_path_exists.
  destruct (files (fs w) !! path) as [data|] eqn:E.
  2:{ exists w. by rewrite bool_decide_eq_false_2 by (intros [? ?]; discriminate). }
  rewrite bool_decide_eq_true_2 by eauto. simpl negb. cbv iota.
  assert (Hmd5 : ∀ w0, fs w0 = fs w →
     ∃ w', run (if verify_downloads self && truthy expected_md5
                then d ← _calculate_md5 path default_chunk_size;
                     mret (bool_decide (Some d = expected_md5))
                else mret true) w0
           = (Return (if verify_downloads self && truthy expected_md5
                      then bool_decide (Some (md5_hex data) = expected_md5)
                      else true), w') ∧ fs w' = fs w).
  { intros w0 Hw0. exists w0. split; [|done].
    destruct (verify_downloads self && truthy expected_md5); [|done].
    rewrite (run_bind_return _ _ _ (md5_hex data) w0); [done|].
    apply run_calculate_md5. by rewrite Hw0. }
  destruct expected_size as [n|].
  - rewrite run_bind, (run_bind_return _ _ _ _ _ (run_stat_size _ _ _ E)), run_ret.
    destruct (Z.of_nat (length data) =? n) eqn:Hsz; simpl negb; cbv iota.
    + destruct (Hmd5 w eq_refl) as (w' & -> & ?). by exists w'.
    + rewrite run_bind, run_logger, run_ret. by eexists.
  - rewrite run_bind, run_ret. cbv iota.
    destruct (Hmd5 w eq_refl) as (w' & -> & ?). by exists w'.
Qed.

End VerifierFacts.

(** C4.  The verifier, whatever the file system holds: it returns (it
    never raises), what it returns is the rule of section 4.3 applied to
    the content found at [path] -- false for a missing file, false for a
    given size that differs, the comparison of the MD5 of the whole file
    when verification is enabled and an md5 is given, true otherwise --
    and the file system is left as it was.  In particular an existing
    file with no expectations is accepted. *)
Theorem verify_local_file_follows_rule `{Hashlib} :
  (∀ self path expected_size expected_md5 w,
     ∃ w', run (_verify_local_file self path expected_size expected_md5) w
           = (Return (verifier_rule (verify_downloads self) (files (fs w) !! path)
                        expected_size expected_md5), w')
           ∧ fs w' = fs w)
  ∧ (∀ enabled expected_size expected_md5,
       verifier_rule enabled None expected_size expected_md5 = false)
  ∧ (∀ enabled data n expected_md5,
       Z.of_nat (length data) ≠ n →
       verifier_rule enabled (Some data) (Some n) expected_md5 = false)
  ∧ (∀ data md5,
       md5 ≠ "" →
       verifier_rule true (Some data) None (Some md5)
       = bool_decide (md5_hex data = md5))
  ∧ (∀ enabled data, verifier_rule enabled (Some data) None None = true).
Proof.
  split; [apply run_verify_local_file|].
  split; [done|]. split; [|split].
  - intros enabled data n md5 Hne. unfold verifier_rule.
    by rewrite (proj2 (Z.eqb_neq _ _) Hne).
  - intros data md5 Hne. unfold verifier_rule. simpl.
    destruct md5 as [|c md5]; [done|]. simpl.
    apply bool_decide_ext. split; [by intros [= ->]|by intros ->].
  - by intros [] data.
Qed.

(** A file holding [abc] passes against its size and its MD5. *)
Lemma verify_local_file_follows_rule_witness :
  ∃ w', run (_verify_local_file (Sample.normal []) (Sample.target_root // "x.pdf")
               (Some 3) (Some Sample.md5_abc)) Sample.abc_world
        = (Return true, w')
        ∧ fs w' = fs Sample.abc_world.
Proof.
  exact (proj1 (@verify_local_file_follows_rule md5_hashlib) (Sample.normal [])
           (Sample.target_root // "x.pdf") (Some 3) (Some Sample.md5_abc)
           Sample.abc_world).
Defined.

(** ** Filesystem calls *)

Lemma run_unlink_if_there p missing_ok w :
  run (there ← path_exists p;
       if (there : bool) then unlink p missing_ok else mret tt) w
  = (Return tt, with_files w (delete p (files (fs w)))).
Proof.
  rewrite run_bind, run_path_exists. unfold unlink, with_files.
  destruct (files (fs w) !! p) as [data|] eqn:E.
  - rewrite bool_decide_eq_true_2 by eauto. rewrite run_bind. simpl. by rewrite E.
  - rewrite bool_decide_eq_false_2 by (intros [? ?]; discriminate).
    rewrite run_ret, delete_id by done. by rewrite fs_eta, world_eta.
Qed.

Lemma run_bind_assoc {A B C} (m : M A) (f : A → M B) (g : B → M C) w :
  run (m ≫= λ a, f a ≫= g) w = run ((m ≫= f) ≫= g) w.
Proof. rewrite !run_bind. by destruct (run m w) as [[a|e|] w']. Qed.

Lemma run_unlink_if_there_then {A} p missing_ok (k : M A) w :
  run (there ← path_exists p;
       (if (there : bool) then unlink p missing_ok else mret tt);; k) w
  = run k (with_files w (delete p (files (fs w)))).
Proof.
  rewrite (run_bind_assoc (path_exists p)
             (λ there : bool, if there then unlink p missing_ok else mret tt)
             (λ _, k)).
  by rewrite run_bind, run_unlink_if_there.
Qed.

Lemma run_write_text p s w :
  run (write_text p s) w =
  if bool_decide (p ∈ denied (fs w)) then (Raise (OSError "Permission denied"), w)
  else (Return tt, with_files w (<[p := encode_utf8 s]> (files (fs w)))).
Proof.
  unfold write_text, open_wb, fh_write, with_files.
  rewrite !run_bind. simpl. destruct (bool_decide (p ∈ denied (fs w))); simpl; [done|].
  by rewrite lookup_insert_eq, insert_insert_eq.
Qed.

(** ** Termination: which calls never run out of fuel *)

Lemma total_ret {A} (a : A) : total (mret a).
Proof. by intros w. Qed.

Lemma total_raise {A} e : total (raise e : M A).
Proof. by intros w. Qed.

Lemma total_bind {A B} (m : M A) (f : A → M B) :
  total m → (∀ a, total (f a)) → total (m ≫= f).
Proof.
  intros Hm Hf w. rewrite run_bind. specialize (Hm w).
  destruct (run m w) as [[a|e|] w']; [apply Hf|done|done].
Qed.

Lemma total_try {A} (m : M A) h :
  total m → (∀ e, total (h e)) → total (try_except m h).
Proof.
  intros Hm Hh w. unfold try_except. simpl. specialize (Hm w).
  destruct (run m w) as [[a|e|] w']; [done|apply Hh|done].
Qed.

Lemma total_lift {A} (r : Exn + A) : total (lift r).
Proof. by destruct r. Qed.

Lemma total_logger l tpl : total (logger l tpl).
Proof. by intros w. Qed.

Lemma total_path_exists p : total (path_exists p).
Proof. by intros w. Qed.

Lemma total_read_bytes p : total (read_bytes p).
Proof. intros w. unfold read_bytes. rewrite run_bind. simpl. by destruct (_ !! _). Qed.

Lemma total_open_wb p : total (open_wb p).
Proof. intros w. unfold open_wb. rewrite run_bind. simpl. by destruct (bool_decide _). Qed.

Lemma total_fh_write p data : total (fh_write p data).
Proof. by intros w. Qed.

Lemma total_replace src dst : total (replace src dst).
Proof.
  intros w. unfold replace. rewrite run_bind. simpl.
  destruct (_ !! _); [|done]. by destruct (bool_decide _).
Qed.

Lemma total_unlink p b : total (unlink p b).
Proof.
  intros w. unfold unlink. rewrite run_bind. simpl.
  destruct (_ !! _); [done|]. by destruct b.
Qed.

Create HintDb total discriminated.
#[export] Hint Resolve total_ret total_raise total_lift total_logger total_path_exists
  total_read_bytes total_open_wb total_fh_write total_replace total_unlink : total.

Ltac total_step :=
  first [ assumption
        | solve [auto with total]
        | match goal with
          | |- total (mbind _ _) => apply total_bind; [|intros ?]
          | |- total (try_except _ _) => apply total_try; [|intros ?]
          end
        | match goal with |- total (if ?b then _ else _) => destruct b end
        | match goal with |- total (match ?x with _ => _ end) => destruct x end ].

Ltac solve_total := repeat total_step.

Section FetcherFacts.
Context `{Hashlib}.

Lemma total_verify_local_file self path expected_size expected_md5 :
  total (_verify_local_file self path expected_size expected_md5).
Proof.
  intros w. destruct (run_verify_local_file self path expected_size expected_md5 w)
    as (w' & -> & _). done.
Qed.

Lemma total_next_chunks tmp chunks failure : total (next_chunks tmp chunks failure).
Proof.
  induction chunks as [|c chunks IH]; simpl.
  - destruct failure as [[]|]; solve_total.
  - solve_total.
Qed.

#[local] Hint Resolve total_verify_local_file total_next_chunks : total.

Lemma total_transfer env file_id tmp dest : total (transfer env file_id tmp dest).
Proof. unfold transfer, _get_drive_service. solve_total. Qed.

Lemma total_verify_after self dest expected_size expected_md5 :
  total (verify_after self dest expected_size expected_md5).
Proof. unfold verify_after. solve_total. Qed.

Lemma total_cleanup tmp dest e : total (cleanup tmp dest e).
Proof. unfold cleanup. solve_total. Qed.

#[local] Hint Resolve total_transfer total_verify_after total_cleanup : total.

Lemma total_download_gdrive_file self env file_id name dest md5 size :
  total (_download_gdrive_file self env file_id name dest md5 size).
Proof. unfold _download_gdrive_file, mkdir_parents. solve_total. Qed.

(** The handler removes both files, logs, and re-raises. *)
Lemma run_cleanup tmp dest e w :
  run (cleanup tmp dest e) w
  = (Raise e,
     with_files (logged w ERROR "Failed to download %s: %s")
       (delete dest (delete tmp (files (fs w))))).
Proof.
  unfold cleanup. rewrite run_bind, run_logger.
  rewrite run_unlink_if_there_then, run_unlink_if_there_then.
  reflexivity.
Qed.

(** The call is its guarded part, with the handler's effect on failure. *)
Lemma run_download_gdrive_file self env file_id name dest md5 size tmp w :
  part_path dest file_id = inr tmp →
  run (_download_gdrive_file self env file_id name dest md5 size) w
  = match run (transfer env file_id tmp dest;; verify_after self dest size md5)
              (logged w INFO "Downloading Drive file %s (%s) -> %s") with
    | (Raise e, w1) =>
        (Raise e, with_files (logged w1 ERROR "Failed to download %s: %s")
                    (delete dest (delete tmp (files (fs w1)))))
    | r => r
    end.
Proof.
  intros Htmp. unfold _download_gdrive_file, mkdir_parents.
  rewrite run_bind, run_logger, run_bind, run_ret, Htmp, run_bind.
  simpl lift. rewrite run_ret. unfold try_except at 1. cbn [run].
  destruct (run _ _) as [[[]|e|] w1]; [done| |done].
  apply run_cleanup.
Qed.

End FetcherFacts.

(** ** Drive fetcher *)

(** C3.  A Drive file download that fails leaves nothing behind.  With
    [tmp] the temporary name of the download: (1) when the transfer went
    through and the verification that follows says no, the call raises
    and the destination is gone (and so is the temporary file); (2) when
    the guarded part raises any exception, the call raises the same
    exception, the temporary file and the destination are gone and no
    other file is touched by the handler; (3) so after any failure of the
    call neither the temporary path nor the destination holds a file; and
    (4) the call always ends. *)
Theorem gdrive_file_failure_removes_files `{Hashlib}
    self env file_id name dest md5 size tmp w :
  part_path dest file_id = inr tmp →
  let call := _download_gdrive_file self env file_id name dest md5 size in
  let w0 := logged w INFO "Downloading Drive file %s (%s) -> %s" in
  (∀ w1 w2,
     verify_downloads self = true →
     run (transfer env file_id tmp dest) w0 = (Return tt, w1) →
     run (_verify_local_file self dest size md5) w1 = (Return false, w2) →
     ∃ w', run call w = (Raise (RuntimeError "Verification failed for"), w')
           ∧ files (fs w') !! dest = None ∧ files (fs w') !! tmp = None)
  ∧ (∀ e w1,
       run (transfer env file_id tmp dest;; verify_after self dest size md5) w0
       = (Raise e, w1) →
       ∃ w', run call w = (Raise e, w')
             ∧ files (fs w') !! tmp = None ∧ files (fs w') !! dest = None
             ∧ ∀ q, q ≠ tmp → q ≠ dest → files (fs w') !! q = files (fs w1) !! q)
  ∧ (∀ e w', run call w = (Raise e, w') →
       files (fs w') !! tmp = None ∧ files (fs w') !! dest = None)
  ∧ (run call w).1 ≠ OutOfFuel.
Proof.
  intros Htmp call w0.
  assert (Hgone : ∀ w1 : World,
    let w' := with_files (logged w1 ERROR "Failed to download %s: %s")
                (delete dest (delete tmp (files (fs w1)))) in
    files (fs w') !! tmp = None ∧ files (fs w') !! dest = None
    ∧ ∀ q, q ≠ tmp → q ≠ dest → files (fs w') !! q = files (fs w1) !! q).
  { intros w1. simpl. split; [|split].
    - destruct (decide (dest = tmp)) as [->|Hne].
      + apply lookup_delete_eq.
      + rewrite lookup_delete_ne by done. apply lookup_delete_eq.
    - apply lookup_delete_eq.
    - intros q Hq1 Hq2. by rewrite !lookup_delete_ne. }
  assert (Hraise : ∀ e w1,
    run (transfer env file_id tmp dest;; verify_after self dest size md5) w0
    = (Raise e, w1) →
    ∃ w', run call w = (Raise e, w')
          ∧ files (fs w') !! tmp = None ∧ files (fs w') !! dest = None
          ∧ ∀ q, q ≠ tmp → q ≠ dest → files (fs w') !! q = files (fs w1) !! q).
  { intros e w1 Hbody. eexists. split; [|apply Hgone].
    unfold call. rewrite (run_download_gdrive_file _ _ _ _ _ _ _ _ _ Htmp).
    fold w0. by rewrite Hbody. }
  split; [|split; [exact Hraise|split]].
  - intros w1 w2 Hon Htransfer Hverify.
    destruct (Hraise (RuntimeError "Verification failed for") w2) as (w' & ? & ? & ? & _).
    + rewrite (run_bind_return _ _ _ _ _ Htransfer). unfold verify_after.
      rewrite run_bind, Hon, (run_bind_return _ _ _ _ _ Hverify), run_ret.
      reflexivity.
    + by exists w'.
  - intros e w' Hcall. unfold call in Hcall.
    rewrite (run_download_gdrive_file _ _ _ _ _ _ _ _ _ Htmp) in Hcall. fold w0 in Hcall.
    destruct (run _ w0) as [[[]|e1|] w1] eqn:Hbody; [done| |done].
    injection Hcall as <- <-. destruct (Hgone w1) as (? & ? & _). done.
  - apply total_download_gdrive_file.
Qed.

(** A download whose content does not match the expected md5: the call
    raises and neither file is left. *)
Lemma gdrive_file_failure_removes_files_witness :
  ∃ w', run (_download_gdrive_file (Sample.normal [])
               (Sample.remote_with Sample.no_listing Sample.abc_media)
               "ID1" "x.pdf" Sample.x_pdf (Some "0000") None) Sample.empty_world
        = (Raise (RuntimeError "Verification failed for"), w')
        ∧ files (fs w') !! Sample.x_pdf = None
        ∧ files (fs w') !! Sample.x_pdf_part = None.
Proof.
  destruct (gdrive_file_failure_removes_files (Sample.normal [])
              (Sample.remote_with Sample.no_listing Sample.abc_media)
              "ID1" "x.pdf" Sample.x_pdf (Some "0000") None Sample.x_pdf_part
              Sample.empty_world eq_refl) as (Hverify & _).
  eapply Hverify.
  - reflexivity.
  - vm_compute. reflexivity.
  - vm_compute. reflexivity.
Defined.

(** A transfer that breaks after its first block: at that moment the
    temporary file holds the block; when the call has raised it is gone. *)
Lemma partial_download_removed :
  let self := Sample.normal [] in
  let env := Sample.remote_with Sample.no_listing Sample.broken_media in
  let broken := run (transfer env "ID1" Sample.x_pdf_part Sample.x_pdf)
                    Sample.empty_world in
  let r := run (_download_gdrive_file self env "ID1" "x.pdf" Sample.x_pdf
                  (Some Sample.md5_abc) (Some 3)) Sample.empty_world in
  part_path Sample.x_pdf "ID1" = inr Sample.x_pdf_part
  ∧ broken.1 = Raise (HttpError "503")
  ∧ files (fs broken.2) !! Sample.x_pdf_part = Some (encode_utf8 "ab")
  ∧ r.1 = Raise (HttpError "503")
  ∧ files (fs r.2) !! Sample.x_pdf_part = None
  ∧ files (fs r.2) !! Sample.x_pdf = None.
Proof. vm_compute. repeat split; reflexivity. Qed.

(** ** Manifest writer *)

Lemma run_write_manifest target_root manifest w :
  run (_write_manifest target_root manifest) w
  = match manifest with
    | [] => (Return tt, w)
    | _ =>
        if bool_decide (target_root // MANIFEST_NAME ∈ denied (fs w)) then
          (Return tt, logged w WARNING "Failed to write manifest %s: %s")
        else
          (Return tt,
           logged (with_files w (<[target_root // MANIFEST_NAME :=
                                     encode_utf8 (Json.dumps manifest)]> (files (fs w))))
                  INFO "Wrote manifest with %d entries to %s")
    end.
Proof.
  destruct manifest as [|entry rest]; [done|].
  unfold _write_manifest.
  destruct (bool_decide (target_root // MANIFEST_NAME ∈ denied (fs w))) eqn:Hd.
  - erewrite run_try_raise; [apply run_logger|].
    by rewrite run_bind, run_write_text, Hd.
  - erewrite run_try_return; [done|].
    by rewrite run_bind, run_write_text, Hd, run_logger.
Qed.

Lemma total_write_manifest target_root manifest :
  total (_write_manifest target_root manifest).
Proof.
  intros w. rewrite run_write_manifest.
  destruct manifest; [done|]. by destruct (bool_decide _).
Qed.

Lemma persisted_write_manifest target_root manifest w :
  manifest ≠ [] → target_root // MANIFEST_NAME ∉ denied (fs w) →
  persisted target_root (run (_write_manifest target_root manifest) w).2
  = Some (encode_utf8 (Json.dumps manifest)).
Proof.
  intros Hne Hok. rewrite run_write_manifest.
  destruct manifest; [done|]. rewrite bool_decide_eq_false_2 by done.
  unfold persisted. simpl. apply lookup_insert_eq.
Qed.

(** ** The listing loop *)

Section LoopFacts.
Context `{Hashlib}.
Variable self : Downloader.

Lemma run_local_skip overwrite dest expected_size expected_md5 w :
  ∃ w', run (local_skip self overwrite dest expected_size expected_md5) w
        = (Return (local_skip_rule (verify_downloads self) overwrite
                     (files (fs w) !! dest) expected_size expected_md5), w')
        ∧ fs w' = fs w.
Proof.
  unfold local_skip, local_skip_rule. rewrite run_bind, run_path_exists.
  destruct (files (fs w) !! dest) as [data|] eqn:E.
  - rewrite bool_decide_eq_true_2 by eauto.
    destruct overwrite; simpl; [by exists w|].
    destruct (verify_downloads self) eqn:Hon; [|by exists w].
    destruct (run_verify_local_file self dest expected_size expected_md5 w)
      as (w' & Hrun & Hfs).
    exists w'. by rewrite Hrun, Hon, E.
  - rewrite bool_decide_eq_false_2 by (intros [? ?]; discriminate). by exists w.
Qed.

Lemma run_process_entry overwrite target_root st yielded rel w :
  PurePath.relative_to yielded.2 target_root = inr rel →
  ∃ w', run (process_entry self overwrite target_root st yielded) w
        = (Return (after_entry self overwrite st yielded rel (files (fs w) !! yielded.2)), w')
        ∧ fs w' = fs w.
Proof.
  intros Hrel. unfold process_entry, after_entry.
  rewrite run_bind, Hrel. simpl lift. rewrite run_ret.
  destruct (manifest_only self || verify_only self); [by exists w|].
  destruct (dedupe _ _ _) as [st2 dup]; simpl.
  destruct dup; [by exists w|].
  destruct (run_local_skip overwrite yielded.2 (meta_size yielded.1)
              (meta_md5Checksum yielded.1) w) as (w' & Hrun & Hfs).
  exists w'. rewrite (run_bind_return _ _ _ _ _ Hrun).
  by destruct (local_skip_rule _ _ _ _ _).
Qed.

Lemma run_process_entry_raise overwrite target_root st yielded e w :
  PurePath.relative_to yielded.2 target_root = inl e →
  run (process_entry self overwrite target_root st yielded) w = (Raise e, w).
Proof. intros Hrel. unfold process_entry. by rewrite run_bind, Hrel. Qed.

Lemma total_process_entry overwrite target_root st yielded :
  total (process_entry self overwrite target_root st yielded).
Proof.
  intros w. destruct (PurePath.relative_to yielded.2 target_root) as [e|rel] eqn:Hrel.
  - by rewrite (run_process_entry_raise _ _ _ _ _ _ Hrel).
  - destruct (run_process_entry overwrite target_root st yielded rel w Hrel)
      as (w' & -> & _). done.
Qed.

Lemma total_for_each {S A} (body : S → A → M S) xs st :
  (∀ st x, total (body st x)) → total (for_each body xs st).
Proof.
  intros Hbody. revert st. induction xs as [|x xs IH]; intros st; simpl.
  - apply total_ret.
  - apply total_bind; [apply Hbody|apply IH].
Qed.

(** Fields of the states the gate and the scheduler produce. *)
Lemma manifest_dedupe st p md5 : manifest (dedupe st p md5).1 = manifest st.
Proof.
  unfold dedupe. destruct md5 as [m|]; [|done].
  destruct (truthy_str m); [|done].
  destruct (seen_md5_by_path st !! p); [|done]. by destruct (bool_decide _).
Qed.

Lemma futures_dedupe st p md5 : futures (dedupe st p md5).1 = futures st.
Proof.
  unfold dedupe. destruct md5 as [m|]; [|done].
  destruct (truthy_str m); [|done].
  destruct (seen_md5_by_path st !! p); [|done]. by destruct (bool_decide _).
Qed.

Lemma manifest_after_entry overwrite st yielded rel content :
  manifest (after_entry self overwrite st yielded rel content)
  = manifest st ++ [manifest_entry yielded.1 rel].
Proof.
  unfold after_entry. destruct (_ || _); [done|].
  destruct (dedupe _ _ _).2 eqn:Hdup; [by rewrite manifest_dedupe|].
  destruct (local_skip_rule _ _ _ _ _); [by rewrite manifest_dedupe|].
  simpl. by rewrite manifest_dedupe.
Qed.

(** The futures after one entry: the old ones, and at most the task of
    this entry. *)
Lemma futures_after_entry overwrite st yielded rel content :
  futures (after_entry self overwrite st yielded rel content) = futures st
  ∨ futures (after_entry self overwrite st yielded rel content)
    = futures st ++ [download_task yielded.1 yielded.2].
Proof.
  unfold after_entry. destruct (_ || _); [by left|].
  destruct (dedupe _ _ _).2 eqn:Hdup; [left; by rewrite futures_dedupe|].
  destruct (local_skip_rule _ _ _ _ _); [left; by rewrite futures_dedupe|].
  right. simpl. by rewrite futures_dedupe.
Qed.

Lemma seen_covers_initial : seen_covers initial_state.
Proof. intros entry md5 Hin. by apply elem_of_nil in Hin. Qed.

Lemma seen_dedupe_mono st p md5 q m existing :
  seen_md5_by_path st !! q = Some existing → m ∈ existing →
  ∃ existing', seen_md5_by_path (dedupe st p md5).1 !! q = Some existing'
               ∧ m ∈ existing'.
Proof.
  intros Hq Hm. unfold dedupe. destruct md5 as [m0|]; [|eauto].
  destruct (truthy_str m0); [|eauto].
  destruct (seen_md5_by_path st !! p) as [S0|] eqn:Hp.
  - destruct (bool_decide (m0 ∈ S0)); [eauto|]. simpl.
    destruct (decide (p = q)) as [->|Hne].
    + rewrite lookup_insert_eq. exists (S0 ∪ {[m0]}). split; [done|].
      rewrite Hq in Hp. injection Hp as <-. set_solver.
    + rewrite lookup_insert_ne by done. eauto.
  - simpl. destruct (decide (p = q)) as [->|Hne]; [congruence|].
    rewrite lookup_insert_ne by done. eauto.
Qed.

Lemma seen_dedupe_new st p md5 :
  md5 ≠ "" →
  ∃ existing, seen_md5_by_path (dedupe st p (Some md5)).1 !! p = Some existing
              ∧ md5 ∈ existing.
Proof.
  intros Hne. unfold dedupe.
  destruct md5 as [|c md5]; [done|]. simpl truthy_str. cbv iota.
  destruct (seen_md5_by_path st !! p) as [S0|] eqn:Hp.
  - destruct (bool_decide (String c md5 ∈ S0)) eqn:Hin; simpl.
    + exists S0. split; [done|]. by apply bool_decide_eq_true in Hin.
    + rewrite lookup_insert_eq. eexists. split; [done|]. set_solver.
  - simpl. rewrite lookup_insert_eq. eexists. split; [done|]. set_solver.
Qed.

Lemma seen_submit st meta dest :
  seen_md5_by_path (submit_download st meta dest) = seen_md5_by_path st.
Proof. done. Qed.

Lemma seen_covers_after_entry overwrite st yielded rel content :
  manifest_only self = false → verify_only self = false →
  seen_covers st → seen_covers (after_entry self overwrite st yielded rel content).
Proof.
  intros Hmo Hvo Hinv entry md5 Hin Hmd5 Hne.
  rewrite manifest_after_entry in Hin.
  assert (Hseen : seen_md5_by_path (after_entry self overwrite st yielded rel content)
                  = seen_md5_by_path
                      (dedupe (append_manifest st (manifest_entry yielded.1 rel))
                         (PurePath.str rel) (meta_md5Checksum yielded.1)).1).
  { unfold after_entry. rewrite Hmo, Hvo. simpl.
    destruct (dedupe _ _ _).2; [done|].
    by destruct (local_skip_rule _ _ _ _ _). }
  rewrite Hseen. apply elem_of_app in Hin as [Hin|Hin].
  - destruct (Hinv entry md5 Hin Hmd5 Hne) as (existing & Hq & Hm).
    by eapply seen_dedupe_mono.
  - apply list_elem_of_singleton in Hin as ->. simpl in Hmd5. rewrite Hmd5.
    change (entry_path (manifest_entry yielded.1 rel)) with (PurePath.str rel).
    by apply seen_dedupe_new.
Qed.

(** What a completed loop leaves: the manifest is the old one followed by
    the entries of everything yielded, in order; the futures are the old
    ones followed by tasks of yielded pairs; the files are untouched. *)
Lemma run_for_each_process overwrite target_root ys st w st' w' :
  run (for_each (process_entry self overwrite target_root) ys st) w
  = (Return st', w') →
  (∃ entries, mapM (entry_of target_root) ys = Some entries
              ∧ manifest st' = manifest st ++ entries)
  ∧ (∃ tasks, futures st' = futures st ++ tasks
              ∧ ∀ task, task ∈ tasks →
                  ∃ y, y ∈ ys ∧ task = download_task y.1 y.2)
  ∧ fs w' = fs w
  ∧ (manifest_only self = false → verify_only self = false →
     seen_covers st → seen_covers st').
Proof.
  revert st w. induction ys as [|y ys IH]; intros st w Hrun; cbn [for_each] in Hrun.
  - rewrite run_ret in Hrun. injection Hrun as <- <-.
    split; [exists []; by rewrite app_nil_r|].
    split; [exists []; split; [by rewrite app_nil_r|by intros ? ?%elem_of_nil]|].
    done.
  - rewrite run_bind in Hrun.
    destruct (PurePath.relative_to y.2 target_root) as [e|rel] eqn:Hrel.
    { by rewrite (run_process_entry_raise _ _ _ _ _ _ Hrel) in Hrun. }
    destruct (run_process_entry overwrite target_root st y rel w Hrel)
      as (w1 & Hstep & Hfs1).
    rewrite Hstep in Hrun.
    destruct (IH _ _ Hrun) as ((entries & Hmap & Hman) & (tasks & Hfut & Htasks) & Hfs & Hinv).
    split; [|split; [|split]].
    + exists (manifest_entry y.1 rel :: entries). split.
      * cbn [mapM]. rewrite Hmap. unfold entry_of. by rewrite Hrel.
      * rewrite Hman, manifest_after_entry. by rewrite <- app_assoc.
    + destruct (futures_after_entry overwrite st y rel (files (fs w) !! y.2)) as [Hf|Hf].
      * exists tasks. split; [by rewrite Hfut, Hf|].
        intros task Hin. destruct (Htasks task Hin) as (y' & ? & ?).
        exists y'. split; [by apply elem_of_cons; right|done].
      * exists (download_task y.1 y.2 :: tasks). split.
        { rewrite Hfut, Hf. by rewrite <- app_assoc. }
        intros task [->|Hin]%elem_of_cons.
        { exists y. split; [by apply elem_of_cons; left|done]. }
        destruct (Htasks task Hin) as (y' & ? & ?).
        exists y'. split; [by apply elem_of_cons; right|done].
    + by rewrite Hfs, Hfs1.
    + intros Hmo Hvo Hcov. apply Hinv; [done..|].
      by apply seen_covers_after_entry.
Qed.

End LoopFacts.

(** ** Dedupe and the local-skip decision *)

Lemma mapM_Some_elem {A B} (f : A → option B) l k x y :
  mapM f l = Some k → x ∈ l → f x = Some y → y ∈ k.
Proof.
  intros Hmap [i Hi]%list_elem_of_lookup Hfx.
  apply mapM_Some_1 in Hmap.
  destruct (Forall2_lookup_l _ _ _ _ _ Hmap Hi) as (y' & Hk & Hy').
  rewrite Hfx in Hy'. injection Hy' as <-. apply list_elem_of_lookup. eauto.
Qed.

(** C1, as the code has it.  In normal download mode, once the loop has
    processed the pairs [ys], a further pair whose relative path and
    non-empty md5 repeat those of a pair among [ys] adds one to
    [skipped_duplicate_count] and schedules no download; its entry is
    nevertheless appended to the manifest, and the manifest written from
    that state holds it, duplicates included. *)
Theorem repeated_pair_skipped_yet_listed `{Hashlib}
    self overwrite target_root ys y0 y rel0 rel md5 st w0 w1 :
  manifest_only self = false → verify_only self = false →
  run (for_each (process_entry self overwrite target_root) ys initial_state) w0
  = (Return st, w1) →
  y0 ∈ ys →
  PurePath.relative_to y0.2 target_root = inr rel0 →
  PurePath.relative_to y.2 target_root = inr rel →
  PurePath.str rel0 = PurePath.str rel →
  meta_md5Checksum y0.1 = Some md5 → meta_md5Checksum y.1 = Some md5 → md5 ≠ "" →
  ∃ st' w2,
    run (process_entry self overwrite target_root st y) w1 = (Return st', w2)
    ∧ skipped_duplicate_count st' = skipped_duplicate_count st + 1
    ∧ futures st' = futures st
    ∧ manifest st' = manifest st ++ [manifest_entry y.1 rel]
    ∧ ∀ w, target_root // MANIFEST_NAME ∉ denied (fs w) →
        persisted target_root (run (_write_manifest target_root (manifest st')) w).2
        = Some (encode_utf8 (Json.dumps (manifest st ++ [manifest_entry y.1 rel]))).
Proof.
  intros Hmo Hvo Hloop Hy0 Hrel0 Hrel Hstr Hmd0 Hmd Hne.
  destruct (run_for_each_process self _ _ _ _ _ _ _ Hloop)
    as ((entries & Hmap & Hman) & _ & _ & Hcov).
  specialize (Hcov Hmo Hvo seen_covers_initial).
  assert (Hin : manifest_entry y0.1 rel0 ∈ manifest st).
  { rewrite Hman. simpl. eapply mapM_Some_elem; [done..|].
    unfold entry_of. by rewrite Hrel0. }
  destruct (Hcov _ md5 Hin Hmd0 Hne) as (existing & Hseen & Hmem).
  simpl in Hseen. rewrite Hstr in Hseen.
  destruct (run_process_entry self overwrite target_root st y rel w1 Hrel)
    as (w2 & Hstep & _).
  exists (after_entry self overwrite st y rel (files (fs w1) !! y.2)), w2.
  split; [done|].
  assert (Hafter : after_entry self overwrite st y rel (files (fs w1) !! y.2)
    = {| manifest := manifest st ++ [manifest_entry y.1 rel];
         futures := futures st;
         scheduled_count := scheduled_count st;
         seen_md5_by_path := seen_md5_by_path st;
         skipped_duplicate_count := skipped_duplicate_count st + 1;
         conflict_md5s_by_path := conflict_md5s_by_path st |}).
  { unfold after_entry. rewrite Hmo, Hvo, Hmd. simpl orb. cbv iota.
    unfold dedupe. destruct md5 as [|c md5]; [done|]. simpl truthy_str. cbv iota.
    simpl seen_md5_by_path. rewrite Hseen.
    by rewrite bool_decide_eq_true_2. }
  rewrite Hafter. simpl. repeat split.
  intros w Hok. apply persisted_write_manifest; [|done].
  by destruct (manifest st).
Qed.

(** The pair of folder [F] listed a second time: skipped, counted, and
    still the second entry of the manifest. *)
Lemma repeated_pair_skipped_yet_listed_witness :
  ∃ st' w2,
    run (process_entry (Sample.normal []) false Sample.target_root
           (after_entry (Sample.normal []) false initial_state
              (Sample.meta_of "ID1" "x.pdf", Sample.target_root // "x.pdf")
              (PurePath.parse "x.pdf") None)
           (Sample.meta_of "ID2" "x.pdf", Sample.target_root // "x.pdf"))
        Sample.empty_world
    = (Return st', w2)
    ∧ skipped_duplicate_count st' = 1
    ∧ length (futures st') = 1%nat
    ∧ length (manifest st') = 2%nat.
Proof.
  destruct (repeated_pair_skipped_yet_listed (Sample.normal []) false
              Sample.target_root
              [(Sample.meta_of "ID1" "x.pdf", Sample.target_root // "x.pdf")]
              (Sample.meta_of "ID1" "x.pdf", Sample.target_root // "x.pdf")
              (Sample.meta_of "ID2" "x.pdf", Sample.target_root // "x.pdf")
              (PurePath.parse "x.pdf") (PurePath.parse "x.pdf") Sample.md5_abc
              (after_entry (Sample.normal []) false initial_state
                 (Sample.meta_of "ID1" "x.pdf", Sample.target_root // "x.pdf")
                 (PurePath.parse "x.pdf") None)
              Sample.empty_world Sample.empty_world)
    as (st' & w2 & Hrun & Hskip & Hfut & Hman & _).
  - reflexivity.
  - reflexivity.
  - vm_compute. reflexivity.
  - apply list_elem_of_singleton. reflexivity.
  - reflexivity.
  - reflexivity.
  - reflexivity.
  - reflexivity.
  - reflexivity.
  - discriminate.
  - exists st', w2. split; [exact Hrun|].
    rewrite Hskip, Hfut, Hman. split; [reflexivity|]. split; reflexivity.
Defined.

(** C1, as stated, fails: folder [F] lists the pair ([x.pdf], md5 of
    [abc]) twice; the run succeeds and the manifest it persists holds two
    entries with that path and md5. *)
Lemma repeated_pair_persisted_twice :
  let r := run (_download_gdrive_folder (Sample.normal [Sample.folder "F"])
                  (Sample.remote_with Sample.twice_listing Sample.abc_media)
                  8 (Sample.folder "F") Sample.target_root false)
               Sample.empty_world in
  let manifest :=
    [ mkEntry "ID1" "x.pdf" (Some Sample.md5_abc) (Some 3);
      mkEntry "ID2" "x.pdf" (Some Sample.md5_abc) (Some 3) ] in
  r.1 = Return tt
  ∧ persisted Sample.target_root r.2 = Some (encode_utf8 (Json.dumps manifest))
  ∧ length (List.filter (same_pair "x.pdf" Sample.md5_abc) manifest) = 2%nat.
Proof. vm_compute. repeat split; reflexivity. Qed.

(** C7, as the code has it.  In normal download mode, for an enumerated
    entry that the dedupe gate lets through, the loop body returns, leaves
    the files alone, and schedules the download unless the local-skip rule
    says skip: the destination exists, overwrite is off, and either
    verification is disabled or the local file passes the verifier against
    the expected size and md5.  The four equations spell the rule out. *)
Theorem local_skip_decides_scheduling `{Hashlib}
    self overwrite target_root st y rel w :
  manifest_only self = false → verify_only self = false →
  PurePath.relative_to y.2 target_root = inr rel →
  (dedupe (append_manifest st (manifest_entry y.1 rel)) (PurePath.str rel)
     (meta_md5Checksum y.1)).2 = false →
  (∃ st' w',
     run (process_entry self overwrite target_root st y) w = (Return st', w')
     ∧ fs w' = fs w
     ∧ futures st'
       = if local_skip_rule (verify_downloads self) overwrite (files (fs w) !! y.2)
              (meta_size y.1) (meta_md5Checksum y.1)
         then futures st
         else futures st ++ [download_task y.1 y.2])
  ∧ (∀ data size md5, local_skip_rule false false (Some data) size md5 = true)
  ∧ (∀ data size md5,
       local_skip_rule true false (Some data) size md5
       = verifier_rule true (Some data) size md5)
  ∧ (∀ enabled content size md5, local_skip_rule enabled true content size md5 = false)
  ∧ (∀ enabled overwrite size md5, local_skip_rule enabled overwrite None size md5 = false).
Proof.
  intros Hmo Hvo Hrel Hgate.
  split; [|split; [done|split; [done|split; [by intros ? []|done]]]].
  destruct (run_process_entry self overwrite target_root st y rel w Hrel)
    as (w' & Hstep & Hfs).
  eexists _, w'. split; [exact Hstep|]. split; [done|].
  unfold after_entry. rewrite Hmo, Hvo, Hgate. simpl orb. cbv iota.
  destruct (local_skip_rule _ _ _ _ _); [by rewrite futures_dedupe|].
  simpl. by rewrite futures_dedupe.
Qed.

(** A stale local copy that fails verification is downloaded again. *)
Lemma local_skip_decides_scheduling_witness :
  ∃ st' w',
    run (process_entry (Sample.normal []) false Sample.target_root initial_state
           (Sample.meta_of "ID1" "x.pdf", Sample.target_root // "x.pdf"))
        Sample.stale_world
    = (Return st', w')
    ∧ futures st'
      = [download_task (Sample.meta_of "ID1" "x.pdf") (Sample.target_root // "x.pdf")].
Proof.
  destruct (local_skip_decides_scheduling (Sample.normal []) false
              Sample.target_root initial_state
              (Sample.meta_of "ID1" "x.pdf", Sample.target_root // "x.pdf")
              (PurePath.parse "x.pdf") Sample.stale_world)
    as ((st' & w' & Hrun & _ & Hfut) & _).
  - reflexivity.
  - reflexivity.
  - reflexivity.
  - vm_compute. reflexivity.
  - exists st', w'. split; [exact Hrun|]. rewrite Hfut. vm_compute. reflexivity.
Defined.

(** C7, as stated, fails: the second of two identical entries finds its
    destination on disk, overwrite off, verification enabled and the local
    file failing the verifier -- and yet no download is scheduled for it,
    because the dedupe gate comes first. *)
Lemma failed_verification_not_scheduled_for_duplicate :
  let self := Sample.normal [] in
  let first := (Sample.meta_of "ID1" "x.pdf", Sample.target_root // "x.pdf") in
  let second := (Sample.meta_of "ID2" "x.pdf", Sample.target_root // "x.pdf") in
  let st1 := after_entry self false initial_state first (PurePath.parse "x.pdf")
               (files (fs Sample.stale_world) !! first.2) in
  let r := run (process_entry self false Sample.target_root st1 second)
               Sample.stale_world in
  manifest_only self = false ∧ verify_only self = false
  ∧ verify_downloads self = true
  ∧ is_Some (files (fs Sample.stale_world) !! second.2)
  ∧ verifier_rule true (files (fs Sample.stale_world) !! second.2)
      (meta_size second.1) (meta_md5Checksum second.1) = false
  ∧ run (for_each (process_entry self false Sample.target_root) [first] initial_state)
        Sample.stale_world = (Return st1, Sample.stale_world)
  ∧ match r.1 with
    | Return st2 => futures st2 = futures st1
                    ∧ futures st1 = [download_task first.1 first.2]
    | _ => False
    end.
Proof.
  vm_compute. repeat split; try reflexivity. eexists. reflexivity.
Qed.

(** ** What a call leaves untouched *)

Global Instance keeps_frame q : FrameRel (keeps q).
Proof.
  split.
  - intros w w' E. unfold keeps. by rewrite E.
  - intros w1 w2 w3 [? ?] [? ?]. split; congruence.
Qed.

Global Instance same_denied_frame : FrameRel same_denied.
Proof.
  split.
  - intros w w' E. unfold same_denied. by rewrite E.
  - unfold same_denied. congruence.
Qed.

Section Preserves.
Context (R : World → World → Prop) `{!FrameRel R}.

Lemma frame_refl w : R w w.
Proof. by apply frame_same_fs. Qed.

Lemma preserves_ret {A} (a : A) : preserves R (mret a).
Proof. intros w. apply frame_refl. Qed.

Lemma preserves_raise {A} e : preserves R (raise e : M A).
Proof. intros w. apply frame_refl. Qed.

Lemma preserves_out_of_fuel {A} : preserves R (out_of_fuel : M A).
Proof. intros w. apply frame_refl. Qed.

Lemma preserves_bind {A B} (m : M A) (f : A → M B) :
  preserves R m → (∀ a, preserves R (f a)) → preserves R (m ≫= f).
Proof.
  intros Hm Hf w. rewrite run_bind. specialize (Hm w).
  destruct (run m w) as [[a|e|] w']; [|done..].
  eapply frame_trans; [exact Hm|apply Hf].
Qed.

Lemma preserves_try {A} (m : M A) h :
  preserves R m → (∀ e, preserves R (h e)) → preserves R (try_except m h).
Proof.
  intros Hm Hh w. unfold try_except. cbn [run]. specialize (Hm w).
  destruct (run m w) as [[a|e|] w']; [done| |done].
  eapply frame_trans; [exact Hm|apply Hh].
Qed.

Lemma preserves_lift {A} (r : Exn + A) : preserves R (lift r).
Proof. destruct r; [apply preserves_raise|apply preserves_ret]. Qed.

Lemma preserves_bind_lift {A B} (r : Exn + A) (f : A → M B) :
  (∀ a, r = inr a → preserves R (f a)) → preserves R (lift r ≫= f).
Proof.
  intros Hf. destruct r as [e|a].
  - intros w. apply frame_refl.
  - intros w. rewrite run_bind. apply (Hf a eq_refl).
Qed.

Lemma preserves_logger l tpl : preserves R (logger l tpl).
Proof. intros w. by apply frame_same_fs. Qed.

Lemma preserves_path_exists p : preserves R (path_exists p).
Proof. intros w. by apply frame_same_fs. Qed.

Lemma preserves_read_bytes p : preserves R (read_bytes p).
Proof.
  intros w. unfold read_bytes. rewrite run_bind. simpl.
  destruct (_ !! _); by apply frame_same_fs.
Qed.

End Preserves.

Lemma keeps_open_wb q p : p ≠ q → preserves (keeps q) (open_wb p).
Proof.
  intros Hne w. unfold open_wb. rewrite run_bind. simpl.
  destruct (bool_decide _); [done|]. split; [|done]. simpl.
  by rewrite lookup_insert_ne.
Qed.

Lemma keeps_fh_write q p data : p ≠ q → preserves (keeps q) (fh_write p data).
Proof. intros Hne w. split; [|done]. simpl. by rewrite lookup_insert_ne. Qed.

Lemma keeps_replace q src dst :
  src ≠ q → dst ≠ q → preserves (keeps q) (replace src dst).
Proof.
  intros Hs Hd w. unfold replace. rewrite run_bind. simpl.
  destruct (_ !! src); [|done]. destruct (bool_decide _); [done|].
  split; [|done]. simpl. by rewrite lookup_insert_ne, lookup_delete_ne.
Qed.

Lemma keeps_unlink q p b : p ≠ q → preserves (keeps q) (unlink p b).
Proof.
  intros Hne w. unfold unlink. rewrite run_bind. simpl.
  destruct (_ !! p); [|by destruct b].
  split; [|done]. simpl. by rewrite lookup_delete_ne.
Qed.

Lemma same_denied_open_wb p : preserves same_denied (open_wb p).
Proof.
  intros w. unfold open_wb. rewrite run_bind. simpl. by destruct (bool_decide _).
Qed.

Lemma same_denied_fh_write p data : preserves same_denied (fh_write p data).
Proof. by intros w. Qed.

Lemma same_denied_replace src dst : preserves same_denied (replace src dst).
Proof.
  intros w. unfold replace. rewrite run_bind. simpl.
  destruct (_ !! src); [|done]. by destruct (bool_decide _).
Qed.

Lemma same_denied_unlink p b : preserves same_denied (unlink p b).
Proof.
  intros w. unfold unlink. rewrite run_bind. simpl.
  destruct (_ !! p); [done|by destruct b].
Qed.

Create HintDb preserves discriminated.
#[export] Hint Resolve preserves_ret preserves_raise preserves_out_of_fuel
  preserves_lift preserves_logger preserves_path_exists preserves_read_bytes
  keeps_open_wb keeps_fh_write keeps_replace keeps_unlink
  same_denied_open_wb same_denied_fh_write same_denied_replace same_denied_unlink
  : preserves.

Ltac preserves_step :=
  first [ assumption
        | solve [auto with preserves typeclass_instances]
        | match goal with
          | |- preserves _ (mbind _ _) => apply preserves_bind; [apply _| |intros ?]
          | |- preserves _ (try_except _ _) => apply preserves_try; [apply _| |intros ?]
          end
        | match goal with |- preserves _ (if ?b then _ else _) => destruct b end
        | match goal with |- preserves _ (match ?x with _ => _ end) => destruct x end ].

Ltac solve_preserves := repeat preserves_step.

Section FrameFacts.
Context `{Hashlib}.
Variable self : Downloader.
Variable env : Remote.
Context (R : World → World → Prop) `{!FrameRel R}.

Lemma preserves_verify_local_file path expected_size expected_md5 :
  preserves R (_verify_local_file self path expected_size expected_md5).
Proof.
  intros w. destruct (run_verify_local_file self path expected_size expected_md5 w)
    as (w' & -> & Hfs). by apply frame_same_fs.
Qed.

Lemma preserves_process_entry overwrite target_root st yielded :
  preserves R (process_entry self overwrite target_root st yielded).
Proof.
  intros w. destruct (PurePath.relative_to yielded.2 target_root) as [e|rel] eqn:Hrel.
  - rewrite (run_process_entry_raise _ _ _ _ _ _ _ Hrel). apply frame_refl, _.
  - destruct (run_process_entry self overwrite target_root st yielded rel w Hrel)
      as (w' & -> & Hfs). by apply frame_same_fs.
Qed.

Lemma preserves_for_each {S A} (body : S → A → M S) xs st :
  (∀ st x, preserves R (body st x)) → preserves R (for_each body xs st).
Proof.
  intros Hbody. revert st. induction xs as [|x xs IH]; intros st; cbn [for_each].
  - apply preserves_ret, _.
  - apply preserves_bind; [done|apply Hbody|apply IH].
Qed.

Lemma preserves_collect_missing target_root manifest :
  preserves R (collect_missing self target_root manifest).
Proof.
  induction manifest as [|entry rest IH]; cbn [collect_missing].
  - apply preserves_ret, _.
  - apply preserves_bind; [done|apply preserves_verify_local_file|intros ok].
    apply preserves_bind; [done|apply IH|intros missing]. apply preserves_ret, _.
Qed.

End FrameFacts.

Section DownloadFrame.
Context `{Hashlib}.
Variable self : Downloader.
Variable env : Remote.

Lemma keeps_next_chunks q tmp chunks failure :
  tmp ≠ q → preserves (keeps q) (next_chunks tmp chunks failure).
Proof.
  intros Hne. induction chunks as [|c chunks IH]; cbn [next_chunks].
  - destruct failure as [[]|]; solve_preserves.
  - solve_preserves.
Qed.

Lemma same_denied_next_chunks tmp chunks failure :
  preserves same_denied (next_chunks tmp chunks failure).
Proof.
  induction chunks as [|c chunks IH]; cbn [next_chunks].
  - destruct failure as [[]|]; solve_preserves.
  - solve_preserves.
Qed.

#[local] Hint Resolve preserves_verify_local_file keeps_next_chunks
  same_denied_next_chunks : preserves.

(** A download touches its destination and its temporary file only. *)
Lemma keeps_download_gdrive_file q file_id name dest md5 size :
  dest ≠ q → (∀ tmp, part_path dest file_id = inr tmp → tmp ≠ q) →
  preserves (keeps q) (_download_gdrive_file self env file_id name dest md5 size).
Proof.
  intros Hdest Htmp. unfold _download_gdrive_file, mkdir_parents.
  apply preserves_bind; [apply _|apply preserves_logger, _|intros _].
  apply preserves_bind; [apply _|apply preserves_ret, _|intros _].
  apply preserves_bind_lift; [apply _|].
  intros tmp Hpart. specialize (Htmp tmp Hpart).
  unfold transfer, verify_after, cleanup, _get_drive_service.
  solve_preserves.
Qed.

Lemma same_denied_download_gdrive_file file_id name dest md5 size :
  preserves same_denied (_download_gdrive_file self env file_id name dest md5 size).
Proof.
  unfold _download_gdrive_file, mkdir_parents, transfer, verify_after, cleanup,
    _get_drive_service.
  solve_preserves.
Qed.

Lemma keeps_drain q queue :
  Forall (λ task,
     task_dest task ≠ q
     ∧ ∀ tmp, part_path (task_dest task) (task_file_id task) = inr tmp → tmp ≠ q)
    queue →
  preserves (keeps q) (drain self env queue).
Proof.
  induction 1 as [|task queue [Hd Ht] _ IH]; cbn [drain].
  - apply preserves_ret, _.
  - apply preserves_bind; [apply _| |by intros _].
    unfold run_task. by apply keeps_download_gdrive_file.
Qed.

Lemma same_denied_drain queue : preserves same_denied (drain self env queue).
Proof.
  induction queue as [|task queue IH]; cbn [drain].
  - apply preserves_ret, _.
  - apply preserves_bind; [apply _| |by intros _].
    unfold run_task. apply same_denied_download_gdrive_file.
Qed.

Lemma total_drain queue : total (drain self env queue).
Proof.
  induction queue as [|task queue IH]; cbn [drain].
  - apply total_ret.
  - apply total_bind; [unfold run_task; apply total_download_gdrive_file|done].
Qed.

End DownloadFrame.

(** ** The temporary name never is the manifest's *)

Lemma prefix_app (m b : string) : String.prefix m (m +:+ b) = true.
Proof.
  induction m as [|c m IH]; [by destruct b|].
  change (String c m +:+ b) with (String c (m +:+ b)). cbn [String.prefix].
  by destruct (ascii_dec c c).
Qed.

Lemma occurs_in_app (m a b : string) : occurs_in m (a +:+ m +:+ b) = true.
Proof.
  induction a as [|c a IH].
  - change ("" +:+ m +:+ b) with (m +:+ b).
    destruct (m +:+ b) eqn:E; cbn [occurs_in]; rewrite <- E, prefix_app; done.
  - change (String c a +:+ m +:+ b) with (String c (a +:+ m +:+ b)).
    cbn [occurs_in]. rewrite IH. apply orb_true_r.
Qed.

Lemma app_part_ne_manifest (a b : string) :
  a +:+ ".part." +:+ b ≠ MANIFEST_NAME.
Proof.
  intros Heq. pose proof (occurs_in_app ".part." a b) as Hin.
  rewrite Heq in Hin. vm_compute in Hin. discriminate.
Qed.

Lemma str_app_assoc (a b c : string) : (a +:+ b) +:+ c = a +:+ b +:+ c.
Proof.
  induction a as [|x a IH]; [done|].
  change ((String x a +:+ b) +:+ c) with (String x ((a +:+ b) +:+ c)).
  by rewrite IH.
Qed.

Lemma joinpath_manifest target_root :
  target_root // MANIFEST_NAME
  = PurePath.mk (PurePath.root target_root) (PurePath.parts target_root ++ [MANIFEST_NAME]).
Proof. reflexivity. Qed.

Lemma part_path_ne_manifest dest file_id tmp target_root :
  part_path dest file_id = inr tmp → tmp ≠ target_root // MANIFEST_NAME.
Proof.
  unfold part_path, PurePath.with_suffix. intros Hp.
  destruct (PurePath.has_sep _); [done|]. destruct (_ || _); [done|].
  destruct (negb _); [done|]. injection Hp as <-.
  rewrite joinpath_manifest. intros [= _ Happ].
  apply app_inj_tail in Happ as [_ Hname]. revert Hname.
  destruct (truthy_str (PurePath.suffix dest)).
  - rewrite <- str_app_assoc. apply app_part_ne_manifest.
  - rewrite <- str_app_assoc. apply app_part_ne_manifest.
Qed.

(** ** One Drive folder *)

Lemma fs_write_manifest target_root manifest w :
  ∃ w', run (_write_manifest target_root manifest) w = (Return tt, w')
        ∧ fs w' = written_fs target_root manifest (fs w).
Proof.
  rewrite run_write_manifest. unfold written_fs.
  destruct manifest as [|entry rest]; [by exists w|].
  destruct (bool_decide _); by eexists.
Qed.

Lemma run_report_dedupe st w :
  ∃ w', run (report_dedupe st) w = (Return tt, w') ∧ fs w' = fs w.
Proof.
  unfold report_dedupe. rewrite run_bind.
  destruct (negb (skipped_duplicate_count st =? 0));
    destruct (negb (bool_decide (conflict_md5s_by_path st = ∅)));
    rewrite ?run_logger, ?run_ret; by eexists.
Qed.

Lemma run_consume_return {S} generator (body : S → FileMeta * Path → M S) st w st' w' :
  run (consume generator body st) w = (Return st', w') →
  generator.2 = WalkDone ∧ run (for_each body generator.1 st) w = (Return st', w').
Proof.
  unfold consume. rewrite run_bind.
  destruct (run (for_each body generator.1 st) w) as [[st1|e|] w1]; [|done..].
  destruct generator.2 as [|[]|]; rewrite ?run_bind, ?run_logger; done.
Qed.

Section FolderFacts.
Context `{Hashlib}.
Variable self : Downloader.
Variable env : Remote.

(** A folder run is the listing loop, the manifest write, and what
    follows the write. *)
Lemma run_folder_enumerated fuel item target_root overwrite w st w1 :
  truthy_scalar (folder_id item) = true → drive_service env = inr tt →
  run (consume (walk_of env fuel item target_root)
         (process_entry self overwrite target_root) initial_state)
      (logged w INFO folder_log) = (Return st, w1) →
  ∃ w2, run (_download_gdrive_folder self env fuel item target_root overwrite) w
        = run (after_manifest self env target_root st) w2
        ∧ fs w2 = written_fs target_root (manifest st) (fs w1).
Proof.
  intros Hid Hsvc Hloop. unfold _download_gdrive_folder, _get_drive_service.
  rewrite Hid, Hsvc. simpl negb. cbv iota.
  rewrite run_bind. simpl lift. rewrite run_ret, run_bind, run_logger.
  fold folder_log. fold (walk_of env fuel item target_root).
  rewrite run_bind, Hloop.
  destruct (use_progress self).
  - destruct (run_report_dedupe st w1) as (wa & Ha & Hfa).
    destruct (fs_write_manifest target_root (manifest st) wa) as (wb & Hb & Hfb).
    exists wb. split; [|by rewrite Hfb, Hfa].
    rewrite run_bind, run_bind, Ha, Hb. done.
  - destruct (fs_write_manifest target_root (manifest st) w1) as (wa & Ha & Hfa).
    destruct (run_report_dedupe st wa) as (wb & Hb & Hfb).
    exists wb. split; [|by rewrite Hfb, Hfa].
    rewrite run_bind, run_bind, Ha, Hb. done.
Qed.

(** A folder run that returns went through all of that. *)
Lemma run_folder_return_inv fuel item target_root overwrite w w' :
  run (_download_gdrive_folder self env fuel item target_root overwrite) w
  = (Return tt, w') →
  truthy_scalar (folder_id item) = true ∧ drive_service env = inr tt
  ∧ ∃ st w1,
      run (consume (walk_of env fuel item target_root)
             (process_entry self overwrite target_root) initial_state)
          (logged w INFO folder_log) = (Return st, w1).
Proof.
  intros Hrun. unfold _download_gdrive_folder, _get_drive_service in Hrun.
  destruct (truthy_scalar (folder_id item)); [|done]. simpl negb in Hrun. cbv iota in Hrun.
  rewrite run_bind in Hrun. destruct (drive_service env) as [e|[]]; [done|].
  simpl lift in Hrun. rewrite run_ret, run_bind, run_logger in Hrun.
  fold folder_log in Hrun. fold (walk_of env fuel item target_root) in Hrun.
  rewrite run_bind in Hrun.
  destruct (run (consume _ _ _) _) as [[st|e|] w1] eqn:Hloop; [|done..].
  eauto.
Qed.

Lemma keeps_verify_against_manifest q target_root manifest :
  preserves (keeps q) (_verify_against_manifest self target_root manifest).
Proof.
  unfold _verify_against_manifest.
  apply preserves_bind; [apply _|apply preserves_collect_missing, _|intros missing].
  destruct missing; solve_preserves.
Qed.

(** What follows the write leaves the manifest alone, provided no
    scheduled download is aimed at the manifest path. *)
Lemma keeps_after_manifest target_root st :
  Forall (λ task, task_dest task ≠ target_root // MANIFEST_NAME) (futures st) →
  preserves (keeps (target_root // MANIFEST_NAME))
    (after_manifest self env target_root st).
Proof.
  intros Hfut. unfold after_manifest.
  destruct (manifest_only self); [apply preserves_ret, _|].
  destruct (verify_only self); [apply keeps_verify_against_manifest|].
  apply keeps_drain. eapply Forall_impl; [exact Hfut|].
  intros task Hdest. split; [done|]. intros tmp Hp.
  by eapply part_path_ne_manifest.
Qed.

Lemma futures_avoid_manifest overwrite target_root ys st w w' :
  run (for_each (process_entry self overwrite target_root) ys initial_state) w
  = (Return st, w') →
  Forall (λ y, y.2 ≠ target_root // MANIFEST_NAME) ys →
  Forall (λ task, task_dest task ≠ target_root // MANIFEST_NAME) (futures st).
Proof.
  intros Hloop Hys.
  destruct (run_for_each_process self _ _ _ _ _ _ _ Hloop)
    as (_ & (tasks & Hfut & Htasks) & _).
  rewrite Hfut. simpl. apply Forall_forall. intros task Hin.
  destruct (Htasks task Hin) as (y & Hy & ->). simpl.
  by apply (proj1 (Forall_forall _ _) Hys).
Qed.

(** The manifest file after a folder run that returned: the entries of
    this folder in the order of enumeration, or, for an empty enumeration,
    whatever was there before. *)
Lemma persisted_after_folder fuel item target_root overwrite w w' :
  run (_download_gdrive_folder self env fuel item target_root overwrite) w
  = (Return tt, w') →
  target_root // MANIFEST_NAME ∉ denied (fs w) →
  Forall (λ y, y.2 ≠ target_root // MANIFEST_NAME) (walk_of env fuel item target_root).1 →
  ∃ entries,
    mapM (entry_of target_root) (walk_of env fuel item target_root).1 = Some entries
    ∧ persisted target_root w'
      = match entries with
        | [] => persisted target_root w
        | _ => Some (encode_utf8 (Json.dumps entries))
        end
    ∧ denied (fs w') = denied (fs w).
Proof.
  intros Hrun Hok Hys.
  destruct (run_folder_return_inv _ _ _ _ _ _ Hrun) as (Hid & Hsvc & st & w1 & Hloop).
  destruct (run_folder_enumerated _ _ _ _ _ _ _ Hid Hsvc Hloop) as (w2 & Hrest & Hfs2).
  destruct (run_consume_return _ _ _ _ _ _ Hloop) as (_ & Heach).
  destruct (run_for_each_process self _ _ _ _ _ _ _ Heach)
    as ((entries & Hmap & Hman) & _ & Hfs1 & _).
  simpl in Hman, Hfs1.
  pose proof (keeps_after_manifest target_root st
                (futures_avoid_manifest _ _ _ _ _ _ Heach Hys) w2) as [Hkeep Hden].
  rewrite <- Hrest, Hrun in Hkeep, Hden. simpl in Hkeep, Hden.
  exists entries. split; [done|]. unfold persisted. rewrite Hkeep, Hden, Hfs2, Hfs1, Hman.
  unfold written_fs. simpl.
  destruct entries as [|entry rest]; [done|].
  rewrite bool_decide_eq_false_2 by done. simpl. by rewrite lookup_insert_eq.
Qed.

End FolderFacts.

(** ** The manifest writer cannot fail a run *)

(** C10.  The manifest writer never fails.  Whatever the state of the
    disk, [_write_manifest] returns normally; when the write itself raises
    an exception the writer returns from the world the failed write left,
    with one more log record, a warning; whatever comes after the writer
    in a run is executed; and a folder run whose enumeration completed
    ends the way the steps after the write end (verification or drain),
    whether or not the manifest could be written.  So no error of
    [download_all] comes from writing the manifest. *)
Theorem write_manifest_never_raises target_root manifest w :
  (∃ w', run (_write_manifest target_root manifest) w = (Return tt, w'))
  ∧ (∀ e w1,
       manifest ≠ [] →
       run (write_text (target_root // MANIFEST_NAME) (Json.dumps manifest)) w
       = (Raise e, w1) →
       run (_write_manifest target_root manifest) w
       = (Return tt, logged w1 WARNING "Failed to write manifest %s: %s"))
  ∧ (∀ A (rest_of_run : M A),
       ∃ w', run (_write_manifest target_root manifest;; rest_of_run) w
             = run rest_of_run w')
  ∧ (∀ (H : Hashlib) self env fuel item overwrite st w1,
       truthy_scalar (folder_id item) = true → drive_service env = inr tt →
       run (consume (walk_of env fuel item target_root)
              (process_entry self overwrite target_root) initial_state)
           (logged w INFO folder_log) = (Return st, w1) →
       ∃ w2, run (_download_gdrive_folder self env fuel item target_root overwrite) w
             = run (after_manifest self env target_root st) w2).
Proof.
  assert (Hret : ∃ w', run (_write_manifest target_root manifest) w = (Return tt, w')).
  { rewrite run_write_manifest. destruct manifest; [by eexists|].
    destruct (bool_decide _); by eexists. }
  split; [exact Hret|split; [|split]].
  - intros e w1 Hne Hwrite. destruct manifest as [|entry rest]; [done|].
    unfold _write_manifest. erewrite run_try_raise; [apply run_logger|].
    by rewrite run_bind, Hwrite.
  - intros A rest_of_run. destruct Hret as (w' & Hret). exists w'.
    by rewrite (run_bind_return _ _ _ _ _ Hret).
  - intros H self env fuel item overwrite st w1 Hid Hsvc Hloop.
    destruct (run_folder_enumerated self env _ _ _ _ _ _ _ Hid Hsvc Hloop)
      as (w2 & Hrun & _).
    by exists w2.
Qed.

(** On a disk that refuses the manifest the writer logs a warning and
    returns; nothing is written. *)
Lemma write_manifest_never_raises_witness :
  run (_write_manifest Sample.target_root Sample.old_manifest) Sample.read_only_world
  = (Return tt, logged Sample.read_only_world WARNING "Failed to write manifest %s: %s").
Proof.
  apply (proj1 (proj2 (write_manifest_never_raises Sample.target_root
                         Sample.old_manifest Sample.read_only_world))
           (OSError "Permission denied") Sample.read_only_world).
  - discriminate.
  - vm_compute. reflexivity.
Defined.

(** ** The manifest on disk *)

(** C5, as the code has it.  In every mode, when the enumeration of a
    folder completes with at least one entry, the manifest path is
    writable and no enumerated file is aimed at the manifest path itself:
    everything the run does up to and including the manifest write ends
    in a world [w2] where the manifest file holds the entries in the
    order of enumeration; what remains of the run is [after_manifest]:
    nothing in manifest-only mode, the check against the manifest in
    verify-only mode, the drain of the futures otherwise; and however
    that ends -- also with the exception of a failed download or of a
    failed check -- the manifest file still holds the same entries. *)
Theorem manifest_on_disk_before_drain `{Hashlib}
    self env fuel item target_root overwrite w st w1 :
  truthy_scalar (folder_id item) = true → drive_service env = inr tt →
  run (consume (walk_of env fuel item target_root)
         (process_entry self overwrite target_root) initial_state)
      (logged w INFO folder_log) = (Return st, w1) →
  (walk_of env fuel item target_root).1 ≠ [] →
  target_root // MANIFEST_NAME ∉ denied (fs w) →
  Forall (λ y, y.2 ≠ target_root // MANIFEST_NAME) (walk_of env fuel item target_root).1 →
  ∃ entries w2,
    mapM (entry_of target_root) (walk_of env fuel item target_root).1 = Some entries
    ∧ run (_download_gdrive_folder self env fuel item target_root overwrite) w
      = run (after_manifest self env target_root st) w2
    ∧ persisted target_root w2 = Some (encode_utf8 (Json.dumps entries))
    ∧ (∀ r w3, run (after_manifest self env target_root st) w2 = (r, w3) →
         persisted target_root w3 = Some (encode_utf8 (Json.dumps entries)))
    ∧ after_manifest self env target_root st
      = (if manifest_only self then mret tt
         else if verify_only self
              then _verify_against_manifest self target_root (manifest st)
              else drain self env (futures st))
    ∧ (manifest_only self = false → verify_only self = false →
       run (_download_gdrive_folder self env fuel item target_root overwrite) w
       = run (drain self env (futures st)) w2
       ∧ ∀ r w3, run (drain self env (futures st)) w2 = (r, w3) →
           persisted target_root w3 = Some (encode_utf8 (Json.dumps entries))).
Proof.
  intros Hid Hsvc Hloop Hne Hok Hys.
  destruct (run_folder_enumerated self env _ _ _ _ _ _ _ Hid Hsvc Hloop)
    as (w2 & Hrest & Hfs2).
  destruct (run_consume_return _ _ _ _ _ _ Hloop) as (_ & Heach).
  destruct (run_for_each_process self _ _ _ _ _ _ _ Heach)
    as ((entries & Hmap & Hman) & _ & Hfs1 & _).
  simpl in Hman, Hfs1.
  assert (Hp2 : persisted target_root w2 = Some (encode_utf8 (Json.dumps entries))).
  { unfold persisted. rewrite Hfs2, Hfs1, Hman. unfold written_fs. simpl.
    destruct entries as [|entry rest].
    - apply mapM_Some_1, Forall2_length in Hmap.
      destruct (walk_of env fuel item target_root).1; [done|discriminate].
    - rewrite bool_decide_eq_false_2 by done. simpl. apply lookup_insert_eq. }
  assert (Hafter : ∀ r w3, run (after_manifest self env target_root st) w2 = (r, w3) →
                     persisted target_root w3 = Some (encode_utf8 (Json.dumps entries))).
  { intros r w3 Hend.
    pose proof (keeps_after_manifest self env target_root st
                  (futures_avoid_manifest self _ _ _ _ _ _ Heach Hys) w2) as [Hkeep _].
    rewrite Hend in Hkeep. unfold persisted in *. simpl in Hkeep. by rewrite Hkeep. }
  exists entries, w2. split; [done|]. split; [done|]. split; [done|].
  split; [done|]. split; [done|]. intros Hmo Hvo.
  assert (after_manifest self env target_root st = drain self env (futures st)) as Hdrain.
  { unfold after_manifest. by rewrite Hmo, Hvo. }
  rewrite <- Hdrain. by split.
Qed.

(** Both downloads of folder [F] break off; the run raises, and the
    manifest of both entries is on disk. *)
Lemma manifest_on_disk_before_drain_witness :
  let r := run (_download_gdrive_folder (Sample.normal [Sample.folder "F"])
                  (Sample.remote_with Sample.twice_listing Sample.broken_media)
                  8 (Sample.folder "F") Sample.target_root false)
               Sample.empty_world in
  r.1 = Raise (HttpError "503")
  ∧ persisted Sample.target_root r.2
    = Some (encode_utf8 (Json.dumps
              [ mkEntry "ID1" "x.pdf" (Some Sample.md5_abc) (Some 3);
                mkEntry "ID2" "x.pdf" (Some Sample.md5_abc) (Some 3) ])).
Proof.
  cbv zeta.
  edestruct (manifest_on_disk_before_drain (Sample.normal [Sample.folder "F"])
               (Sample.remote_with Sample.twice_listing Sample.broken_media)
               8 (Sample.folder "F") Sample.target_root false Sample.empty_world)
    as (entries & w2 & Hmap & Hrun & _ & Hafter & _).
  - reflexivity.
  - reflexivity.
  - vm_compute. reflexivity.
  - vm_compute. discriminate.
  - apply not_elem_of_empty.
  - vm_compute. repeat (constructor; [discriminate|]). constructor.
  - split; [vm_compute; reflexivity|].
    vm_compute in Hmap. injection Hmap as <-.
    eapply Hafter. rewrite <- Hrun. apply surjective_pairing.
Defined.

(** C5, as stated, fails: the enumeration of an empty folder completes,
    the run succeeds, and the manifest of this run is not persisted: the
    file on disk is still the manifest of an earlier run. *)
Lemma empty_enumeration_keeps_old_manifest :
  let env := Sample.remote_with Sample.no_listing Sample.no_media in
  let r := run (_download_gdrive_folder (Sample.normal [Sample.folder "F"]) env
                  8 (Sample.folder "F") Sample.target_root false)
               Sample.old_manifest_world in
  walk_of env 8 (Sample.folder "F") Sample.target_root = ([], WalkDone)
  ∧ r.1 = Return tt
  ∧ persisted Sample.target_root r.2
    = Some (encode_utf8 (Json.dumps Sample.old_manifest))
  ∧ persisted Sample.target_root r.2 ≠ Some (encode_utf8 (Json.dumps [])).
Proof. vm_compute. repeat split; try reflexivity. discriminate. Qed.

(** ** Empty folders *)

Section EmptyFolder.
Context `{Hashlib}.
Variable self : Downloader.
Variable env : Remote.

Lemma run_verify_against_empty target_root w :
  ∃ w', run (_verify_against_manifest self target_root []) w = (Return tt, w')
        ∧ fs w' = fs w.
Proof.
  unfold _verify_against_manifest. cbn [collect_missing].
  rewrite run_bind, run_ret, run_logger. by eexists.
Qed.

(** A folder that enumerates nothing: the run returns and the disk is as
    it was -- nothing is downloaded and no manifest is written. *)
Lemma run_folder_empty fuel item target_root overwrite w :
  truthy_scalar (folder_id item) = true → drive_service env = inr tt →
  walk_of env fuel item target_root = ([], WalkDone) →
  ∃ w', run (_download_gdrive_folder self env fuel item target_root overwrite) w
        = (Return tt, w')
        ∧ fs w' = fs w.
Proof.
  intros Hid Hsvc Hwalk.
  destruct (run_folder_enumerated self env fuel item target_root overwrite w
              initial_state (logged w INFO folder_log) Hid Hsvc)
    as (w2 & Hrest & Hfs2).
  { by rewrite Hwalk. }
  rewrite Hrest. unfold after_manifest. simpl in Hfs2.
  destruct (manifest_only self); [by exists w2|].
  destruct (verify_only self).
  - destruct (run_verify_against_empty target_root w2) as (w' & Hv & Hfs).
    exists w'. split; [done|]. by rewrite Hfs, Hfs2.
  - by exists w2.
Qed.

End EmptyFolder.

Section DownloadAll.
Context `{Hashlib} `{Urllib}.
Variable self : Downloader.
Variable env : Remote.

Lemma filter_is_kind_all k (l : list DownloadItem) :
  Forall (λ item, kind item = k) l → List.filter (is_kind k) l = l.
Proof.
  induction 1 as [|item l Hk _ IH]; [done|]. cbn [List.filter].
  unfold is_kind at 1. rewrite bool_decide_eq_true_2 by done. by rewrite IH.
Qed.

Lemma filter_is_kind_none k k' (l : list DownloadItem) :
  k ≠ k' → Forall (λ item, kind item = k) l → List.filter (is_kind k') l = [].
Proof.
  intros Hne. induction 1 as [|item l Hk _ IH]; [done|]. cbn [List.filter].
  unfold is_kind at 1. rewrite bool_decide_eq_false_2 by congruence. done.
Qed.

(** [download_all] is the HTTP phase followed by the loop over the Drive
    folders. *)
Lemma run_download_all fuel overwrite s w :
  subdir (config self) = VScalar (SStr s) →
  run (download_all self env fuel overwrite) w
  = run ((match List.filter (is_kind http_file) (items (config self)) with
          | [] => mret tt
          | _ =>
              _download_http_files self env
                (List.filter (is_kind http_file) (items (config self)))
                (output_dir (config self) // s) overwrite
          end);;
         gdrive_folders self env fuel
           (List.filter (is_kind gdrive_folder) (items (config self)))
           (output_dir (config self) // s) overwrite)
        (logged w INFO download_all_log).
Proof.
  intros Hs. unfold download_all, resolve_target_root, mkdir_parents. rewrite Hs.
  by rewrite run_bind, run_ret, run_bind, run_ret, run_bind, run_logger.
Qed.

Lemma run_gdrive_folders_empty fuel gdrive_items target_root overwrite w :
  drive_service env = inr tt →
  Forall (λ item, truthy_scalar (folder_id item) = true
                  ∧ walk_of env fuel item target_root = ([], WalkDone)) gdrive_items →
  ∃ w', run (gdrive_folders self env fuel gdrive_items target_root overwrite) w
        = (Return tt, w')
        ∧ fs w' = fs w.
Proof.
  intros Hsvc Hall. revert w.
  induction Hall as [|item rest [Hid Hwalk] _ IH]; intros w; cbn [gdrive_folders].
  - by exists w.
  - destruct (run_folder_empty self env fuel item target_root overwrite w Hid Hsvc Hwalk)
      as (w1 & Hrun & Hfs1).
    destruct (IH w1) as (w' & Hrest & Hfs).
    exists w'. rewrite (run_bind_return _ _ _ _ _ Hrun). split; [done|].
    by rewrite Hfs, Hfs1.
Qed.

End DownloadAll.

(** C8, as the code has it.  For a source whose items are Drive folders
    that enumerate no file, [download_all] returns normally and leaves the
    disk exactly as it was: nothing is downloaded and no manifest file is
    written, created or emptied. *)
Theorem empty_folders_leave_disk_untouched `{Hashlib} `{Urllib}
    self env fuel overwrite s w :
  subdir (config self) = VScalar (SStr s) →
  drive_service env = inr tt →
  Forall (λ item, kind item = gdrive_folder
                  ∧ truthy_scalar (folder_id item) = true
                  ∧ walk_of env fuel item (output_dir (config self) // s)
                    = ([], WalkDone))
         (items (config self)) →
  ∃ w', run (download_all self env fuel overwrite) w = (Return tt, w')
        ∧ fs w' = fs w.
Proof.
  intros Hs Hsvc Hall.
  rewrite (run_download_all self env fuel overwrite s w Hs).
  rewrite (filter_is_kind_none gdrive_folder http_file) by
    (done || (eapply Forall_impl; [exact Hall|by intros ? [? _]])).
  rewrite (filter_is_kind_all gdrive_folder) by
    (eapply Forall_impl; [exact Hall|by intros ? [? _]]).
  rewrite run_bind, run_ret.
  destruct (run_gdrive_folders_empty self env fuel (items (config self))
              (output_dir (config self) // s) overwrite
              (logged w INFO download_all_log) Hsvc) as (w' & Hrun & Hfs).
  { eapply Forall_impl; [exact Hall|by intros ? (_ & ? & ?)]. }
  by exists w'.
Qed.

(** A source with one empty folder, on an empty disk. *)
Lemma empty_folders_leave_disk_untouched_witness :
  ∃ w', run (download_all (Sample.normal [Sample.folder "F"])
               (Sample.remote_with Sample.no_listing Sample.no_media) 8 false)
            Sample.empty_world
        = (Return tt, w')
        ∧ fs w' = fs Sample.empty_world.
Proof.
  apply (empty_folders_leave_disk_untouched (Sample.normal [Sample.folder "F"])
           (Sample.remote_with Sample.no_listing Sample.no_media) 8 false "ds").
  - reflexivity.
  - reflexivity.
  - repeat constructor.
Defined.

(** C8, as stated, fails: after [download_all] on a source whose only
    folder is empty there is no [.manifest.json] under the target root, so
    in particular not one that holds the empty manifest. *)
Lemma empty_folder_writes_no_manifest :
  let r := run (download_all (Sample.normal [Sample.folder "F"])
                  (Sample.remote_with Sample.no_listing Sample.no_media) 8 false)
               Sample.empty_world in
  r.1 = Return tt
  ∧ persisted Sample.target_root r.2 = None
  ∧ persisted Sample.target_root r.2 ≠ Some (encode_utf8 (Json.dumps [])).
Proof. vm_compute. repeat split; try reflexivity. discriminate. Qed.

(** ** Several Drive folders *)

Section HttpFrame.
Context `{Hashlib} `{Urllib}.
Variable self : Downloader.
Variable env : Remote.

Lemma same_denied_write_blocks tmp blocks failure :
  preserves same_denied (write_blocks tmp blocks failure).
Proof.
  induction blocks as [|chunk rest IH]; cbn [write_blocks].
  - destruct failure; solve_preserves.
  - solve_preserves.
Qed.

#[local] Hint Resolve same_denied_write_blocks : preserves.

Lemma same_denied_download_http_file item target_root overwrite :
  preserves same_denied (_download_http_file env item target_root overwrite).
Proof.
  unfold _download_http_file, determine_filename, mkdir_parents. solve_preserves.
Qed.

Lemma same_denied_download_http_files http_items target_root overwrite :
  preserves same_denied (_download_http_files self env http_items target_root overwrite).
Proof.
  unfold _download_http_files.
  destruct (manifest_only self); [apply preserves_logger, _|].
  destruct (verify_only self); [apply preserves_logger, _|].
  apply preserves_bind; [apply _|apply preserves_logger, _|intros _].
  induction http_items as [|item rest IH]; cbn [http_workers].
  - apply preserves_ret, _.
  - apply preserves_bind; [apply _|apply same_denied_download_http_file|by intros _].
Qed.

(** The manifest file after the loop over the Drive folders. *)
Lemma persisted_after_gdrive_folders fuel gdrive_items target_root overwrite w w' :
  run (gdrive_folders self env fuel gdrive_items target_root overwrite) w
  = (Return tt, w') →
  target_root // MANIFEST_NAME ∉ denied (fs w) →
  Forall (λ item, Forall (λ y, y.2 ≠ target_root // MANIFEST_NAME)
                    (walk_of env fuel item target_root).1) gdrive_items →
  ∃ manifests,
    Forall2 (λ item manifest,
               mapM (entry_of target_root) (walk_of env fuel item target_root).1
               = Some manifest) gdrive_items manifests
    ∧ persisted target_root w' = manifest_after (persisted target_root w) manifests.
Proof.
  intros Hrun Hok Hall. revert w Hrun Hok.
  induction Hall as [|item rest Hitem _ IH]; intros w Hrun Hok;
    cbn [gdrive_folders] in Hrun.
  - rewrite run_ret in Hrun. injection Hrun as <-. by exists [].
  - rewrite run_bind in Hrun.
    destruct (run (_download_gdrive_folder _ _ _ _ _ _) w) as [[[]|e|] w1] eqn:Hfolder;
      [|done..].
    destruct (persisted_after_folder self env _ _ _ _ _ _ Hfolder Hok Hitem)
      as (entries & Hmap & Hp & Hden).
    destruct (IH w1 Hrun) as (manifests & HF2 & Hrest); [by rewrite Hden|].
    exists (entries :: manifests). split; [by constructor|].
    rewrite Hrest. cbn [manifest_after foldl]. rewrite Hp. by destruct entries.
Qed.

End HttpFrame.

(** C2, as the code has it.  There is no manifest of the whole run: each
    Drive folder builds a manifest of its own and writes it to
    [target_root/.manifest.json] when its enumeration ends, over whatever
    an earlier folder wrote.  After a [download_all] that returned, with
    the manifest path writable and no enumerated file aimed at it, the
    file is what the last folder with a non-empty enumeration wrote, or,
    when every folder was empty, what was there when the Drive loop
    began. *)
Theorem each_folder_rewrites_manifest `{Hashlib} `{Urllib}
    self env fuel overwrite s w w' :
  let target_root := output_dir (config self) // s in
  let gdrive_items := List.filter (is_kind gdrive_folder) (items (config self)) in
  subdir (config self) = VScalar (SStr s) →
  run (download_all self env fuel overwrite) w = (Return tt, w') →
  target_root // MANIFEST_NAME ∉ denied (fs w) →
  Forall (λ item, Forall (λ y, y.2 ≠ target_root // MANIFEST_NAME)
                    (walk_of env fuel item target_root).1) gdrive_items →
  ∃ w_http manifests,
    run (gdrive_folders self env fuel gdrive_items target_root overwrite) w_http
    = (Return tt, w')
    ∧ (List.filter (is_kind http_file) (items (config self)) = [] → fs w_http = fs w)
    ∧ Forall2 (λ item manifest,
                 mapM (entry_of target_root) (walk_of env fuel item target_root).1
                 = Some manifest) gdrive_items manifests
    ∧ persisted target_root w' = manifest_after (persisted target_root w_http) manifests.
Proof.
  intros target_root gdrive_items Hs Hrun Hok Hall.
  rewrite (run_download_all self env fuel overwrite s w Hs) in Hrun.
  fold target_root gdrive_items in Hrun. rewrite run_bind in Hrun.
  destruct (run (match List.filter (is_kind http_file) (items (config self)) with
                 | [] => mret tt
                 | _ => _ end) (logged w INFO download_all_log))
    as [[[]|e|] w_http] eqn:Hhttp; [|done..].
  assert (Hden : denied (fs w_http) = denied (fs w)).
  { destruct (List.filter (is_kind http_file) (items (config self))).
    - rewrite run_ret in Hhttp. by injection Hhttp as <-.
    - pose proof (same_denied_download_http_files self env (d :: l) target_root
                    overwrite (logged w INFO download_all_log)) as Hd.
      by rewrite Hhttp in Hd. }
  destruct (persisted_after_gdrive_folders self env _ _ _ _ _ _ Hrun)
    as (manifests & HF2 & Hp); [by rewrite Hden|done|].
  exists w_http, manifests. split; [done|]. split; [|done].
  intros Hnone. rewrite Hnone, run_ret in Hhttp. by injection Hhttp as <-.
Qed.

(** Folders [F] and [G], one file each: after the run the manifest file
    holds the entry of [G] alone. *)
Lemma each_folder_rewrites_manifest_witness :
  let r := run (download_all (Sample.normal [Sample.folder "F"; Sample.folder "G"])
                  (Sample.remote_with Sample.two_listing Sample.abc_media) 8 false)
               Sample.empty_world in
  r.1 = Return tt
  ∧ persisted Sample.target_root r.2
    = Some (encode_utf8 (Json.dumps
              [ mkEntry "ID2" "b.pdf" (Some Sample.md5_abc) (Some 3) ])).
Proof.
  cbv zeta. split; [vm_compute; reflexivity|].
  edestruct (each_folder_rewrites_manifest
               (Sample.normal [Sample.folder "F"; Sample.folder "G"])
               (Sample.remote_with Sample.two_listing Sample.abc_media) 8 false "ds"
               Sample.empty_world)
    as (w_http & manifests & _ & Hfs & HF2 & Hp).
  - reflexivity.
  - apply surjective_pairing_return. vm_compute. reflexivity.
  - apply not_elem_of_empty.
  - (constructor; [|constructor; [|constructor]]);
      vm_compute; repeat (constructor; [discriminate|]); constructor.
  - refine (eq_trans Hp _). unfold persisted. rewrite (Hfs eq_refl).
    apply Forall2_cons_inv_l in HF2 as (m1 & ms1 & H1 & HF2 & ->).
    apply Forall2_cons_inv_l in HF2 as (m2 & ms2 & H2 & HF2 & ->).
    apply Forall2_nil_inv_l in HF2 as ->.
    vm_compute in H1. vm_compute in H2.
    injection H1 as <-. injection H2 as <-. vm_compute. reflexivity.
Defined.

(** C2, as stated, fails: with two Drive folders the run succeeds and the
    manifest it leaves lists the second folder only; it is not the
    manifest of the entries of both. *)
Lemma second_folder_overwrites_first_manifest :
  let env := Sample.remote_with Sample.two_listing Sample.abc_media in
  let r := run (download_all (Sample.normal [Sample.folder "F"; Sample.folder "G"])
                  env 8 false) Sample.empty_world in
  let in_f := mkEntry "ID1" "a.pdf" (Some Sample.md5_abc) (Some 3) in
  let in_g := mkEntry "ID2" "b.pdf" (Some Sample.md5_abc) (Some 3) in
  mapM (entry_of Sample.target_root)
    (walk_of env 8 (Sample.folder "F") Sample.target_root).1 = Some [in_f]
  ∧ mapM (entry_of Sample.target_root)
      (walk_of env 8 (Sample.folder "G") Sample.target_root).1 = Some [in_g]
  ∧ r.1 = Return tt
  ∧ persisted Sample.target_root r.2 = Some (encode_utf8 (Json.dumps [in_g]))
  ∧ persisted Sample.target_root r.2 ≠ Some (encode_utf8 (Json.dumps [in_f; in_g])).
Proof. vm_compute. repeat split; try reflexivity. discriminate. Qed.

(** ** HTTP file names *)

(** C9, as the code has it.  For an [http_file] item with a URL and no
    explicit filename, the name is the last segment of the URL's path
    after percent-decoding, [Path(unquote(urlparse(url).path)).name].
    When that name is empty [_download_http_file] raises [ValueError]
    before touching the disk: the error belongs to the download.  The
    config loader does not look at the name: it accepts every
    [http_file] mapping that has a URL. *)
Theorem filename_inferred_when_downloading `{Urllib}
    env item u path target_root overwrite w :
  url item = SStr u → u ≠ "" →
  truthy_scalar (filename item) = false →
  urlparse_path u = inr path →
  let name := PurePath.name (PurePath.parse (unquote path)) in
  (name ≠ "" → run (determine_filename item) w = (Return (SStr name), w))
  ∧ (name = "" →
     run (_download_http_file env item target_root overwrite) w
     = (Raise (ValueError "Cannot infer filename from URL"), w))
  ∧ (∀ kv,
       default (SStr "http_file") (dict_get "kind" kv) = SStr "http_file" →
       dict_get "url" kv = Some (SStr u) →
       parse_item (EMap kv)
       = inr {| kind := http_file; url := SStr u;
                filename := default SNone (dict_get "filename" kv);
                folder_id := SNone; recursive := false |}).
Proof.
  intros Hurl Hu Hfn Hpath name.
  assert (Htruthy : truthy_scalar (SStr u) = true) by (by destruct u).
  assert (Hinf : inferred_filename u = inr name).
  { unfold inferred_filename. by rewrite Hpath. }
  split; [|split].
  - intros Hname. unfold determine_filename. rewrite Hfn, Hurl, run_bind, Hinf.
    simpl lift. rewrite run_ret. by destruct name.
  - intros Hname. unfold _download_http_file, determine_filename.
    rewrite Hurl, Htruthy, Hfn. simpl negb. cbv iota.
    rewrite run_bind, run_bind, Hinf. simpl lift. rewrite run_ret, Hname. done.
  - intros kv Hkind Hget. unfold parse_item. rewrite Hkind, Hget.
    rewrite bool_decide_eq_true_2 by done. simpl default. by rewrite Htruthy.
Qed.

(** The last segment is taken after decoding: [c%2Fd.pdf] gives [d.pdf]. *)
Lemma filename_inferred_when_downloading_witness :
  run (determine_filename (Sample.http "https://host/a%20b/c%2Fd.pdf?x=1#f"))
      Sample.empty_world
  = (Return (SStr "d.pdf"), Sample.empty_world).
Proof.
  refine (proj1 (filename_inferred_when_downloading
                   (Sample.remote_with Sample.no_listing Sample.no_media)
                   (Sample.http "https://host/a%20b/c%2Fd.pdf?x=1#f")
                   "https://host/a%20b/c%2Fd.pdf?x=1#f" "/a%20b/c%2Fd.pdf"
                   Sample.target_root false Sample.empty_world
                   eq_refl _ eq_refl eq_refl) _); discriminate.
Defined.

(** C9, as stated, fails: a config whose [http_file] item has the URL
    [https://host/] and no filename has no derivable name, and yet it
    loads without a validation failure.  The error is raised by the
    download; a run that skips HTTP downloads never reports it. *)
Lemma underivable_name_passes_validation :
  let env := Sample.remote_with Sample.no_listing Sample.no_media in
  let item := Sample.http "https://host/" in
  inferred_filename "https://host/" = inr ""
  ∧ (∃ cfg, _load_config (Some Sample.root_url_document) None = inr cfg
            ∧ items cfg = [item])
  ∧ run (_download_http_file env item Sample.target_root false) Sample.empty_world
    = (Raise (ValueError "Cannot infer filename from URL"), Sample.empty_world)
  ∧ (run (download_all (Sample.listing_only [item]) env 8 false) Sample.empty_world).1
    = Return tt.
Proof.
  cbv zeta. split; [reflexivity|]. split; [eexists; split; reflexivity|].
  split; vm_compute; reflexivity.
Qed.

(** ** Drive walker *)

Lemma pop_push (stack : list Frame) (frame : Frame) :
  pop (stack ++ [frame]) = Some (frame, stack).
Proof. unfold pop. by rewrite reverse_snoc, reverse_involutive. Qed.

Lemma pop_nil : pop [] = None.
Proof. done. Qed.

Lemma yield_first_nil w : yield_first [] w = w.
Proof. by destruct w. Qed.

Lemma yield_first_app ys1 ys2 w :
  yield_first ys1 (yield_first ys2 w) = yield_first (ys1 ++ ys2) w.
Proof. unfold yield_first. simpl. by rewrite app_assoc. Qed.

Lemma visit_child_cases recursive local file_item :
  visit_child recursive local file_item
  = if is_folder file_item then
      if recursive
      then Push (item_id file_item) (local // child_name file_item)
      else Ignore
    else
      match child_size file_item with
      | inr size =>
          Yield {| meta_id := item_id file_item;
                   meta_name := child_name file_item;
                   meta_mimeType := item_mimeType file_item;
                   meta_md5Checksum := item_md5Checksum file_item;
                   meta_size := size |}
                (local // child_name file_item)
      | inl e => Fail e
      end.
Proof. unfold visit_child. destruct (is_folder file_item), recursive; done. Qed.

(** A page without a failing child: its files are yielded in order and
    its subfolders are pushed in order. *)
Lemma visit_page_ok recursive local children stack :
  existsb (λ child, is_fail (visit_child recursive local child)) children = false →
  visit_page recursive local children stack
  = (files_of recursive local children,
     inr (stack ++ subfolders_of recursive local children)).
Proof.
  revert stack. induction children as [|child rest IH]; intros stack Hok.
  - simpl. by rewrite app_nil_r.
  - cbn [existsb] in Hok. apply orb_false_elim in Hok as [Hchild Hrest].
    cbn [visit_page]. unfold files_of, subfolders_of. cbn [flat_map].
    fold (files_of recursive local rest). fold (subfolders_of recursive local rest).
    destruct (visit_child recursive local child); try done; cbn [yielded_by pushed_by].
    + rewrite IH by done. by rewrite <- app_assoc.
    + by rewrite IH.
    + by rewrite IH.
Qed.

(** Steps through [x ← Some a; ...] in a hypothesis. *)
Ltac option_step H := unfold mbind, option_bind in H; cbv beta iota in H.

Section WalkFacts.
Variable env : Remote.

(** Requests go to the current folder, with the token of the page
    before. *)
Lemma walk_loop_page fuel recursive page_size stack folder local page_token response :
  drive_list env (list_request folder page_token page_size) = inr response →
  existsb (λ child, is_fail (visit_child recursive local child))
          (default [] (resp_files response)) = false →
  walk_loop env (S fuel) recursive page_size stack
    (Some ((folder, local), page_token))
  = yield_first (files_of recursive local (default [] (resp_files response)))
      (walk_loop env fuel recursive page_size
         (stack ++ subfolders_of recursive local (default [] (resp_files response)))
         (if truthy (resp_nextPageToken response)
          then Some ((folder, local), resp_nextPageToken response)
          else None)).
Proof.
  intros Hresp Hok. cbn [walk_loop]. rewrite Hresp.
  by rewrite (visit_page_ok _ _ _ _ Hok).
Qed.

Lemma walk_loop_pop fuel recursive page_size stack frame :
  walk_loop env (S fuel) recursive page_size (stack ++ [frame]) None
  = walk_loop env fuel recursive page_size stack (Some (frame, None)).
Proof. cbn [walk_loop]. by rewrite pop_push. Qed.

Lemma existsb_app_false {A} (f : A → bool) l1 l2 :
  existsb f (l1 ++ l2) = false → existsb f l1 = false ∧ existsb f l2 = false.
Proof. rewrite existsb_app. apply orb_false_elim. Qed.

(** Paginating one folder: its files come out in order and its
    subfolders end up on top of the stack. *)
Lemma walk_loop_folder pages recursive folder local :
  ∀ page_token children stack,
    all_children env pages folder page_token = Some children →
    existsb (λ child, is_fail (visit_child recursive local child)) children = false →
    ∃ n, ∀ k,
      walk_loop env (n + k) recursive 1000 stack (Some ((folder, local), page_token))
      = yield_first (files_of recursive local children)
          (walk_loop env k recursive 1000
             (stack ++ subfolders_of recursive local children) None).
Proof.
  induction pages as [|pages IH]; intros page_token children stack Hall Hok; [done|].
  cbn [all_children] in Hall.
  destruct (drive_list env (list_request folder page_token 1000)) as [e|response] eqn:Hresp;
    [done|].
  destruct (truthy (resp_nextPageToken response)) eqn:Hnext.
  - destruct (all_children env pages folder (resp_nextPageToken response))
      as [more|] eqn:Hmore; [|done].
    option_step Hall. injection Hall as <-. apply existsb_app_false in Hok as [Hhere Hrest].
    destruct (IH _ _ (stack ++ subfolders_of recursive local
                                 (default [] (resp_files response))) Hmore Hrest)
      as (n & Hn).
    exists (S n). intros k. cbn [Nat.add].
    rewrite (walk_loop_page _ _ _ _ _ _ _ _ Hresp Hhere), Hnext, Hn.
    rewrite yield_first_app. unfold files_of, subfolders_of.
    by rewrite !flat_map_app, <- app_assoc.
  - injection Hall as <-. exists 1%nat. intros k. cbn [Nat.add].
    by rewrite (walk_loop_page _ _ _ _ _ _ _ _ Hresp Hok), Hnext.
Qed.

(** The walker with [frame] on top of its stack does what the recursive
    traversal does from [frame], then goes on with the rest of the
    stack. *)
Lemma walk_loop_depth_first depth pages recursive :
  ∀ frame ys stack,
    depth_first env depth pages recursive frame = Some ys →
    ∃ n, ∀ k,
      walk_loop env (n + k) recursive 1000 (stack ++ [frame]) None
      = yield_first ys (walk_loop env k recursive 1000 stack None).
Proof.
  induction depth as [|depth IH]; intros [folder local] ys stack Hdfs; [done|].
  cbn [depth_first] in Hdfs. simpl fst in Hdfs. simpl snd in Hdfs.
  destruct (all_children env pages folder None) as [children|] eqn:Hall; [|done].
  option_step Hdfs.
  destruct (existsb _ children) eqn:Hok; [done|].
  destruct (mapM _ _) as [below|] eqn:Hbelow; [|done].
  option_step Hdfs. injection Hdfs as <-.
  destruct (walk_loop_folder pages recursive folder local None children stack Hall Hok)
    as (n1 & Hn1).
  assert (Hsubs : ∀ subs below,
    mapM (depth_first env depth pages recursive) (reverse subs) = Some below →
    ∃ n, ∀ k,
      walk_loop env (n + k) recursive 1000 (stack ++ subs) None
      = yield_first (concat below) (walk_loop env k recursive 1000 stack None)).
  { clear -IH. intros subs. induction subs as [|sub subs IHs] using rev_ind; intros below Hm.
    - injection Hm as <-. exists 0%nat. intros k.
      by rewrite app_nil_r, yield_first_nil.
    - rewrite reverse_snoc in Hm. cbn [mapM] in Hm.
      destruct (depth_first env depth pages recursive sub) as [ys|] eqn:Hsub; [|done].
      option_step Hm.
      destruct (mapM _ (reverse subs)) as [rest|] eqn:Hrest; [|done].
      option_step Hm. injection Hm as <-.
      destruct (IH sub ys (stack ++ subs) Hsub) as (n & Hn).
      destruct (IHs rest eq_refl) as (m & Hm).
      exists (n + m)%nat. intros k. rewrite app_assoc, <- Nat.add_assoc, Hn, Hm.
      by rewrite yield_first_app. }
  destruct (Hsubs _ _ Hbelow) as (n2 & Hn2).
  exists (S (n1 + n2)). intros k. cbn [Nat.add].
  rewrite walk_loop_pop, <- Nat.add_assoc, Hn1, Hn2. by rewrite yield_first_app.
Qed.

End WalkFacts.

(** C6.  The walker is a depth-first traversal driven by an explicit
    stack.  (1) It starts from the stack [[(folder_id, local_root)]], and
    [pop] takes the frame pushed last.  (2) Every listing call asks for
    the non-trashed children of the current folder, with the page token
    of the page before, and a page without a failing child yields its
    files and pushes its subfolders.  (3) What is done with one child: a
    folder is pushed as [(child.id, local / name)] and not yielded when
    [recursive] holds and ignored when it does not; anything else is
    yielded as metadata with [local / name], where [name] is the child's
    name, or its id when it has none.  (4) Whenever the recursive
    depth-first traversal of the tree has a result, the walker, given
    enough fuel, ends normally having yielded exactly that. *)
Theorem walk_folder_is_depth_first env :
  (∀ fuel folder_id local_root recursive,
     _walk_folder env fuel folder_id local_root recursive
     = walk_loop env fuel recursive 1000 [(folder_id, local_root)] None)
  ∧ (∀ stack frame, pop (stack ++ [frame]) = Some (frame, stack))
  ∧ (∀ folder page_token page_size,
       req_q (list_request folder page_token page_size)
       = "'" +:+ folder +:+ "' in parents and trashed = false"
       ∧ req_pageToken (list_request folder page_token page_size) = page_token)
  ∧ (∀ fuel recursive page_size stack folder local page_token response,
       drive_list env (list_request folder page_token page_size) = inr response →
       existsb (λ child, is_fail (visit_child recursive local child))
               (default [] (resp_files response)) = false →
       walk_loop env (S fuel) recursive page_size stack
         (Some ((folder, local), page_token))
       = yield_first (files_of recursive local (default [] (resp_files response)))
           (walk_loop env fuel recursive page_size
              (stack ++ subfolders_of recursive local (default [] (resp_files response)))
              (if truthy (resp_nextPageToken response)
               then Some ((folder, local), resp_nextPageToken response)
               else None)))
  ∧ (∀ recursive local file_item,
       visit_child recursive local file_item
       = if is_folder file_item then
           if recursive
           then Push (item_id file_item) (local // child_name file_item)
           else Ignore
         else
           match child_size file_item with
           | inr size =>
               Yield {| meta_id := item_id file_item;
                        meta_name := child_name file_item;
                        meta_mimeType := item_mimeType file_item;
                        meta_md5Checksum := item_md5Checksum file_item;
                        meta_size := size |}
                     (local // child_name file_item)
           | inl e => Fail e
           end)
  ∧ (∀ depth pages recursive folder_id local_root ys,
       depth_first env depth pages recursive (folder_id, local_root) = Some ys →
       ∃ fuel, _walk_folder env fuel folder_id local_root recursive = (ys, WalkDone)).
Proof.
  split; [done|]. split; [apply pop_push|]. split; [done|].
  split; [apply walk_loop_page|]. split; [apply visit_child_cases|].
  intros depth pages recursive folder_id local_root ys Hdfs.
  destruct (walk_loop_depth_first env depth pages recursive _ _ [] Hdfs) as (n & Hn).
  exists (n + 1)%nat. unfold _walk_folder. specialize (Hn 1%nat).
  simpl app in Hn. rewrite Hn. cbn [walk_loop]. rewrite pop_nil.
  unfold yield_first. simpl. by rewrite app_nil_r.
Qed.

(** The tree under [R]: the file of [R], then [B] (listed last) with its
    two pages, then [A]. *)
Lemma walk_folder_is_depth_first_witness :
  ∃ fuel,
    _walk_folder (Sample.remote_with Sample.tree_listing Sample.no_media) fuel "R"
      Sample.target_root true
    = ([ (Sample.meta_of "f1" "a.pdf", Sample.target_root // "a.pdf");
         (Sample.meta_of "f3" "y1.pdf", Sample.target_root // "B" // "y1.pdf");
         (Sample.meta_of "f4" "y2.pdf", Sample.target_root // "B" // "y2.pdf");
         (Sample.meta_of "f2" "x.pdf", Sample.target_root // "A" // "x.pdf") ],
       WalkDone).
Proof.
  apply (proj2 (proj2 (proj2 (proj2 (proj2
           (walk_folder_is_depth_first
              (Sample.remote_with Sample.tree_listing Sample.no_media))))))
           2%nat 2%nat true "R" Sample.target_root).
  vm_compute. reflexivity.
Defined.

(* ===================================================================== *)
(** * Further properties of the code                                   *)
(* ===================================================================== *)
(* ===================================================================== *)
(** * Temporary names                                                    *)
(* ===================================================================== *)

Lemma str_take_drop i (n : string) :
  PurePath.str_take i n +:+ PurePath.str_drop i n = n.
Proof.
  revert n. induction i as [|i IH]; intros n; [done|].
  destruct n as [|c n]; [done|].
  cbn [PurePath.str_take PurePath.str_drop].
  change (String c ?a +:+ ?b) with (String c (a +:+ b)). by rewrite IH.
Qed.

Lemma length_str_drop i (n : string) :
  String.length (PurePath.str_drop i n) = (String.length n - i)%nat.
Proof.
  revert n. induction i as [|i IH]; intros n; cbn [PurePath.str_drop].
  - lia.
  - destruct n as [|c n]; [done|]. cbn [String.length]. rewrite IH. lia.
Qed.

Lemma rfind_dot_lt (n : string) i :
  PurePath.rfind_dot n = Some i → (i < String.length n)%nat.
Proof.
  revert i. induction n as [|c n IH]; intros i; cbn [PurePath.rfind_dot]; [done|].
  destruct (PurePath.rfind_dot n) as [j|].
  - intros [= <-]. specialize (IH j eq_refl). cbn [String.length]. lia.
  - destruct (Ascii.eqb c "."); [|done]. intros [= <-]. cbn [String.length]. lia.
Qed.

Lemma rfind_dot_drop (n : string) i :
  PurePath.rfind_dot n = Some i → ∃ rest, PurePath.str_drop i n = String "." rest.
Proof.
  revert i. induction n as [|c n IH]; intros i; cbn [PurePath.rfind_dot]; [done|].
  destruct (PurePath.rfind_dot n) as [j|].
  - intros [= <-]. cbn [PurePath.str_drop]. by apply IH.
  - destruct (Ascii.eqb c ".") eqn:Hc; [|done]. intros [= <-].
    apply Ascii.eqb_eq in Hc as ->. by exists n.
Qed.

Lemma has_sep_app (a b : string) :
  PurePath.has_sep (a +:+ b) = PurePath.has_sep a || PurePath.has_sep b.
Proof.
  induction a as [|c a IH]; [done|].
  change (String c a +:+ b) with (String c (a +:+ b)).
  cbn [PurePath.has_sep]. by rewrite IH, orb_assoc.
Qed.

Lemma has_sep_str_drop i (n : string) :
  PurePath.has_sep n = false → PurePath.has_sep (PurePath.str_drop i n) = false.
Proof.
  intros Hn. rewrite <- (str_take_drop i n), has_sep_app in Hn.
  by apply orb_false_elim in Hn as [_ ?].
Qed.

Lemma str_length_app (a b : string) :
  String.length (a +:+ b) = (String.length a + String.length b)%nat.
Proof.
  induction a as [|c a IH]; [done|].
  change (String c a +:+ b) with (String c (a +:+ b)). cbn [String.length]. by rewrite IH.
Qed.

(** The suffix is an end of the name: it is empty, or starts with a dot
    and is what the name loses when cut at [length name - length suffix]. *)
Lemma suffix_cases p :
  PurePath.suffix p = ""
  ∨ ∃ rest,
      PurePath.suffix p = String "." rest
      ∧ PurePath.str_take (String.length (PurePath.name p)
                           - String.length (PurePath.suffix p)) (PurePath.name p)
        +:+ PurePath.suffix p = PurePath.name p.
Proof.
  unfold PurePath.suffix.
  destruct (PurePath.rfind_dot (PurePath.name p)) as [i|] eqn:Hi; [|by left].
  destruct ((0 <? i)%nat && (i <? String.length (PurePath.name p) - 1)%nat); [|by left].
  right. destruct (rfind_dot_drop _ _ Hi) as [rest Hrest]. exists rest. split; [done|].
  rewrite length_str_drop. apply rfind_dot_lt in Hi.
  replace (String.length (PurePath.name p) - (String.length (PurePath.name p) - i))%nat
    with i by lia.
  apply str_take_drop.
Qed.

Lemma has_sep_suffix p :
  PurePath.has_sep (PurePath.name p) = false → PurePath.has_sep (PurePath.suffix p) = false.
Proof.
  intros Hn. unfold PurePath.suffix.
  destruct (PurePath.rfind_dot (PurePath.name p)); [|done].
  destruct (_ && _); [|done]. by apply has_sep_str_drop.
Qed.

Lemma prefix_dot (rest : string) : String.prefix "." (String "." rest) = true.
Proof. simpl. destruct (ascii_dec "." ".") as [_|Hne]; [by destruct rest|done]. Qed.

(** [p.with_suffix(p.suffix + "." + more)] appends to the name. *)
Lemma with_suffix_grow p (more : string) :
  more ≠ "" →
  PurePath.with_suffix p (PurePath.suffix p +:+ String "." more)
  = if PurePath.has_sep (PurePath.suffix p) || PurePath.has_sep more
    then inl (ValueError "Invalid suffix")
    else if negb (truthy_str (PurePath.name p)) then inl (ValueError "has an empty name")
    else inr (PurePath.mk (PurePath.root p)
                (List.removelast (PurePath.parts p)
                 ++ [PurePath.name p +:+ String "." more])).
Proof.
  intros Hmore. unfold PurePath.with_suffix. rewrite has_sep_app.
  change (PurePath.has_sep (String "." more)) with (PurePath.has_sep more).
  destruct (PurePath.has_sep (PurePath.suffix p) || PurePath.has_sep more); [done|].
  destruct (suffix_cases p) as [Hs|(rest & Hs & Hcut)].
  - rewrite Hs. change ("" +:+ String "." more) with (String "." more).
    rewrite prefix_dot. cbn [truthy_str].
    replace (String.eqb (String "." more) ".") with (String.eqb more "") by done.
    destruct (String.eqb more "") eqn:Hm.
    + by apply String.eqb_eq in Hm.
    + done.
  - rewrite Hs in Hcut |- *.
    change (String "." rest +:+ String "." more) with (String "." (rest +:+ String "." more)).
    rewrite prefix_dot. cbn [truthy_str].
    assert (String.eqb (String "." (rest +:+ String "." more)) "." = false) as ->.
    { apply String.eqb_neq. intros [= Heq]. by destruct rest. }
    cbn [andb orb negb].
    destruct (truthy_str (PurePath.name p)); [|done]. cbn [negb].
    do 3 f_equal.
    change (String "." (rest +:+ String "." more))
      with (String "." rest +:+ String "." more).
    by rewrite <- str_app_assoc, Hcut.
Qed.

Lemma app_inv_head_str (a b c : string) : a +:+ b = a +:+ c → b = c.
Proof.
  induction a as [|ch a IH]; [done|].
  change (String ch a +:+ ?x) with (String ch (a +:+ x)). intros [= Heq]. by apply IH.
Qed.

Lemma app_ne_self (a b : string) : b ≠ "" → a +:+ b ≠ a.
Proof.
  intros Hb Heq. apply (f_equal String.length) in Heq. rewrite str_length_app in Heq.
  destruct b; [done|]. cbn [String.length] in Heq. lia.
Qed.

Lemma name_snoc root parts (n : string) :
  PurePath.name (PurePath.mk root (parts ++ [n])) = n.
Proof. unfold PurePath.name. cbn [PurePath.parts]. apply List.last_last. Qed.

Lemma parent_snoc root parts (n : string) :
  PurePath.parent (PurePath.mk root (parts ++ [n])) = PurePath.mk root parts.
Proof.
  unfold PurePath.parent. cbn [PurePath.parts PurePath.root].
  by rewrite List.removelast_last.
Qed.

(** The temporary name of a Drive download, case by case. *)
Lemma part_path_cases dest file_id :
  part_path dest file_id
  = if PurePath.has_sep (PurePath.suffix dest) || PurePath.has_sep file_id
    then inl (ValueError "Invalid suffix")
    else if negb (truthy_str (PurePath.name dest))
    then inl (ValueError "has an empty name")
    else inr (PurePath.mk (PurePath.root dest)
                (List.removelast (PurePath.parts dest)
                 ++ [PurePath.name dest +:+ ".part." +:+ file_id])).
Proof.
  unfold part_path.
  change (".part." +:+ file_id) with (String "." ("part." +:+ file_id)).
  rewrite with_suffix_grow by done.
  by rewrite (has_sep_app "part." file_id).
Qed.

Lemma part_path_inr dest file_id tmp :
  part_path dest file_id = inr tmp →
  tmp = PurePath.mk (PurePath.root dest)
          (List.removelast (PurePath.parts dest)
           ++ [PurePath.name dest +:+ ".part." +:+ file_id])
  ∧ PurePath.name dest ≠ "".
Proof.
  rewrite part_path_cases. destruct (_ || _); [done|].
  destruct (PurePath.name dest) eqn:Hn; [done|]. cbn [truthy_str negb].
  by intros [= <-].
Qed.

Lemma part_path_ne_dest dest file_id tmp : part_path dest file_id = inr tmp → tmp ≠ dest.
Proof.
  intros [-> Hn]%part_path_inr Heq. apply (f_equal PurePath.name) in Heq.
  rewrite name_snoc in Heq. by apply app_ne_self in Heq.
Qed.

(** X1: the temporary file of a Drive download lies beside its
    destination, its name is the destination's name followed by [.part.]
    and the file id, it is never the destination itself, and two
    different file ids never share a temporary file for one destination. *)
Theorem part_path_beside_destination dest file_id tmp :
  part_path dest file_id = inr tmp →
  PurePath.parent tmp = PurePath.parent dest
  ∧ PurePath.name tmp = PurePath.name dest +:+ ".part." +:+ file_id
  ∧ tmp ≠ dest
  ∧ ∀ other tmp', part_path dest other = inr tmp' → other ≠ file_id → tmp' ≠ tmp.
Proof.
  intros Hp. pose proof (part_path_ne_dest _ _ _ Hp) as Hne.
  destruct (part_path_inr _ _ _ Hp) as [-> Hn].
  rewrite parent_snoc, name_snoc. split; [|split; [done|split; [done|]]].
  - reflexivity.
  - intros other tmp' [-> _]%part_path_inr Hother [= Heq].
    apply app_inv_head in Heq. injection Heq as Heq.
    apply app_inv_head_str in Heq. by apply (app_inv_head_str ".part.") in Heq.
Qed.

Lemma part_path_beside_destination_witness :
  PurePath.parent Sample.x_pdf_part = PurePath.parent Sample.x_pdf
  ∧ PurePath.name Sample.x_pdf_part = "x.pdf.part.ID1"
  ∧ Sample.x_pdf_part ≠ Sample.x_pdf.
Proof.
  destruct (part_path_beside_destination Sample.x_pdf "ID1" Sample.x_pdf_part)
    as (Hparent & Hname & Hne & _); [reflexivity|].
  split; [exact Hparent|]. split; [exact Hname|exact Hne].
Defined.

(* ===================================================================== *)
(** * A Drive download that goes through                                 *)
(* ===================================================================== *)

Lemma run_open_wb p w :
  run (open_wb p) w
  = if bool_decide (p ∈ denied (fs w)) then (Raise (OSError "Permission denied"), w)
    else (Return tt, with_files w (<[p := []]> (files (fs w)))).
Proof.
  unfold open_wb, with_files. rewrite run_bind. simpl.
  by destruct (bool_decide (p ∈ denied (fs w))).
Qed.

Lemma run_fh_write p data w :
  run (fh_write p data) w
  = (Return tt,
     with_files w (<[p := default [] (files (fs w) !! p) ++ data]> (files (fs w)))).
Proof. reflexivity. Qed.

Lemma run_replace src dst w :
  run (replace src dst) w
  = match files (fs w) !! src with
    | None => (Raise (FileNotFoundError "No such file or directory"), w)
    | Some data =>
        if bool_decide (dst ∈ denied (fs w)) then (Raise (OSError "Permission denied"), w)
        else (Return tt, with_files w (<[dst := data]> (delete src (files (fs w)))))
    end.
Proof.
  unfold replace, with_files. rewrite run_bind. simpl.
  destruct (files (fs w) !! src); [|done].
  by destruct (bool_decide (dst ∈ denied (fs w))).
Qed.

Lemma run_lift {A} (r : Exn + A) w :
  run (lift r) w = (match r with inl e => Raise e | inr a => Return a end, w).
Proof. by destruct r. Qed.

(** The chunk loop appends every chunk to the open file, then ends as the
    transfer does. *)
Lemma run_next_chunks tmp chunks failure :
  ∀ w held,
    files (fs w) !! tmp = Some held →
    ∃ w', run (next_chunks tmp chunks failure) w
          = (match failure with Some e => Raise e | None => Return tt end, w')
          ∧ fs w' = mkFS (<[tmp := held ++ concat chunks]> (files (fs w)))
                         (denied (fs w)).
Proof.
  induction chunks as [|chunk rest IH]; intros w held Hheld; cbn [next_chunks concat].
  - exists (match failure with
            | Some (HttpError _) =>
                logged w ERROR "HTTP error while downloading %s (%s): %s"
            | _ => w
            end).
    rewrite app_nil_r, insert_id, fs_eta by done.
    by destruct failure as [[]|].
  - rewrite run_bind, run_fh_write, run_bind, run_logger, Hheld. cbn [default].
    edestruct (IH (logged (with_files w (<[tmp := held ++ chunk]> (files (fs w))))
                     DEBUG "Drive download %s: %.2f%% complete") (held ++ chunk))
      as (w' & Hrun & Hfs).
    { cbn. by rewrite lookup_insert_eq. }
    exists w'. split; [exact Hrun|].
    rewrite Hfs. cbn. by rewrite insert_insert_eq, app_assoc.
Qed.

(** The guarded transfer, outcome by outcome. *)
Lemma run_transfer env file_id tmp dest w :
  tmp ≠ dest →
  ∃ w',
    run (transfer env file_id tmp dest) w
    = (match drive_service env with
       | inl e => Raise e
       | inr _ =>
           if bool_decide (tmp ∈ denied (fs w)) then Raise (OSError "Permission denied")
           else
             match media_failure (drive_media env file_id) with
             | Some e => Raise e
             | None =>
                 if bool_decide (dest ∈ denied (fs w))
                 then Raise (OSError "Permission denied")
                 else Return tt
             end
       end, w')
    ∧ denied (fs w') = denied (fs w)
    ∧ (drive_service env = inr tt → tmp ∉ denied (fs w) → dest ∉ denied (fs w) →
       media_failure (drive_media env file_id) = None →
       files (fs w')
       = <[dest := concat (media_chunks (drive_media env file_id))]>
           (delete tmp (files (fs w)))).
Proof.
  intros Hne. unfold transfer, _get_drive_service.
  rewrite run_bind, run_lift.
  destruct (drive_service env) as [e|[]].
  { exists w. split; [done|]. split; [done|]. by intros [=]. }
  rewrite run_bind, run_open_wb.
  destruct (bool_decide (tmp ∈ denied (fs w))) eqn:Htmp.
  { exists w. split; [done|]. split; [done|]. intros _ Hn.
    by apply bool_decide_eq_true_1 in Htmp. }
  set (w0 := with_files w (<[tmp := []]> (files (fs w)))).
  destruct (run_next_chunks tmp (media_chunks (drive_media env file_id))
              (media_failure (drive_media env file_id)) w0 [])
    as (w1 & Hrun & Hfs1).
  { cbn. by rewrite lookup_insert_eq. }
  rewrite run_bind, Hrun. cbn [app] in Hfs1. cbn in Hfs1. rewrite insert_insert_eq in Hfs1.
  destruct (media_failure (drive_media env file_id)) as [e|].
  { exists w1. rewrite Hfs1. split; [done|]. split; [done|]. by intros _ _ _ [=]. }
  rewrite run_replace, Hfs1. cbn [files denied]. rewrite lookup_insert_eq.
  destruct (bool_decide (dest ∈ denied (fs w))) eqn:Hdest.
  { exists w1. rewrite Hfs1. split; [done|]. split; [done|]. intros _ _ Hn.
    by apply bool_decide_eq_true_1 in Hdest. }
  eexists. split; [reflexivity|]. cbn. split; [by rewrite Hfs1|]. intros _ _ _ _.
  by rewrite delete_insert_eq.
Qed.

Section GdriveSuccess.
Context `{Hashlib}.

Lemma run_verify_after self dest size md5 w :
  ∃ w', run (verify_after self dest size md5) w
        = ((if verify_downloads self
               && negb (verifier_rule true (files (fs w) !! dest) size md5)
            then Raise (RuntimeError "Verification failed for")
            else Return tt), w')
        ∧ fs w' = fs w.
Proof.
  unfold verify_after. destruct (verify_downloads self) eqn:Hv; cbn [andb].
  - destruct (run_verify_local_file self dest size md5 w) as (w1 & Hrun & Hfs).
    rewrite Hv in Hrun.
    rewrite run_bind, (run_bind_return _ _ _ _ _ Hrun), run_ret.
    destruct (verifier_rule true (files (fs w) !! dest) size md5); cbn [negb].
    + exists (logged w1 INFO "Saved %s"). by rewrite run_logger.
    + exists w1. by rewrite run_raise.
  - rewrite run_bind, run_ret. exists (logged w INFO "Saved %s"). by rewrite run_logger.
Qed.

(** X2: a Drive file download returns exactly when the client could be
    built, the temporary path and the destination are writable, the
    transfer ended without error and, with verification on, the bytes
    received pass the verifier.  The destination then holds the chunks
    received, in order, the temporary file is gone and no other file has
    changed. *)
Theorem gdrive_file_success self env file_id name dest md5 size tmp w :
  part_path dest file_id = inr tmp →
  let call := _download_gdrive_file self env file_id name dest md5 size in
  let data := concat (media_chunks (drive_media env file_id)) in
  let goes_through :=
    drive_service env = inr tt
    ∧ (tmp ∉ denied (fs w)) ∧ (dest ∉ denied (fs w))
    ∧ media_failure (drive_media env file_id) = None
    ∧ (verify_downloads self = true → verifier_rule true (Some data) size md5 = true) in
  ((run call w).1 = Return tt ↔ goes_through)
  ∧ (goes_through →
     fs (run call w).2
     = mkFS (<[dest := data]> (delete tmp (files (fs w)))) (denied (fs w))).
Proof.
  intros Htmp call data goes_through. subst call goes_through.
  pose proof (part_path_ne_dest _ _ _ Htmp) as Hne.
  rewrite (run_download_gdrive_file _ _ _ _ _ _ _ _ _ Htmp).
  set (w0 := logged w INFO "Downloading Drive file %s (%s) -> %s").
  destruct (run_transfer env file_id tmp dest w0 Hne) as (w1 & Ht & Hden & Hfiles).
  change (fs w0) with (fs w) in *.
  rewrite run_bind, Ht.
  destruct (drive_service env) as [e|[]].
  { split; [split; [done|by intros [[=] _]]|by intros [[=] _]]. }
  destruct (bool_decide (tmp ∈ denied (fs w))) eqn:Hd1.
  { apply bool_decide_eq_true_1 in Hd1.
    split; [split; [done|by intros (_ & ? & _)]|by intros (_ & ? & _)]. }
  apply bool_decide_eq_false_1 in Hd1.
  destruct (media_failure (drive_media env file_id)) as [e|].
  { split; [split; [done|by intros (_ & _ & _ & [=] & _)]|by intros (_ & _ & _ & [=] & _)]. }
  destruct (bool_decide (dest ∈ denied (fs w))) eqn:Hd2.
  { apply bool_decide_eq_true_1 in Hd2.
    split; [split; [done|by intros (_ & _ & ? & _)]|by intros (_ & _ & ? & _)]. }
  apply bool_decide_eq_false_1 in Hd2.
  specialize (Hfiles eq_refl Hd1 Hd2 eq_refl).
  destruct (run_verify_after self dest size md5 w1) as (w2 & Hv & Hfs2).
  rewrite Hv, Hfiles, lookup_insert_eq. fold data.
  assert (fs w2 = mkFS (<[dest := data]> (delete tmp (files (fs w)))) (denied (fs w)))
    as Hfinal.
  { unfold data. rewrite Hfs2, <- Hfiles, <- Hden. by rewrite fs_eta. }
  destruct (verify_downloads self); cbn [andb].
  - destruct (verifier_rule true (Some data) size md5); cbn [negb].
    + split; [split; [by intros _|done]|by intros _].
    + split; [split; [done|]|]; intros (_ & _ & _ & _ & Hok); by specialize (Hok eq_refl).
  - split; [split; [by intros _|done]|by intros _].
Qed.

End GdriveSuccess.

Lemma gdrive_file_success_witness :
  let r := run (_download_gdrive_file (Sample.normal [])
                  (Sample.remote_with Sample.no_listing Sample.abc_media)
                  "ID1" "x.pdf" Sample.x_pdf (Some Sample.md5_abc) (Some 3))
               Sample.empty_world in
  r.1 = Return tt
  ∧ fs r.2 = mkFS {[ Sample.x_pdf := encode_utf8 "abc" ]} ∅.
Proof.
  destruct (gdrive_file_success (Sample.normal [])
              (Sample.remote_with Sample.no_listing Sample.abc_media)
              "ID1" "x.pdf" Sample.x_pdf (Some Sample.md5_abc) (Some 3)
              Sample.x_pdf_part Sample.empty_world eq_refl) as [Hiff Hfs].
  assert (drive_service (Sample.remote_with Sample.no_listing Sample.abc_media) = inr tt
          ∧ (Sample.x_pdf_part ∉ denied (fs Sample.empty_world))
          ∧ (Sample.x_pdf ∉ denied (fs Sample.empty_world))
          ∧ media_failure (Sample.abc_media "ID1") = None
          ∧ (verify_downloads (Sample.normal []) = true →
             verifier_rule true (Some (concat (media_chunks (Sample.abc_media "ID1"))))
               (Some 3) (Some Sample.md5_abc) = true)) as Hok.
  { split; [reflexivity|]. split; [apply not_elem_of_empty|].
    split; [apply not_elem_of_empty|]. split; [reflexivity|]. intros _. vm_compute. reflexivity. }
  split; [exact (proj2 Hiff Hok)|].
  rewrite (Hfs Hok). cbn [fs files denied Sample.empty_world].
  by rewrite delete_empty.
Defined.

(** X3: the temporary name exists unless the destination has no name or
    the file id holds a slash.  In those two cases the call raises
    [ValueError] before its [try] block is entered: nothing is written or
    removed, and the handler's error record is not logged. *)
Theorem gdrive_file_bad_name_raises_early `{Hashlib}
    self env file_id name dest md5 size w :
  PurePath.has_sep (PurePath.name dest) = false →
  ((∃ tmp, part_path dest file_id = inr tmp)
   ↔ PurePath.name dest ≠ "" ∧ PurePath.has_sep file_id = false)
  ∧ (∀ e, part_path dest file_id = inl e →
       (e = ValueError "Invalid suffix" ∨ e = ValueError "has an empty name")
       ∧ run (_download_gdrive_file self env file_id name dest md5 size) w
         = (Raise e, logged w INFO "Downloading Drive file %s (%s) -> %s")).
Proof.
  intros Hwf. rewrite part_path_cases, (has_sep_suffix _ Hwf). cbn [orb].
  split.
  - destruct (PurePath.has_sep file_id).
    { split; [by intros [? [=]]|by intros [_ [=]]]. }
    destruct (PurePath.name dest) eqn:Hn; cbn [truthy_str negb].
    + split; [by intros [? [=]]|by intros [? _]].
    + split; [done|]. intros _. by eexists.
  - intros e He. split.
    + destruct (PurePath.has_sep file_id); [left; congruence|].
      destruct (negb _); [right; congruence|done].
    + unfold _download_gdrive_file, mkdir_parents.
      rewrite run_bind, run_logger, run_bind, run_ret, part_path_cases.
      rewrite (has_sep_suffix _ Hwf). cbn [orb]. by rewrite He.
Qed.

Lemma gdrive_file_bad_name_raises_early_witness :
  run (_download_gdrive_file (Sample.normal [])
         (Sample.remote_with Sample.no_listing Sample.abc_media)
         "a/b" "x.pdf" Sample.x_pdf None None) Sample.abc_world
  = (Raise (ValueError "Invalid suffix"),
     logged Sample.abc_world INFO "Downloading Drive file %s (%s) -> %s").
Proof.
  exact (proj2 (proj2 (gdrive_file_bad_name_raises_early (Sample.normal [])
                         (Sample.remote_with Sample.no_listing Sample.abc_media)
                         "a/b" "x.pdf" Sample.x_pdf None None Sample.abc_world eq_refl)
                  (ValueError "Invalid suffix") eq_refl)).
Defined.

(* ===================================================================== *)
(** * HTTP fetcher                                                       *)
(* ===================================================================== *)

Lemma http_part_inr dest tmp :
  PurePath.with_suffix dest (PurePath.suffix dest +:+ ".part") = inr tmp →
  tmp = PurePath.mk (PurePath.root dest)
          (List.removelast (PurePath.parts dest) ++ [PurePath.name dest +:+ ".part"])
  ∧ tmp ≠ dest.
Proof.
  change ".part" with (String "." "part") at 1. rewrite with_suffix_grow by done.
  destruct (_ || _); [done|].
  destruct (PurePath.name dest) eqn:Hn; [done|]. cbn [truthy_str negb].
  intros [= <-]. split; [done|]. intros Heq. apply (f_equal PurePath.name) in Heq.
  rewrite name_snoc, Hn in Heq. by apply app_ne_self in Heq.
Qed.

(** The body loop appends every non-empty block, then ends as the
    response does. *)
Lemma run_write_blocks tmp blocks failure :
  ∀ w held,
    files (fs w) !! tmp = Some held →
    run (write_blocks tmp blocks failure) w
    = (match failure with Some e => Raise e | None => Return tt end,
       with_files w (<[tmp := held ++ concat blocks]> (files (fs w)))).
Proof.
  induction blocks as [|chunk rest IH]; intros w held Hheld;
    cbn [write_blocks concat].
  - rewrite app_nil_r, insert_id by done. unfold with_files.
    rewrite fs_eta, world_eta. by destruct failure.
  - destruct chunk as [|b chunk].
    + rewrite run_bind, run_ret. by apply IH.
    + rewrite run_bind, run_fh_write, Hheld. cbn [default].
      rewrite (IH _ (held ++ b :: chunk)) by (cbn; by rewrite lookup_insert_eq).
      unfold with_files. cbn. by rewrite insert_insert_eq, <- app_assoc.
Qed.

Section HttpFacts.
Context `{Urllib}.
Variable env : Remote.

(** The fetcher once the destination is settled and has to be fetched. *)
Lemma run_download_http_file item u f target_root overwrite w :
  url item = SStr u → u ≠ "" →
  run (determine_filename item) w = (Return (SStr f), w) →
  files (fs w) !! (target_root // f) = None ∨ overwrite = true →
  run (_download_http_file env item target_root overwrite) w
  = run (try_except
           (match http_get env u with
            | HttpUnreachable e => raise e
            | HttpBadStatus e => raise e
            | HttpBody blocks failure =>
                tmp_path ← lift (PurePath.with_suffix (target_root // f)
                                   (PurePath.suffix (target_root // f) +:+ ".part"));
                open_wb tmp_path;;
                write_blocks tmp_path blocks failure;;
                replace tmp_path (target_root // f);;
                logger INFO "Saved %s (%s)"
            end)
           (λ e, logger ERROR "Failed to download %s: %s";; raise e))
        (logged w INFO "Downloading %s -> %s").
Proof.
  intros Hu Hne Hname Hfetch. unfold _download_http_file.
  rewrite Hu. cbn [truthy_scalar]. destruct u as [|c u]; [done|]. cbn [truthy_str negb].
  rewrite (run_bind_return _ _ _ _ _ Hname), run_bind, run_ret, run_bind, run_path_exists.
  assert (bool_decide (is_Some (files (fs w) !! (target_root // f))) && negb overwrite
          = false) as ->.
  { destruct Hfetch as [-> | ->]; [|by rewrite andb_false_r].
    by rewrite bool_decide_eq_false_2 by (intros [? ?]; discriminate). }
  rewrite run_bind, run_logger. unfold mkdir_parents.
  unfold try_except. cbn [run]. by rewrite run_bind, run_ret.
Qed.

End HttpFacts.

(** What follows the response headers: the [.part] file is opened,
    filled and renamed over the destination. *)
Lemma run_http_body dest tmp blocks failure w :
  tmp ≠ dest →
  run (open_wb tmp;; write_blocks tmp blocks failure;; replace tmp dest;;
       logger INFO "Saved %s (%s)") w
  = if bool_decide (tmp ∈ denied (fs w)) then (Raise (OSError "Permission denied"), w)
    else
      match failure with
      | Some e => (Raise e, with_files w (<[tmp := concat blocks]> (files (fs w))))
      | None =>
          if bool_decide (dest ∈ denied (fs w)) then
            (Raise (OSError "Permission denied"),
             with_files w (<[tmp := concat blocks]> (files (fs w))))
          else
            (Return tt,
             logged (with_files w (<[dest := concat blocks]> (delete tmp (files (fs w)))))
                    INFO "Saved %s (%s)")
      end.
Proof.
  intros Hne. rewrite run_bind, run_open_wb.
  destruct (bool_decide (tmp ∈ denied (fs w))); [done|].
  rewrite run_bind, (run_write_blocks _ _ _ _ []) by (cbn; by rewrite lookup_insert_eq).
  assert (with_files (with_files w (<[tmp:=[]]> (files (fs w))))
            (<[tmp:=[] ++ concat blocks]>
               (files (fs (with_files w (<[tmp:=[]]> (files (fs w)))))))
          = with_files w (<[tmp:=concat blocks]> (files (fs w)))) as ->.
  { unfold with_files. cbn. by rewrite insert_insert_eq. }
  destruct failure as [e|]; [done|].
  rewrite run_bind, run_replace. cbn [with_files fs files denied]. rewrite lookup_insert_eq.
  destruct (bool_decide (dest ∈ denied (fs w))); [done|].
  rewrite run_logger. unfold with_files. cbn [fs files denied log].
  by rewrite delete_insert_eq.
Qed.

(** X4: an HTTP item whose destination exists is skipped when overwrite
    is off: the call returns, makes no request, and leaves the disk as it
    was. *)
Theorem http_file_skips_existing `{Urllib} env item f target_root w :
  truthy_scalar (url item) = true →
  run (determine_filename item) w = (Return (SStr f), w) →
  is_Some (files (fs w) !! (target_root // f)) →
  run (_download_http_file env item target_root false) w
  = (Return tt, logged w DEBUG "Skipping existing file: %s").
Proof.
  intros Hurl Hname Hthere. unfold _download_http_file. rewrite Hurl. cbn [negb].
  rewrite (run_bind_return _ _ _ _ _ Hname), run_bind, run_ret, run_bind, run_path_exists.
  by rewrite bool_decide_eq_true_2.
Qed.

Lemma http_file_skips_existing_witness :
  run (_download_http_file (Sample.remote_with Sample.no_listing Sample.no_media)
         (Sample.http "https://host/files/x.pdf") Sample.target_root false)
      Sample.abc_world
  = (Return tt, logged Sample.abc_world DEBUG "Skipping existing file: %s").
Proof.
  apply (http_file_skips_existing _ _ "x.pdf").
  - reflexivity.
  - reflexivity.
  - exists (encode_utf8 "abc"). reflexivity.
Defined.

(** X5: an HTTP download whose body arrives whole returns, the
    destination holds the blocks received, in order, the [.part] file is
    gone and no other file has changed. *)
Theorem http_file_saved `{Urllib} env item u f target_root overwrite tmp blocks w :
  url item = SStr u → u ≠ "" →
  run (determine_filename item) w = (Return (SStr f), w) →
  files (fs w) !! (target_root // f) = None ∨ overwrite = true →
  http_get env u = HttpBody blocks None →
  PurePath.with_suffix (target_root // f)
    (PurePath.suffix (target_root // f) +:+ ".part") = inr tmp →
  tmp ∉ denied (fs w) → target_root // f ∉ denied (fs w) →
  ∃ w', run (_download_http_file env item target_root overwrite) w = (Return tt, w')
        ∧ fs w' = mkFS (<[target_root // f := concat blocks]> (delete tmp (files (fs w))))
                       (denied (fs w)).
Proof.
  intros Hu Hne Hname Hfetch Hget Htmp Hd1 Hd2.
  rewrite (run_download_http_file env item u f target_root overwrite w Hu Hne Hname Hfetch).
  rewrite Hget, Htmp. destruct (http_part_inr _ _ Htmp) as [_ Hdiff].
  unfold try_except. cbn [run]. rewrite run_bind, run_lift.
  rewrite (run_http_body _ _ _ _ _ Hdiff).
  cbn [fs logged]. rewrite !bool_decide_eq_false_2 by done.
  by eexists.
Qed.

(** X6: an HTTP download that breaks after the response has started
    raises the error of the transfer, leaves what it received in the
    [.part] file and changes no other file; the destination in particular
    is as before. *)
Theorem http_file_interrupted_leaves_part `{Urllib}
    env item u f target_root overwrite tmp blocks e w :
  url item = SStr u → u ≠ "" →
  run (determine_filename item) w = (Return (SStr f), w) →
  files (fs w) !! (target_root // f) = None ∨ overwrite = true →
  http_get env u = HttpBody blocks (Some e) →
  PurePath.with_suffix (target_root // f)
    (PurePath.suffix (target_root // f) +:+ ".part") = inr tmp →
  tmp ∉ denied (fs w) →
  ∃ w', run (_download_http_file env item target_root overwrite) w = (Raise e, w')
        ∧ files (fs w') !! tmp = Some (concat blocks)
        ∧ files (fs w') !! (target_root // f) = files (fs w) !! (target_root // f)
        ∧ ∀ q, q ≠ tmp → files (fs w') !! q = files (fs w) !! q.
Proof.
  intros Hu Hne Hname Hfetch Hget Htmp Hd1.
  rewrite (run_download_http_file env item u f target_root overwrite w Hu Hne Hname Hfetch).
  rewrite Hget, Htmp. destruct (http_part_inr _ _ Htmp) as [_ Hdiff].
  unfold try_except. cbn [run]. rewrite run_bind, run_lift.
  rewrite (run_http_body _ _ _ _ _ Hdiff).
  cbn [fs logged]. rewrite bool_decide_eq_false_2 by done.
  rewrite run_bind, run_logger, run_raise.
  eexists. split; [reflexivity|]. cbn [fs logged with_files files].
  split; [by rewrite lookup_insert_eq|].
  split; [by rewrite lookup_insert_ne|]. intros q Hq. by rewrite lookup_insert_ne.
Qed.

Lemma http_file_saved_witness :
  ∃ w', run (_download_http_file (Example.http_remote Example.abc_http)
               (Sample.http "https://host/files/x.pdf") Sample.target_root false)
            Sample.empty_world
        = (Return tt, w')
        ∧ fs w' = mkFS {[ Example.x_pdf := encode_utf8 "abc" ]} ∅.
Proof.
  destruct (http_file_saved (Example.http_remote Example.abc_http)
              (Sample.http "https://host/files/x.pdf") "https://host/files/x.pdf"
              "x.pdf" Sample.target_root false Example.x_pdf_part
              [encode_utf8 "ab"; []; encode_utf8 "c"] Sample.empty_world)
    as (w' & Hrun & Hfs).
  - reflexivity.
  - discriminate.
  - reflexivity.
  - left. reflexivity.
  - reflexivity.
  - reflexivity.
  - apply not_elem_of_empty.
  - apply not_elem_of_empty.
  - exists w'. split; [exact Hrun|]. rewrite Hfs.
    cbn [fs files denied Sample.empty_world]. by rewrite delete_empty, insert_empty.
Defined.

Lemma http_file_interrupted_leaves_part_witness :
  ∃ w', run (_download_http_file (Example.http_remote Example.broken_http)
               (Sample.http "https://host/files/x.pdf") Sample.target_root true)
            Sample.abc_world
        = (Raise (OSError "Connection reset by peer"), w')
        ∧ files (fs w') !! Example.x_pdf_part = Some (encode_utf8 "ab")
        ∧ files (fs w') !! Example.x_pdf = Some (encode_utf8 "abc").
Proof.
  destruct (http_file_interrupted_leaves_part (Example.http_remote Example.broken_http)
              (Sample.http "https://host/files/x.pdf") "https://host/files/x.pdf"
              "x.pdf" Sample.target_root true Example.x_pdf_part
              [encode_utf8 "ab"] (OSError "Connection reset by peer") Sample.abc_world)
    as (w' & Hrun & Hpart & Hdest & _).
  - reflexivity.
  - discriminate.
  - reflexivity.
  - right. reflexivity.
  - reflexivity.
  - reflexivity.
  - apply not_elem_of_empty.
  - exists w'. split; [exact Hrun|]. split; [exact Hpart|].
    refine (eq_trans Hdest _). apply lookup_singleton_eq.
Defined.

(* ===================================================================== *)
(** * Verifier: chunk size, manifest check                               *)
(* ===================================================================== *)

(** X7: [_calculate_md5] gives the MD5 of the whole file whatever the
    positive chunk size, and does not change the world; a missing file
    raises [FileNotFoundError]; with chunk size 0 the first read is
    empty and the digest is that of no data. *)
Theorem calculate_md5_chunk_size_irrelevant `{Hashlib} path w :
  (∀ chunk_size,
     (0 < chunk_size)%nat →
     run (_calculate_md5 path chunk_size) w
     = match files (fs w) !! path with
       | Some data => (Return (md5_hex data), w)
       | None => (Raise (FileNotFoundError "No such file or directory"), w)
       end)
  ∧ (∀ data, files (fs w) !! path = Some data →
       run (_calculate_md5 path 0) w = (Return (md5_hex []), w)).
Proof.
  split.
  - intros chunk_size Hpos. unfold _calculate_md5.
    destruct (files (fs w) !! path) as [data|] eqn:E.
    + rewrite (run_bind_return _ _ _ _ _ (run_read_bytes_Some _ _ _ E)), run_ret.
      by rewrite digest_blocks_all by (done || lia).
    + unfold read_bytes. rewrite !run_bind. simpl. by rewrite E.
  - intros data E. unfold _calculate_md5.
    rewrite (run_bind_return _ _ _ _ _ (run_read_bytes_Some _ _ _ E)), run_ret.
    cbn [digest_blocks take]. unfold md5_hex. by rewrite md5_update_nil.
Qed.

Section ManifestCheck.
Context `{Hashlib}.
Variable self : Downloader.

(** The loop of [_verify_against_manifest] collects the paths of the
    entries that do not pass, in manifest order. *)
Lemma run_collect_missing target_root manifest :
  ∀ w, ∃ w',
    run (collect_missing self target_root manifest) w
    = (Return (entry_path <$>
                 List.filter (λ entry, negb (entry_passes self target_root (fs w) entry))
                   manifest), w')
    ∧ fs w' = fs w.
Proof.
  induction manifest as [|entry rest IH]; intros w; cbn [collect_missing].
  - exists w. by rewrite run_ret.
  - destruct (run_verify_local_file self (target_root // entry_path entry)
                (manifest_size entry) (entry_md5 entry) w) as (w1 & Hrun & Hfs1).
    change (match entry_size entry with
            | Some z => if z =? 0 then None else Some z
            | None => None
            end) with (manifest_size entry).
    rewrite (run_bind_return _ _ _ _ _ Hrun).
    destruct (IH w1) as (w2 & Hrest & Hfs2).
    rewrite (run_bind_return _ _ _ _ _ Hrest), run_ret.
    exists w2. split; [|congruence].
    rewrite Hfs1. cbn [List.filter].
    change (verifier_rule (verify_downloads self)
              (files (fs w) !! (target_root // entry_path entry))
              (manifest_size entry) (entry_md5 entry))
      with (entry_passes self target_root (fs w) entry).
    by destruct (entry_passes self target_root (fs w) entry).
Qed.

Lemma run_verify_against_manifest target_root manifest w :
  ∃ w', run (_verify_against_manifest self target_root manifest) w
        = ((if forallb (entry_passes self target_root (fs w)) manifest
            then Return tt
            else Raise (RuntimeError "Verification failed - see log for details")), w')
        ∧ fs w' = fs w.
Proof.
  unfold _verify_against_manifest.
  destruct (run_collect_missing target_root manifest w) as (w1 & Hrun & Hfs).
  rewrite (run_bind_return _ _ _ _ _ Hrun).
  assert (forallb (entry_passes self target_root (fs w)) manifest
          = match List.filter (λ entry, negb (entry_passes self target_root (fs w) entry))
                    manifest with [] => true | _ => false end) as ->.
  { clear. induction manifest as [|entry rest IH]; [done|].
    cbn [forallb List.filter]. by destruct (entry_passes _ _ _ entry). }
  destruct (List.filter _ manifest) as [|entry rest]; cbn [fmap list_fmap].
  - exists (logged w1 INFO "Verification succeeded for %d file(s) in %s").
    by rewrite run_logger.
  - rewrite run_bind, run_logger, run_raise. by eexists.
Qed.

End ManifestCheck.

(** X8: [_verify_against_manifest] never changes the disk.  It returns
    when every entry's file passes the verifier and raises [RuntimeError]
    when one does not; the paths it reports are those of the failing
    entries, in manifest order.  A recorded size of 0 is not checked, so
    an entry of size 0 without md5 passes for any file that exists. *)
Theorem verify_against_manifest_outcome `{Hashlib} self target_root manifest w :
  (∃ w', run (_verify_against_manifest self target_root manifest) w
         = ((if forallb (entry_passes self target_root (fs w)) manifest
             then Return tt
             else Raise (RuntimeError "Verification failed - see log for details")), w')
         ∧ fs w' = fs w)
  ∧ (∃ w', run (collect_missing self target_root manifest) w
           = (Return (entry_path <$>
                        List.filter (λ entry, negb (entry_passes self target_root (fs w) entry))
                          manifest), w')
           ∧ fs w' = fs w)
  ∧ (∀ entry data,
       entry_size entry = Some 0 → entry_md5 entry = None →
       files (fs w) !! (target_root // entry_path entry) = Some data →
       entry_passes self target_root (fs w) entry = true).
Proof.
  split; [|split].
  - apply run_verify_against_manifest.
  - apply run_collect_missing.
  - intros entry data Hsize Hmd5 Hfile. unfold entry_passes, manifest_size.
    rewrite Hsize, Hmd5, Hfile. cbn. by rewrite andb_false_r.
Qed.

(* ===================================================================== *)
(** * Config loader                                                      *)
(* ===================================================================== *)

Lemma parse_item_complete raw item :
  parse_item raw = inr item → item_complete item = true.
Proof.
  destruct raw as [kv|v]; [|done]. unfold parse_item.
  destruct (bool_decide (_ = SStr "http_file")).
  - destruct (truthy_scalar (default SNone (dict_get "url" kv))) eqn:Hu; [|done].
    cbn [negb]. by intros [= <-].
  - destruct (bool_decide (_ = SStr "gdrive_folder")); [|done].
    destruct (truthy_scalar (default SNone (dict_get "folder_id" kv))) eqn:Hf; [|done].
    cbn [negb]. by intros [= <-].
Qed.

Lemma parse_items_inr items_raw items :
  parse_items items_raw = inr items
  ↔ Forall2 (λ raw item, parse_item raw = inr item) items_raw items.
Proof.
  revert items. induction items_raw as [|raw rest IH]; intros items; cbn [parse_items].
  - split; [intros [= <-]; constructor|by intros ->%Forall2_nil_inv_l].
  - split.
    + destruct (parse_item raw) as [e|item] eqn:Hraw; [done|].
      destruct (parse_items rest) as [e|more]; [done|].
      intros [= <-]. constructor; [done|]. by apply IH.
    + intros (item & more & Hraw & Hrest & ->)%Forall2_cons_inv_l.
      rewrite Hraw. apply IH in Hrest. by rewrite Hrest.
Qed.

Lemma parse_items_inl items_raw e :
  parse_items items_raw = inl e
  ↔ ∃ before raw after items,
      items_raw = before ++ raw :: after
      ∧ Forall2 (λ raw item, parse_item raw = inr item) before items
      ∧ parse_item raw = inl e.
Proof.
  induction items_raw as [|raw rest IH]; cbn [parse_items].
  - split; [done|]. intros (before & ? & ? & ? & Heq & _). by destruct before.
  - destruct (parse_item raw) as [e'|item] eqn:Hraw.
    + split.
      * intros [= ->]. exists [], raw, rest, []. by repeat constructor.
      * intros ([|first before] & raw' & after & items & Heq & Hbefore & Hbad).
        -- injection Heq as <- _. congruence.
        -- injection Heq as <- _.
           apply Forall2_cons_inv_l in Hbefore as (? & ? & ? & _). congruence.
    + destruct (parse_items rest) as [e'|more] eqn:Hrest.
      * split.
        -- intros [= ->]. destruct (proj1 IH eq_refl)
             as (before & raw' & after & items & -> & Hbefore & Hbad).
           exists (raw :: before), raw', after, (item :: items).
           split; [done|]. split; [by constructor|done].
        -- intros ([|first before] & raw' & after & items & Heq & Hbefore & Hbad).
           ++ injection Heq as <- _. congruence.
           ++ injection Heq as <- ->.
              apply Forall2_cons_inv_l in Hbefore as (? & items' & _ & Hbefore & _).
              f_equal. assert (inl e' = inl e :> Exn + list DownloadItem) as [= ->]; [|done].
              apply IH. by exists before, raw', after, items'.
      * split; [done|].
        intros ([|first before] & raw' & after & items & Heq & Hbefore & Hbad).
        -- injection Heq as <- _. congruence.
        -- injection Heq as <- ->.
           apply Forall2_cons_inv_l in Hbefore as (? & items' & _ & Hbefore & _).
           assert (inr more = inl e :> Exn + list DownloadItem) as [=].
           apply IH. by exists before, raw', after, items'.
Qed.

(** X9: the items of a loaded config are the parsed items of the
    document, one for one and in order; when an item is rejected, the
    error is that of the first bad item, whatever follows it. *)
Theorem parse_items_in_order items_raw :
  (∀ items,
     parse_items items_raw = inr items
     ↔ Forall2 (λ raw item, parse_item raw = inr item) items_raw items)
  ∧ (∀ e,
       parse_items items_raw = inl e
       ↔ ∃ before raw after items,
           items_raw = before ++ raw :: after
           ∧ Forall2 (λ raw item, parse_item raw = inr item) before items
           ∧ parse_item raw = inl e).
Proof. split; [apply parse_items_inr|apply parse_items_inl]. Qed.

(** X10: a config that [_load_config] accepts has a truthy source and at
    least one item, and each item is complete for its kind, so the guards
    [missing url] and [missing folder_id] of the downloaders do not fire
    on a loaded config.  An HTTP item carries no folder id and is not
    recursive, a Drive item carries no url and no filename. *)
Theorem loaded_config_is_complete config_file base_output_dir cfg :
  _load_config config_file base_output_dir = inr cfg →
  truthy_value (source cfg) = true
  ∧ items cfg ≠ []
  ∧ Forall (λ item,
       item_complete item = true
       ∧ match kind item with
         | http_file => folder_id item = SNone ∧ recursive item = false
         | gdrive_folder => url item = SNone ∧ filename item = SNone
         end) (items cfg).
Proof.
  unfold _load_config. destruct config_file as [[data|?]|]; [|done..].
  destruct (dict_get "source" data) as [src|]; [|done].
  destruct (truthy_value src) eqn:Hsrc; [|done]. cbn [negb].
  destruct (match base_output_dir with Some base => inr base | None => _ end)
    as [?|output_root]; [done|].
  destruct (default (VSeq []) (dict_get "items" data)) as [v|l] eqn:Hitems.
  { destruct (negb _); [done|]. by destruct v. }
  destruct l as [|raw rest]; [done|]. cbn [truthy_value negb].
  destruct (parse_items (raw :: rest)) as [?|parsed] eqn:Hparse; [done|].
  intros [= <-]. cbn [source items]. split; [done|].
  apply parse_items_inr in Hparse. split.
  - intros ->. by apply Forall2_nil_inv_r in Hparse.
  - clear Hitems. induction Hparse as [|raw' item ? ? Hitem _ IH]; constructor; [|done].
    split; [by eapply parse_item_complete|].
    destruct raw' as [kv|v]; [|done]. unfold parse_item in Hitem.
    destruct (bool_decide (_ = SStr "http_file")).
    + destruct (negb _); [done|]. by injection Hitem as <-.
    + destruct (bool_decide (_ = SStr "gdrive_folder")); [|done].
      destruct (negb _); [done|]. by injection Hitem as <-.
Qed.

Lemma loaded_config_is_complete_witness :
  ∃ cfg, _load_config (Some Sample.root_url_document) None = inr cfg
         ∧ truthy_value (source cfg) = true
         ∧ Forall (λ item, item_complete item = true) (items cfg).
Proof.
  eexists. split; [reflexivity|].
  destruct (loaded_config_is_complete (Some Sample.root_url_document) None _ eq_refl)
    as (Hsource & _ & Hitems).
  split; [exact Hsource|].
  eapply Forall_impl; [exact Hitems|]. by intros item [Hcomplete _].
Defined.

(** X11: with a base output directory the document's [output_dir] plays
    no part: two documents that agree on every other key load to the same
    result, and the loaded config's output directory is the base. *)
Theorem base_output_dir_overrides data data' base :
  (∀ k, k ≠ "output_dir" → dict_get k data = dict_get k data') →
  _load_config (Some (DMap data)) (Some base) = _load_config (Some (DMap data')) (Some base)
  ∧ ∀ cfg, _load_config (Some (DMap data)) (Some base) = inr cfg → output_dir cfg = base.
Proof.
  intros Hsame. split.
  - unfold _load_config.
    rewrite <- (Hsame "source"), <- (Hsame "subdir"), <- (Hsame "items"),
      <- (Hsame "description") by done.
    done.
  - intros cfg. unfold _load_config.
    destruct (dict_get "source" data) as [src|]; [|done].
    destruct (negb (truthy_value src)); [done|].
    destruct (negb (truthy_value _)); [done|].
    destruct (default (VSeq []) (dict_get "items" data)) as [v|l]; [by destruct v|].
    destruct (parse_items l); [done|]. by intros [= <-].
Qed.

Lemma base_output_dir_overrides_witness :
  _load_config (Some (DMap Example2.null_output_dir_data)) None
  = inl (TypeError "expected str, bytes or os.PathLike object")
  ∧ _load_config (Some (DMap Example2.null_output_dir_data)) (Some (PurePath.parse "out"))
    = _load_config (Some (DMap Example2.plain_data)) (Some (PurePath.parse "out")).
Proof.
  split; [reflexivity|].
  apply (base_output_dir_overrides Example2.null_output_dir_data Example2.plain_data).
  intros k Hk. unfold Example2.null_output_dir_data. cbn [dict_get].
  destruct (String.eqb k "output_dir") eqn:E; [|reflexivity].
  apply String.eqb_eq in E. contradiction.
Defined.

(** X12: the loader does not check that [subdir] (by default the source)
    is a string.  When it is not, [download_all] raises [TypeError] at
    its first statement: nothing is logged, listed or written. *)
Theorem download_all_needs_string_subdir `{Hashlib} `{Urllib} self env fuel overwrite w :
  (∀ s, subdir (config self) ≠ VScalar (SStr s)) →
  run (download_all self env fuel overwrite) w
  = (Raise (TypeError "unsupported operand type(s) for /"), w).
Proof.
  intros Hsub. unfold download_all, resolve_target_root.
  destruct (subdir (config self)) as [[| | |s]|]; try done.
  by destruct (Hsub s).
Qed.

Lemma download_all_needs_string_subdir_witness :
  ∃ cfg,
    _load_config (Some Example2.numeric_source_document) (Some (PurePath.parse "out"))
    = inr cfg
    ∧ ∀ self, config self = cfg →
        run (download_all self (Example.http_remote Example.abc_http) 8 false)
            Sample.empty_world
        = (Raise (TypeError "unsupported operand type(s) for /"), Sample.empty_world).
Proof.
  eexists. split; [reflexivity|]. intros self Hcfg.
  apply download_all_needs_string_subdir. rewrite Hcfg. intros s. discriminate.
Defined.

(* ===================================================================== *)
(** * Walker: what is yielded                                            *)
(* ===================================================================== *)

Lemma pop_Some (stack : list Frame) frame stack' :
  pop stack = Some (frame, stack') → stack = stack' ++ [frame].
Proof.
  unfold pop. destruct (reverse stack) as [|top rest] eqn:Hrev; [done|].
  intros [= <- <-]. apply (f_equal reverse) in Hrev.
  by rewrite reverse_involutive, reverse_cons in Hrev.
Qed.

(** Invariants of the walker: a property of the yielded pairs that every
    page establishes from a property of the frames, which every push
    keeps. *)
Lemma walk_loop_invariant env (Y : FileMeta * Path → Prop) (F : Frame → Prop) recursive :
  (∀ frame children stack,
     F frame → Forall F stack →
     (∃ page_token response page_size,
        drive_list env (list_request frame.1 page_token page_size) = inr response
        ∧ children = default [] (resp_files response)) →
     Forall Y (visit_page recursive frame.2 children stack).1
     ∧ ∀ stack', (visit_page recursive frame.2 children stack).2 = inr stack' →
         Forall F stack') →
  ∀ fuel page_size stack current,
    Forall F stack →
    (∀ frame page_token, current = Some (frame, page_token) → F frame) →
    Forall Y (walk_loop env fuel recursive page_size stack current).1.
Proof.
  intros Hpage. induction fuel as [|fuel IH]; intros page_size stack current Hstack Hcur;
    cbn [walk_loop]; [constructor|].
  destruct current as [[[folder local] page_token]|].
  - specialize (Hcur _ _ eq_refl).
    destruct (drive_list env _) as [e|response] eqn:Hlist; [constructor|].
    destruct (Hpage (folder, local) (default [] (resp_files response)) stack Hcur Hstack)
      as [Hyield Hpush]; [by eauto|]. cbn [fst snd] in Hyield, Hpush.
    destruct (visit_page recursive local _ stack).2 as [e|stack'] eqn:Hp2; [done|].
    unfold yield_first. cbn [fst]. apply Forall_app. split; [done|].
    apply IH; [by apply Hpush|]. intros frame tok. destruct (truthy _); [|done].
    by intros [= <- _].
  - destruct (pop stack) as [[frame stack']|] eqn:Hpop; [|constructor].
    apply pop_Some in Hpop as ->. apply Forall_app in Hstack as [Hstack' Hframe].
    apply IH; [done|]. intros ? ? [= <- _]. by apply Forall_inv in Hframe.
Qed.

Lemma visit_page_yields recursive local children :
  ∀ stack y,
    y ∈ (visit_page recursive local children stack).1 →
    ∃ child size,
      child ∈ children ∧ is_folder child = false ∧ child_size child = inr size
      ∧ y = ({| meta_id := item_id child; meta_name := child_name child;
                meta_mimeType := item_mimeType child;
                meta_md5Checksum := item_md5Checksum child; meta_size := size |},
             local // child_name child).
Proof.
  induction children as [|child rest IH]; intros stack y; cbn [visit_page].
  { by intros ?%elem_of_nil. }
  rewrite visit_child_cases.
  assert (∀ stack', y ∈ (visit_page recursive local rest stack').1 →
            ∃ child0 size, child0 ∈ child :: rest ∧ is_folder child0 = false
              ∧ child_size child0 = inr size
              ∧ y = ({| meta_id := item_id child0; meta_name := child_name child0;
                        meta_mimeType := item_mimeType child0;
                        meta_md5Checksum := item_md5Checksum child0;
                        meta_size := size |}, local // child_name child0)) as Hrest.
  { intros stack' (child0 & size & Hin & ?)%IH. exists child0, size.
    split; [by apply list_elem_of_further|done]. }
  destruct (is_folder child) eqn:Hfolder.
  - destruct recursive; apply Hrest.
  - destruct (child_size child) as [e|size] eqn:Hsize; [by intros ?%elem_of_nil|].
    cbn [fst]. intros [->|Hin]%elem_of_cons; [|by eapply Hrest].
    exists child, size. split; [by apply list_elem_of_here|done].
Qed.

Lemma visit_page_pushes recursive local children :
  ∀ stack stack',
    (visit_page recursive local children stack).2 = inr stack' →
    ∃ pushed,
      stack' = stack ++ pushed
      ∧ Forall (λ frame, ∃ child, child ∈ children ∧ recursive = true
                           ∧ frame = (item_id child, local // child_name child)) pushed.
Proof.
  induction children as [|child rest IH]; intros stack stack'; cbn [visit_page].
  { intros [= <-]. exists []. by rewrite app_nil_r. }
  rewrite visit_child_cases.
  assert (∀ pushed,
            Forall (λ frame, ∃ child0, child0 ∈ rest ∧ recursive = true
                      ∧ frame = (item_id child0, local // child_name child0)) pushed →
            Forall (λ frame, ∃ child0, child0 ∈ child :: rest ∧ recursive = true
                      ∧ frame = (item_id child0, local // child_name child0)) pushed)
    as Hweaken.
  { intros pushed Hpushed. eapply Forall_impl; [exact Hpushed|].
    intros frame (child0 & Hin & ?). exists child0. split; [by apply list_elem_of_further|done]. }
  destruct (is_folder child) eqn:Hfolder.
  - destruct recursive eqn:Hrec.
    + intros (pushed & -> & Hpushed)%IH.
      exists ((item_id child, local // child_name child) :: pushed).
      split; [by rewrite <- app_assoc|]. constructor; [|by apply Hweaken].
      exists child. split; [by apply list_elem_of_here|done].
    + intros (pushed & -> & Hpushed)%IH. exists pushed. split; [done|by apply Hweaken].
  - destruct (child_size child) as [e|size]; [done|]. cbn [snd].
    intros (pushed & -> & Hpushed)%IH. exists pushed. split; [done|by apply Hweaken].
Qed.

(** X13: the walker never yields a folder: every pair it yields carries a
    MIME type other than that of a Drive folder, whether or not the walk
    is recursive and however it ends. *)
Theorem walk_never_yields_folders env fuel folder_id local_root recursive y :
  y ∈ (_walk_folder env fuel folder_id local_root recursive).1 →
  meta_mimeType y.1 ≠ Some FOLDER_MIME.
Proof.
  revert y. apply Forall_forall. unfold _walk_folder.
  apply (walk_loop_invariant env _ (λ _, True)); [|by repeat constructor|done].
  intros frame children stack _ _ _. split.
  - apply Forall_forall. intros y (child & size & _ & Hfolder & _ & ->)%visit_page_yields.
    cbn [fst meta_mimeType]. unfold is_folder in Hfolder.
    by apply bool_decide_eq_false_1 in Hfolder.
  - intros stack' _. by apply Forall_true.
Qed.

Lemma walk_never_yields_folders_witness :
  Forall (λ y, meta_mimeType y.1 ≠ Some FOLDER_MIME)
    (_walk_folder (Sample.remote_with Sample.tree_listing Sample.no_media) 9 "R"
       Sample.target_root true).1.
Proof.
  apply Forall_forall. intros y.
  apply (walk_never_yields_folders
           (Sample.remote_with Sample.tree_listing Sample.no_media) 9 "R"
           Sample.target_root true y).
Defined.

Lemma joinpath_relative p (s : string) :
  PurePath.parse_root s = "" →
  p // s = PurePath.mk (PurePath.root p) (PurePath.parts p ++ PurePath.parts (PurePath.parse s)).
Proof. intros Hs. unfold PurePath.joinpath. cbn [PurePath.parse PurePath.root]. by rewrite Hs. Qed.

Lemma below_refl dir : below dir dir.
Proof. split; [done|]. exists []. by rewrite app_nil_r. Qed.

Lemma below_joinpath dir p (s : string) :
  PurePath.parse_root s = "" → below dir p → below dir (p // s).
Proof.
  intros Hs [Hroot [rest Hparts]]. rewrite joinpath_relative by done.
  split; [done|]. cbn [PurePath.parts]. rewrite Hparts, <- app_assoc. by eexists.
Qed.

Lemma strip_prefix_app pre rest :
  PurePath.strip_prefix pre (pre ++ rest) = Some rest.
Proof.
  induction pre as [|x pre IH]; [done|]. cbn [PurePath.strip_prefix app].
  by rewrite String.eqb_refl.
Qed.

Lemma relative_to_below dir p :
  below dir p →
  ∃ rel, PurePath.relative_to p dir = inr rel
         ∧ PurePath.parts p = PurePath.parts dir ++ PurePath.parts rel.
Proof.
  intros [Hroot [rest Hparts]]. unfold PurePath.relative_to.
  rewrite Hroot, String.eqb_refl, Hparts, strip_prefix_app. cbn [negb]. by eexists.
Qed.

(** X14: when no listed name starts with a slash, every path the walker
    yields lies below the local root, so the [relative_to] of the
    listing loop succeeds and the loop body returns for every pair. *)
Theorem walk_paths_below_root env fuel folder_id local_root recursive y :
  relative_names env →
  y ∈ (_walk_folder env fuel folder_id local_root recursive).1 →
  below local_root y.2
  ∧ (∃ rel, PurePath.relative_to y.2 local_root = inr rel
            ∧ PurePath.parts y.2 = PurePath.parts local_root ++ PurePath.parts rel)
  ∧ ∀ (H : Hashlib) self overwrite st w,
      ∃ st' w', run (process_entry self overwrite local_root st y) w = (Return st', w')
                ∧ fs w' = fs w.
Proof.
  intros Hrel Hy.
  assert (below local_root y.2) as Hbelow.
  { revert y Hy. apply Forall_forall. unfold _walk_folder.
    apply (walk_loop_invariant env _ (λ frame, below local_root frame.2));
      [|by repeat constructor; apply below_refl|done].
    intros frame children stack Hframe Hstack (page_token & response & page_size & Hlist & ->).
    specialize (Hrel _ _ Hlist). rewrite Forall_forall in Hrel. split.
    - apply Forall_forall. intros y (child & size & Hin & _ & _ & ->)%visit_page_yields.
      apply below_joinpath; [by apply Hrel|done].
    - intros stack' (pushed & -> & Hpushed)%visit_page_pushes.
      apply Forall_app. split; [done|]. eapply Forall_impl; [exact Hpushed|].
      intros ? (child & Hin & _ & ->). apply below_joinpath; [by apply Hrel|done]. }
  split; [done|]. destruct (relative_to_below _ _ Hbelow) as (rel & Hrel_to & Hparts).
  split; [by exists rel|]. intros H self overwrite st w.
  destruct (run_process_entry self overwrite local_root st y rel w Hrel_to)
    as (w' & Hrun & Hfs).
  by eexists _, w'.
Qed.

Lemma tree_listing_relative_names :
  relative_names (Sample.remote_with Sample.tree_listing Sample.no_media).
Proof.
  intros request response. cbn [drive_list Sample.remote_with]. unfold Sample.tree_listing.
  repeat (match goal with |- context [if ?b then _ else _] => destruct b end);
    try (destruct (req_pageToken request));
    intros [= <-]; by repeat constructor.
Qed.

Lemma walk_paths_below_root_witness :
  Forall (λ y, below Sample.target_root y.2)
    (_walk_folder (Sample.remote_with Sample.tree_listing Sample.no_media) 9 "R"
       Sample.target_root true).1.
Proof.
  apply Forall_forall. intros y Hy.
  exact (proj1 (walk_paths_below_root
                  (Sample.remote_with Sample.tree_listing Sample.no_media) 9 "R"
                  Sample.target_root true y tree_listing_relative_names Hy)).
Defined.

Lemma subfolders_of_not_recursive local children : subfolders_of false local children = [].
Proof.
  induction children as [|child rest IH]; [done|].
  unfold subfolders_of in *. cbn [flat_map]. rewrite IH, visit_child_cases.
  destruct (is_folder child); [done|]. by destruct (child_size child).
Qed.

(** X15: a walk that is not recursive lists the root folder only: once
    all pages of the root are listed, it ends having yielded the files
    among the root's children, in the order listed, whatever the
    subfolders hold. *)
Theorem non_recursive_walk_lists_root_only env pages folder_id local_root children :
  all_children env pages folder_id None = Some children →
  existsb (λ child, is_fail (visit_child false local_root child)) children = false →
  ∃ fuel, ∀ more,
    _walk_folder env (fuel + more) folder_id local_root false
    = (files_of false local_root children, WalkDone).
Proof.
  intros Hall Hok.
  destruct (walk_loop_folder env pages false folder_id local_root None children []
              Hall Hok) as (n & Hn).
  exists (S n + 1)%nat. intros more. unfold _walk_folder.
  replace (S n + 1 + more)%nat with (S (n + S more)) by lia.
  rewrite (walk_loop_pop env _ false 1000 [] (folder_id, local_root)), Hn.
  rewrite subfolders_of_not_recursive. cbn [app walk_loop]. rewrite pop_nil.
  unfold yield_first. cbn [fst snd]. by rewrite app_nil_r.
Qed.

Lemma non_recursive_walk_lists_root_only_witness :
  ∃ fuel, ∀ more,
    _walk_folder (Sample.remote_with Sample.tree_listing Sample.no_media) (fuel + more)
      "R" Sample.target_root false
    = ([ (Sample.meta_of "f1" "a.pdf", Sample.target_root // "a.pdf") ], WalkDone).
Proof.
  apply (non_recursive_walk_lists_root_only
           (Sample.remote_with Sample.tree_listing Sample.no_media) 1 "R"
           Sample.target_root
           [Sample.pdf "f1" "a.pdf"; Sample.subfolder "A" "A"; Sample.subfolder "B" "B"]).
  - reflexivity.
  - reflexivity.
Defined.

(* ===================================================================== *)
(** * Listing loop: what its variables keep true                         *)
(* ===================================================================== *)

Section LoopInvariants.
Context `{Hashlib}.
Variable self : Downloader.

(** A property of the loop state that every pass of the body keeps,
    whatever is on disk, holds when the loop is through. *)
Lemma for_each_process_invariant (P : LoopState → Prop) overwrite target_root :
  (∀ st y rel content,
     PurePath.relative_to y.2 target_root = inr rel →
     P st → P (after_entry self overwrite st y rel content)) →
  ∀ ys st w st' w',
    run (for_each (process_entry self overwrite target_root) ys st) w = (Return st', w') →
    P st → P st'.
Proof.
  intros Hstep. induction ys as [|y ys IH]; intros st w st' w' Hrun HP;
    cbn [for_each] in Hrun.
  - rewrite run_ret in Hrun. by injection Hrun as <- <-.
  - rewrite run_bind in Hrun.
    destruct (PurePath.relative_to y.2 target_root) as [e|rel] eqn:Hrel.
    { by rewrite (run_process_entry_raise _ _ _ _ _ _ _ Hrel) in Hrun. }
    destruct (run_process_entry self overwrite target_root st y rel w Hrel)
      as (w1 & Hpass & _).
    rewrite Hpass in Hrun. eapply IH; [exact Hrun|]. by apply Hstep.
Qed.

End LoopInvariants.

Lemma counters_append st entry :
  counters_within 0 st → counters_within 1 (append_manifest st entry).
Proof.
  intros (? & ? & ?). unfold counters_within.
  cbn [append_manifest scheduled_count futures skipped_duplicate_count manifest].
  rewrite length_app. cbn [length]. lia.
Qed.

Lemma counters_dedupe st p md5 :
  counters_within 1 st →
  counters_within (if (dedupe st p md5).2 then 0 else 1) (dedupe st p md5).1.
Proof.
  intros (? & ? & ?). unfold dedupe.
  destruct md5 as [md5|]; [|done]. destruct (truthy_str md5); [|done].
  destruct (seen_md5_by_path st !! p) as [existing|]; [|done].
  destruct (bool_decide (md5 ∈ existing)); [|done].
  unfold counters_within.
  cbn [fst snd scheduled_count futures skipped_duplicate_count manifest]. lia.
Qed.

Lemma counters_submit st meta dest :
  counters_within 1 st → counters_within 0 (submit_download st meta dest).
Proof.
  intros (? & ? & ?). unfold counters_within.
  cbn [submit_download scheduled_count futures skipped_duplicate_count manifest].
  rewrite length_app. cbn [length]. lia.
Qed.

Lemma counters_slack st : counters_within 1 st → counters_within 0 st.
Proof. unfold counters_within. lia. Qed.

(** X16: the counters of the listing loop.  When the loop is through,
    the manifest has one entry per pair yielded, [scheduled_count] is the
    number of queued downloads, and queued and deduplicated entries
    together are at most the entries listed.  In manifest-only and
    verify-only mode nothing is queued, counted or recorded. *)
Theorem listing_loop_counters `{Hashlib} self overwrite target_root ys st w w' :
  run (for_each (process_entry self overwrite target_root) ys initial_state) w
  = (Return st, w') →
  length (manifest st) = length ys
  ∧ scheduled_count st = Z.of_nat (length (futures st))
  ∧ 0 ≤ skipped_duplicate_count st
  ∧ scheduled_count st + skipped_duplicate_count st ≤ Z.of_nat (length ys)
  ∧ (manifest_only self || verify_only self = true → nothing_scheduled st).
Proof.
  intros Hrun.
  destruct (run_for_each_process self overwrite target_root ys _ _ _ _ Hrun)
    as ((entries & Hmap & Hman) & _).
  assert (length (manifest st) = length ys) as Hlen.
  { rewrite Hman. cbn [manifest initial_state app]. symmetry. by eapply length_mapM. }
  split; [done|]. rewrite <- Hlen.
  assert (counters_within 0 st) as (Hsched & Hpos & Hle).
  { refine (for_each_process_invariant self (counters_within 0) overwrite target_root
              _ ys initial_state w st w' Hrun _); [|by unfold counters_within].
    clear. intros st y rel content _ Hcount. unfold after_entry.
    apply (counters_append _ (manifest_entry y.1 rel)) in Hcount.
    destruct (manifest_only self || verify_only self); [by apply counters_slack|].
    apply (counters_dedupe _ (PurePath.str rel) (meta_md5Checksum y.1)) in Hcount.
    destruct (dedupe _ _ _).2; [done|].
    destruct (local_skip_rule _ _ _ _ _);
      [by apply counters_slack|by apply counters_submit]. }
  split; [done|]. split; [done|]. split; [lia|]. intros Hmode.
  refine (for_each_process_invariant self nothing_scheduled overwrite target_root
            _ ys initial_state w st w' Hrun _); [|done].
  clear -Hmode. intros st y rel content _ Hnone. unfold after_entry. by rewrite Hmode.
Qed.

Lemma listing_loop_counters_witness :
  ∃ st w',
    run (for_each (process_entry (Sample.normal []) false Sample.target_root)
           Sample.twice initial_state) Sample.empty_world = (Return st, w')
    ∧ length (manifest st) = 2%nat
    ∧ scheduled_count st = 1 ∧ skipped_duplicate_count st = 1.
Proof.
  eexists _, _.
  match goal with |- ?A ∧ _ => assert A as Hrun by (vm_compute; reflexivity) end.
  split; [exact Hrun|].
  destruct (listing_loop_counters (Sample.normal []) false Sample.target_root
              Sample.twice _ Sample.empty_world _ Hrun) as (Hlen & _).
  split; [exact Hlen|]. split; vm_compute; reflexivity.
Defined.

Lemma dedupe_flags_seen st p md5 existing :
  seen_md5_by_path st !! p = Some existing → md5 ∈ existing → md5 ≠ "" →
  (dedupe st p (Some md5)).2 = true.
Proof.
  intros Hp Hin Hne. unfold dedupe. destruct md5 as [|c md5]; [done|].
  cbn [truthy_str]. rewrite Hp. by rewrite bool_decide_eq_true_2.
Qed.

Lemma truthy_Some (md5 : string) : truthy (Some md5) = true ↔ md5 ≠ "".
Proof. by destruct md5. Qed.

Section QueueInvariants.
Context `{Hashlib}.
Variable self : Downloader.

Lemma queue_after_entry overwrite target_root st y rel content :
  PurePath.relative_to y.2 target_root = inr rel →
  queue_recorded target_root st ∧ queued_once st →
  queue_recorded target_root (after_entry self overwrite st y rel content)
  ∧ queued_once (after_entry self overwrite st y rel content).
Proof.
  intros Hrel [Hrec Honce]. unfold after_entry.
  set (st1 := append_manifest st (manifest_entry y.1 rel)).
  assert (queue_recorded target_root st1 ∧ queued_once st1) as [Hrec1 Honce1] by done.
  destruct (manifest_only self || verify_only self); [done|].
  set (gate := dedupe st1 (PurePath.str rel) (meta_md5Checksum y.1)).
  assert (queue_recorded target_root gate.1 ∧ queued_once gate.1) as [Hrecg Honceg].
  { split.
    - intros task md5 Hin Hmd5 Hne. unfold gate in Hin. rewrite futures_dedupe in Hin.
      destruct (Hrec1 task md5 Hin Hmd5 Hne) as (rel' & existing & Hrel' & Hseen & Hmem).
      destruct (seen_dedupe_mono st1 (PurePath.str rel) (meta_md5Checksum y.1)
                  _ _ _ Hseen Hmem) as (existing' & ? & ?).
      by exists rel', existing'.
    - intros i j t1 t2 Hij H1 H2. unfold gate in H1, H2.
      rewrite futures_dedupe in H1, H2. by eapply Honce1. }
  destruct gate.2 eqn:Hgate; [done|].
  destruct (local_skip_rule _ _ _ _ _); [done|].
  split.
  - intros task md5 [Hin|Hin]%elem_of_app Hmd5 Hne.
    + by apply Hrecg.
    + apply list_elem_of_singleton in Hin as ->.
      cbn [download_task task_md5 task_dest] in *.
      exists rel. subst gate. rewrite Hmd5.
      destruct (seen_dedupe_new st1 (PurePath.str rel) md5 Hne) as (existing & ? & ?).
      by exists existing.
  - intros i j t1 t2 Hij H1 H2 Hdest Htruthy.
    cbn [submit_download futures] in H1, H2.
    assert (futures gate.1 = futures st1) as Hsame by apply futures_dedupe.
    destruct (decide (j < length (futures gate.1))%nat) as [Hj|Hj].
    { rewrite lookup_app_l in H1, H2 by lia.
      exact (Honceg i j t1 t2 Hij H1 H2 Hdest Htruthy). }
    pose proof (lookup_lt_Some _ _ _ H2) as Hj2.
    rewrite length_app in Hj2. cbn [length] in Hj2.
    rewrite lookup_app_l in H1 by lia.
    rewrite lookup_app_r in H2 by lia.
    destruct (j - length (futures gate.1))%nat as [|k]; [|by destruct k].
    injection H2 as <-. cbn [download_task task_md5 task_dest] in *.
    intros Hsame_md5. rewrite Hsame_md5 in Htruthy.
    destruct (meta_md5Checksum y.1) as [md5|] eqn:Hmd5; [|done].
    apply truthy_Some in Htruthy.
    rewrite Hsame in H1. apply list_elem_of_lookup_2 in H1.
    destruct (Hrec1 t1 md5 H1 Hsame_md5 Htruthy) as (rel' & existing & Hrel' & Hseen & Hmem).
    rewrite Hdest, Hrel in Hrel'. injection Hrel' as <-.
    unfold gate in Hgate.
    by rewrite (dedupe_flags_seen _ _ _ _ Hseen Hmem Htruthy) in Hgate.
Qed.

End QueueInvariants.

(** X17: no download is queued twice.  When the listing loop is through,
    two queued downloads for the same destination that carry an md5
    carry different ones, in every mode and whatever was on disk. *)
Theorem no_download_queued_twice `{Hashlib} self overwrite target_root ys st w w' :
  run (for_each (process_entry self overwrite target_root) ys initial_state) w
  = (Return st, w') →
  ∀ i j t1 t2,
    i ≠ j → futures st !! i = Some t1 → futures st !! j = Some t2 →
    task_dest t1 = task_dest t2 → truthy (task_md5 t1) = true →
    task_md5 t1 ≠ task_md5 t2.
Proof.
  intros Hrun.
  assert (queue_recorded target_root st ∧ queued_once st) as [_ Honce].
  { refine (for_each_process_invariant self
              (λ st, queue_recorded target_root st ∧ queued_once st)
              overwrite target_root _ ys initial_state w st w' Hrun _).
    - intros st0 y rel content Hrel Hinv. by apply queue_after_entry.
    - split; [by intros ? ? ?%elem_of_nil|by intros i j ? ? ? ?]. }
  intros i j t1 t2 Hij H1 H2 Hdest Htruthy.
  destruct (decide (i < j)%nat) as [Hlt|Hge]; [by eapply Honce|].
  intros Heq. rewrite Heq in Htruthy.
  refine (Honce j i t2 t1 _ H2 H1 _ Htruthy _); [lia|done|done].
Qed.

Lemma no_download_queued_twice_witness :
  ∃ st w' t1 t2,
    run (for_each (process_entry (Sample.normal []) false Sample.target_root)
           Example3.conflicting initial_state) Sample.empty_world = (Return st, w')
    ∧ futures st = [t1; t2]
    ∧ task_dest t1 = task_dest t2
    ∧ task_md5 t1 ≠ task_md5 t2.
Proof.
  eexists _, _, _, _.
  match goal with |- ?A ∧ _ => assert A as Hrun by (vm_compute; reflexivity) end.
  split; [exact Hrun|].
  split; [vm_compute; reflexivity|]. split; [vm_compute; reflexivity|].
  refine (no_download_queued_twice (Sample.normal []) false Sample.target_root
            Example3.conflicting _ Sample.empty_world _ Hrun 0%nat 1%nat _ _ _
            eq_refl eq_refl eq_refl eq_refl).
  lia.
Defined.

Lemma grown_non_empty (existing : gset string) (m : string) : existing ∪ {[m]} ≠ ∅.
Proof. apply (non_empty_inhabited_L m). apply elem_of_union_r. by apply elem_of_singleton. Qed.

Lemma singleton_non_empty (m : string) : ({[m]} : gset string) ≠ ∅.
Proof. apply (non_empty_inhabited_L m). by apply elem_of_singleton. Qed.

Lemma size_pos_non_empty (X : gset string) : X ≠ ∅ → (1 ≤ size X)%nat.
Proof.
  intros HX. destruct (size X) eqn:E; [|lia].
  apply size_empty_inv in E. by apply leibniz_equiv in E.
Qed.

Lemma conflicts_dedupe st p md5 :
  conflicts_exact st → conflicts_exact (dedupe st p md5).1.
Proof.
  intros [Hne Hiff]. unfold dedupe.
  destruct md5 as [m0|]; [|done]. destruct (truthy_str m0); [|done].
  destruct (seen_md5_by_path st !! p) as [existing|] eqn:Hp.
  - destruct (bool_decide (m0 ∈ existing)) eqn:Hin; [done|].
    apply bool_decide_eq_false_1 in Hin.
    split; cbn [fst seen_md5_by_path conflict_md5s_by_path].
    + intros q s. destruct (decide (p = q)) as [<-|Hq].
      * rewrite lookup_insert_eq. intros [= <-]. apply grown_non_empty.
      * rewrite lookup_insert_ne by done. apply Hne.
    + intros q s. destruct (decide (p = q)) as [<-|Hq].
      * rewrite !lookup_insert_eq. split; [|by intros [? _]].
        intros [= <-]. split; [done|].
        rewrite size_union by (by apply disjoint_singleton_r).
        rewrite size_singleton.
        specialize (Hne _ _ Hp). apply size_pos_non_empty in Hne. lia.
      * rewrite !lookup_insert_ne by done. apply Hiff.
  - split; cbn [fst seen_md5_by_path conflict_md5s_by_path].
    + intros q s. destruct (decide (p = q)) as [<-|Hq].
      * rewrite lookup_insert_eq. intros [= <-]. apply singleton_non_empty.
      * rewrite lookup_insert_ne by done. apply Hne.
    + intros q s. destruct (decide (p = q)) as [<-|Hq].
      * rewrite lookup_insert_eq. split.
        -- intros [Hseen _]%Hiff. congruence.
        -- intros [[= <-] Hsize]. rewrite size_singleton in Hsize. lia.
      * rewrite lookup_insert_ne by done. apply Hiff.
Qed.

Lemma seen_dedupe_append st entry :
  seen_exact st →
  seen_exact (dedupe (append_manifest st entry) (entry_path entry) (entry_md5 entry)).1.
Proof.
  intros Hseen.
  assert (∀ p m,
    (m ≠ "" ∧ ∃ e, e ∈ manifest st ++ [entry] ∧ entry_path e = p ∧ entry_md5 e = Some m)
    ↔ ((∃ existing, seen_md5_by_path st !! p = Some existing ∧ m ∈ existing)
       ∨ (m ≠ "" ∧ p = entry_path entry ∧ entry_md5 entry = Some m))) as Hsplit.
  { intros p m. rewrite (Hseen p m). split.
    - intros (Hm & e & [Hin| ->%list_elem_of_singleton]%elem_of_app & Hp & Hmd5).
      + left. split; [done|]. by exists e.
      + by right.
    - intros [(Hm & e & Hin & Hp & Hmd5)|(Hm & -> & Hmd5)].
      + split; [done|]. exists e. split; [|done]. apply elem_of_app. by left.
      + split; [done|]. exists entry. split; [|done]. apply elem_of_app. right.
        by apply list_elem_of_singleton. }
  intros p m. unfold dedupe.
  destruct (entry_md5 entry) as [m0|] eqn:Hmd5.
  2:{ cbn [fst append_manifest manifest seen_md5_by_path]. rewrite Hsplit.
      split; [by left|]. by intros [?|(_ & _ & [=])]. }
  destruct (truthy_str m0) eqn:Htruthy.
  2:{ cbn [fst append_manifest manifest seen_md5_by_path]. rewrite Hsplit.
      split; [by left|]. intros [?|(Hm & _ & [= ->])]; [done|]. by destruct m. }
  assert (m0 ≠ "") as Hm0 by (by destruct m0).
  cbn [append_manifest seen_md5_by_path].
  destruct (seen_md5_by_path st !! entry_path entry) as [existing|] eqn:Hp.
  - destruct (bool_decide (m0 ∈ existing)) eqn:Hin.
    + apply bool_decide_eq_true_1 in Hin.
      cbn [fst manifest seen_md5_by_path]. rewrite Hsplit.
      split; [by left|]. intros [?|(Hm & -> & [= ->])]; [done|]. by exists existing.
    + cbn [fst manifest seen_md5_by_path]. rewrite Hsplit.
      destruct (decide (entry_path entry = p)) as [<-|Hq].
      * rewrite lookup_insert_eq, Hp. split.
        -- intros (? & [= <-] & [Hm| ->%elem_of_singleton]%elem_of_union).
           ++ left. by exists existing.
           ++ by right.
        -- intros [(? & [= <-] & Hm)|(Hm & _ & [= ->])].
           ++ eexists. split; [done|]. by apply elem_of_union_l.
           ++ eexists. split; [done|]. by apply elem_of_union_r, elem_of_singleton.
      * rewrite lookup_insert_ne by done. split; [by left|].
        by intros [?|(_ & -> & _)].
  - cbn [fst manifest seen_md5_by_path]. rewrite Hsplit.
    destruct (decide (entry_path entry = p)) as [<-|Hq].
    + rewrite lookup_insert_eq, Hp. split.
      * intros (? & [= <-] & ->%elem_of_singleton). by right.
      * intros [(? & [=] & _)|(Hm & _ & [= ->])]. eexists. split; [done|].
        by apply elem_of_singleton.
    + rewrite lookup_insert_ne by done. split; [by left|].
      by intros [?|(_ & -> & _)].
Qed.

Section ConflictInvariants.
Context `{Hashlib}.
Variable self : Downloader.
Hypothesis Hmanifest_only : manifest_only self = false.
Hypothesis Hverify_only : verify_only self = false.

Lemma maps_after_entry overwrite st y rel content :
  let gate := dedupe (append_manifest st (manifest_entry y.1 rel))
                (PurePath.str rel) (meta_md5Checksum y.1) in
  seen_md5_by_path (after_entry self overwrite st y rel content)
  = seen_md5_by_path gate.1
  ∧ conflict_md5s_by_path (after_entry self overwrite st y rel content)
    = conflict_md5s_by_path gate.1
  ∧ manifest (after_entry self overwrite st y rel content) = manifest gate.1.
Proof.
  unfold after_entry. rewrite Hmanifest_only, Hverify_only. cbn [orb].
  destruct (dedupe _ _ _).2; [done|]. by destruct (local_skip_rule _ _ _ _ _).
Qed.

Lemma exact_after_entry overwrite st y rel content :
  seen_exact st ∧ conflicts_exact st →
  seen_exact (after_entry self overwrite st y rel content)
  ∧ conflicts_exact (after_entry self overwrite st y rel content).
Proof.
  intros [Hseen Hconf].
  destruct (maps_after_entry overwrite st y rel content) as (Hs & Hc & Hm).
  split.
  - intros p m. rewrite Hs, Hm.
    apply (seen_dedupe_append st (manifest_entry y.1 rel) Hseen).
  - unfold conflicts_exact. rewrite Hs, Hc.
    by apply (conflicts_dedupe (append_manifest st (manifest_entry y.1 rel))).
Qed.

End ConflictInvariants.

(** X18: outside manifest-only and verify-only mode, when the listing
    loop is through, [seen_md5_by_path] holds for each path exactly the
    non-empty md5s listed for it, [conflict_md5s_by_path] holds exactly
    the paths with two md5s or more, each with all of its md5s, and so a
    conflict is recorded exactly when two listed entries share a path
    and carry different non-empty md5s. *)
Theorem conflicts_recorded_exactly `{Hashlib} self overwrite target_root ys st w w' :
  manifest_only self = false → verify_only self = false →
  run (for_each (process_entry self overwrite target_root) ys initial_state) w
  = (Return st, w') →
  seen_exact st
  ∧ (∀ p s, conflict_md5s_by_path st !! p = Some s
            ↔ (seen_md5_by_path st !! p = Some s ∧ (2 ≤ size s)%nat))
  ∧ (conflict_md5s_by_path st ≠ ∅
     ↔ ∃ e1 e2 m1 m2,
         e1 ∈ manifest st ∧ e2 ∈ manifest st ∧ entry_path e1 = entry_path e2
         ∧ entry_md5 e1 = Some m1 ∧ entry_md5 e2 = Some m2
         ∧ m1 ≠ "" ∧ m2 ≠ "" ∧ m1 ≠ m2).
Proof.
  intros Hmo Hvo Hrun.
  assert (seen_exact st ∧ conflicts_exact st) as (Hseen & Hne & Hconf).
  { refine (for_each_process_invariant self (λ st, seen_exact st ∧ conflicts_exact st)
              overwrite target_root _ ys initial_state w st w' Hrun _).
    - intros st0 y rel content _. by apply exact_after_entry.
    - split.
      + intros p m. cbn [initial_state seen_md5_by_path manifest]. split.
        * intros (? & Hl & _). by rewrite lookup_empty in Hl.
        * intros (_ & ? & ?%elem_of_nil & _). done.
      + split; intros p s; cbn [initial_state seen_md5_by_path conflict_md5s_by_path];
          rewrite ?lookup_empty; [done|]. split; [done|by intros [? _]]. }
  split; [done|]. split; [done|]. split.
  - intros (p & s & Hps)%map_choose. apply Hconf in Hps as [Hps Hsize].
    assert (∃ m1, m1 ∈ s) as [m1 H1] by (apply size_pos_elem_of; lia).
    assert (∃ m2, m2 ∈ s ∖ {[m1]}) as [m2 H2].
    { apply size_pos_elem_of. rewrite size_difference by (by apply singleton_subseteq_l).
      rewrite size_singleton. lia. }
    destruct (proj1 (Hseen p m1)) as (Hm1 & e1 & ? & ? & ?); [by exists s|].
    apply elem_of_difference in H2 as [H2 Hdiff]. rewrite elem_of_singleton in Hdiff.
    destruct (proj1 (Hseen p m2)) as (Hm2 & e2 & ? & ? & ?); [by exists s|].
    exists e1, e2, m1, m2. repeat split; try done; try congruence.
  - intros (e1 & e2 & m1 & m2 & Hin1 & Hin2 & Hpath & Hmd1 & Hmd2 & Hm1 & Hm2 & Hdiff).
    destruct (proj2 (Hseen (entry_path e1) m1)) as (s1 & Hs1 & Hmem1);
      [split; [done|by exists e1]|].
    destruct (proj2 (Hseen (entry_path e1) m2)) as (s2 & Hs2 & Hmem2);
      [split; [done|by exists e2]|].
    rewrite Hs1 in Hs2. injection Hs2 as <-.
    assert (conflict_md5s_by_path st !! entry_path e1 = Some s1) as Hc.
    { apply Hconf. split; [done|].
      assert ({[m1; m2]} ⊆ s1) as Hsub.
      { apply union_least; by apply singleton_subseteq_l. }
      apply subseteq_size in Hsub.
      rewrite size_union in Hsub by (by apply disjoint_singleton_l, not_elem_of_singleton).
      rewrite !size_singleton in Hsub. lia. }
    intros Hempty. by rewrite Hempty, lookup_empty in Hc.
Qed.

Lemma conflicts_recorded_exactly_witness :
  ∃ st w',
    run (for_each (process_entry (Sample.normal []) false Sample.target_root)
           Example3.conflicting initial_state) Sample.empty_world = (Return st, w')
    ∧ conflict_md5s_by_path st !! "x.pdf" = seen_md5_by_path st !! "x.pdf"
    ∧ conflict_md5s_by_path st ≠ ∅.
Proof.
  eexists _, _.
  match goal with |- ?A ∧ _ => assert A as Hrun by (vm_compute; reflexivity) end.
  split; [exact Hrun|].
  destruct (conflicts_recorded_exactly (Sample.normal []) false Sample.target_root
              Example3.conflicting _ Sample.empty_world _ eq_refl eq_refl Hrun)
    as (_ & _ & Hiff).
  split; [vm_compute; reflexivity|]. apply Hiff.
  exists (mkEntry "ID1" "x.pdf" (Some Example3.first_md5) None),
         (mkEntry "ID2" "x.pdf" (Some Example3.other_md5) None),
         Example3.first_md5, Example3.other_md5.
  split; [apply list_elem_of_here|].
  split; [apply list_elem_of_further, list_elem_of_here|].
  repeat split; discriminate.
Defined.

(* ===================================================================== *)
(** * Listing modes, failed listings, complete downloads                 *)
(* ===================================================================== *)

Lemma keeps_write_manifest q target_root manifest :
  q ≠ target_root // MANIFEST_NAME →
  preserves (keeps q) (_write_manifest target_root manifest).
Proof.
  intros Hq. unfold _write_manifest. destruct manifest as [|entry rest].
  - apply preserves_ret, _.
  - apply preserves_try; [apply _| |intros ?; apply preserves_logger, _].
    apply preserves_bind; [apply _| |intros ?; apply preserves_logger, _].
    unfold write_text. apply preserves_bind; [apply _| |intros ?].
    + by apply keeps_open_wb.
    + by apply keeps_fh_write.
Qed.

Lemma preserves_consume {S} (R : World → World → Prop) `{!FrameRel R}
    generator (body : S → FileMeta * Path → M S) st :
  (∀ st y, preserves R (body st y)) → preserves R (consume generator body st).
Proof.
  intros Hbody. unfold consume.
  apply preserves_bind; [done|by apply preserves_for_each|intros st'].
  destruct generator.2 as [|[]|];
    first [apply preserves_ret, _ | apply preserves_raise, _
          | apply preserves_out_of_fuel, _ | idtac].
  apply preserves_bind; [done|apply preserves_logger, _|intros ?].
  apply preserves_raise, _.
Qed.

Lemma preserves_report_dedupe (R : World → World → Prop) `{!FrameRel R} st :
  preserves R (report_dedupe st).
Proof.
  unfold report_dedupe.
  apply preserves_bind; [done| |intros ?].
  - destruct (negb _); [apply preserves_logger, _|apply preserves_ret, _].
  - destruct (negb _); [apply preserves_logger, _|apply preserves_ret, _].
Qed.

Section ListingModes.
Context `{Hashlib} `{Urllib}.
Variable self : Downloader.
Variable env : Remote.
Hypothesis Hmode : manifest_only self || verify_only self = true.

Lemma keeps_folder_listing_mode q fuel item target_root overwrite :
  q ≠ target_root // MANIFEST_NAME →
  preserves (keeps q) (_download_gdrive_folder self env fuel item target_root overwrite).
Proof.
  intros Hq. unfold _download_gdrive_folder.
  destruct (negb _); [apply preserves_raise, _|].
  apply preserves_bind; [apply _|apply preserves_lift, _|intros ?].
  apply preserves_bind; [apply _|apply preserves_logger, _|intros ?].
  apply preserves_bind; [apply _| |intros st].
  { apply preserves_consume; [apply _|]. intros st y. apply preserves_process_entry, _. }
  apply preserves_bind; [apply _| |intros ?].
  { destruct (use_progress self).
    - apply preserves_bind; [apply _|apply preserves_report_dedupe, _|intros ?].
      by apply keeps_write_manifest.
    - apply preserves_bind; [apply _|by apply keeps_write_manifest|intros ?].
      apply preserves_report_dedupe, _. }
  unfold after_manifest. destruct (manifest_only self); [apply preserves_ret, _|].
  cbn [orb] in Hmode. rewrite Hmode. apply keeps_verify_against_manifest.
Qed.

Lemma keeps_gdrive_folders_listing_mode q fuel gdrive_items target_root overwrite :
  q ≠ target_root // MANIFEST_NAME →
  preserves (keeps q) (gdrive_folders self env fuel gdrive_items target_root overwrite).
Proof.
  intros Hq. induction gdrive_items as [|item rest IH]; cbn [gdrive_folders].
  - apply preserves_ret, _.
  - apply preserves_bind; [apply _|by apply keeps_folder_listing_mode|by intros ?].
Qed.

Lemma keeps_http_files_listing_mode q http_items target_root overwrite :
  preserves (keeps q) (_download_http_files self env http_items target_root overwrite).
Proof.
  unfold _download_http_files. destruct (manifest_only self); [apply preserves_logger, _|].
  cbn [orb] in Hmode. rewrite Hmode. apply preserves_logger, _.
Qed.

End ListingModes.



Section ListingOutcome.
Context `{Hashlib}.
Variable self : Downloader.
Variable env : Remote.

(** The listing loop returns when every yielded path lies under the
    root, and raises without touching a file otherwise. *)
Lemma run_for_each_under_root overwrite target_root ys entries :
  mapM (entry_of target_root) ys = Some entries →
  ∀ st w, ∃ st' w',
    run (for_each (process_entry self overwrite target_root) ys st) w = (Return st', w')
    ∧ fs w' = fs w.
Proof.
  revert entries. induction ys as [|y ys IH]; intros entries Hmap st w; cbn [for_each].
  { exists st, w. by rewrite run_ret. }
  cbn [mapM] in Hmap.
  destruct (PurePath.relative_to y.2 target_root) as [e|rel] eqn:Hrel.
  { assert (entry_of target_root y = None) as He by (unfold entry_of; by rewrite Hrel).
    rewrite He in Hmap. by option_step Hmap. }
  destruct (mapM (entry_of target_root) ys) as [rest|] eqn:Hrest.
  2:{ option_step Hmap. by destruct (entry_of target_root y). }
  destruct (run_process_entry self overwrite target_root st y rel w Hrel)
    as (w1 & Hpass & Hfs1).
  destruct (IH rest eq_refl (after_entry self overwrite st y rel (files (fs w) !! y.2)) w1)
    as (st' & w' & Hrun & Hfs).
  exists st', w'. rewrite run_bind, Hpass. split; [done|congruence].
Qed.

Lemma run_for_each_outcome overwrite target_root ys st w :
  ∃ w', fs w' = fs w
        ∧ ((∃ st', run (for_each (process_entry self overwrite target_root) ys st) w
                   = (Return st', w'))
           ∨ (∃ e, run (for_each (process_entry self overwrite target_root) ys st) w
                   = (Raise e, w'))).
Proof.
  revert st w. induction ys as [|y ys IH]; intros st w; cbn [for_each].
  { exists w. split; [done|]. left. exists st. by rewrite run_ret. }
  rewrite run_bind.
  destruct (PurePath.relative_to y.2 target_root) as [e|rel] eqn:Hrel.
  { rewrite (run_process_entry_raise _ _ _ _ _ _ _ Hrel). exists w. split; [done|].
    right. by exists e. }
  destruct (run_process_entry self overwrite target_root st y rel w Hrel)
    as (w1 & Hpass & Hfs1). rewrite Hpass.
  destruct (IH (after_entry self overwrite st y rel (files (fs w) !! y.2)) w1)
    as (w' & Hfs & Hout).
  exists w'. split; [congruence|done].
Qed.

End ListingOutcome.



Section CompleteDownload.
Context `{Hashlib}.
Variable self : Downloader.
Variable env : Remote.

Lemma futures_after_entry_skipped overwrite st y rel content :
  local_skip_rule (verify_downloads self) overwrite content
    (meta_size y.1) (meta_md5Checksum y.1) = true →
  futures (after_entry self overwrite st y rel content) = futures st.
Proof.
  intros Hskip. unfold after_entry. destruct (_ || _); [done|].
  destruct (dedupe _ _ _).2 eqn:Hgate; [by rewrite futures_dedupe|].
  rewrite Hskip. by rewrite futures_dedupe.
Qed.

(** A listing loop whose files all pass the local check queues nothing. *)
Lemma run_for_each_all_skipped overwrite target_root ys entries :
  mapM (entry_of target_root) ys = Some entries →
  ∀ st w,
    all_pass_local_skip self overwrite (fs w) ys →
    ∃ st' w',
      run (for_each (process_entry self overwrite target_root) ys st) w = (Return st', w')
      ∧ fs w' = fs w ∧ futures st' = futures st
      ∧ manifest st' = manifest st ++ entries.
Proof.
  revert entries. induction ys as [|y ys IH]; intros entries Hmap st w Hall;
    cbn [for_each].
  { injection Hmap as <-. exists st, w. by rewrite run_ret, app_nil_r. }
  cbn [mapM] in Hmap.
  destruct (PurePath.relative_to y.2 target_root) as [e|rel] eqn:Hrel.
  { assert (entry_of target_root y = None) as He by (unfold entry_of; by rewrite Hrel).
    rewrite He in Hmap. by option_step Hmap. }
  assert (entry_of target_root y = Some (manifest_entry y.1 rel)) as He
    by (unfold entry_of; by rewrite Hrel).
  rewrite He in Hmap.
  destruct (mapM (entry_of target_root) ys) as [rest|] eqn:Hrest;
    option_step Hmap; [|done]. injection Hmap as <-.
  apply Forall_cons in Hall as [Hy Hall].
  destruct (run_process_entry self overwrite target_root st y rel w Hrel)
    as (w1 & Hpass & Hfs1).
  unfold all_pass_local_skip in IH. rewrite <- Hfs1 in Hall.
  destruct (IH rest eq_refl (after_entry self overwrite st y rel (files (fs w) !! y.2))
              w1 Hall) as (st' & w' & Hrun & Hfs & Hfut & Hman).
  exists st', w'. rewrite run_bind, Hpass. split; [done|]. split; [congruence|].
  split.
  - rewrite Hfut. by apply futures_after_entry_skipped.
  - rewrite Hman, manifest_after_entry. by rewrite <- app_assoc.
Qed.

End CompleteDownload.

(** X21: a run over a complete download transfers nothing.  In normal
    mode, when every file the walker yields is on disk and passes the
    local check (overwrite off; size and md5 right when verification is
    on), the folder run queues no download and returns, and the disk is
    as before except for the manifest, which is written anew. *)
Theorem complete_download_left_alone `{Hashlib}
    self env fuel item target_root overwrite ys entries w :
  manifest_only self = false → verify_only self = false →
  truthy_scalar (folder_id item) = true → drive_service env = inr tt →
  walk_of env fuel item target_root = (ys, WalkDone) →
  mapM (entry_of target_root) ys = Some entries →
  all_pass_local_skip self overwrite (fs w) ys →
  ∃ w', run (_download_gdrive_folder self env fuel item target_root overwrite) w
        = (Return tt, w')
        ∧ fs w' = written_fs target_root entries (fs w).
Proof.
  intros Hmo Hvo Hid Hsvc Hwalk Hmap Hall.
  destruct (run_for_each_all_skipped self overwrite target_root ys entries Hmap
              initial_state (logged w INFO folder_log) Hall)
    as (st & w1 & Hrun & Hfs1 & Hfut & Hman).
  assert (run (consume (walk_of env fuel item target_root)
                 (process_entry self overwrite target_root) initial_state)
              (logged w INFO folder_log) = (Return st, w1)) as Hloop.
  { unfold consume. rewrite Hwalk. cbn [fst snd]. by rewrite run_bind, Hrun, run_ret. }
  destruct (run_folder_enumerated self env fuel item target_root overwrite w st w1
              Hid Hsvc Hloop) as (w2 & Hrest & Hfs2).
  exists w2. rewrite Hrest. unfold after_manifest. rewrite Hmo, Hvo, Hfut.
  cbn [initial_state futures drain]. rewrite run_ret. split; [done|].
  rewrite Hfs2, Hfs1, Hman. done.
Qed.

Lemma complete_download_left_alone_witness :
  ∃ w', run (_download_gdrive_folder (Sample.normal [Sample.folder "F"])
               (Sample.remote_with Sample.twice_listing Sample.broken_media)
               8 (Sample.folder "F") Sample.target_root false)
            Sample.abc_world
        = (Return tt, w')
        ∧ files (fs w') !! (Sample.target_root // "x.pdf") = Some (encode_utf8 "abc").
Proof.
  destruct (complete_download_left_alone (Sample.normal [Sample.folder "F"])
              (Sample.remote_with Sample.twice_listing Sample.broken_media)
              8 (Sample.folder "F") Sample.target_root false Sample.twice
              [ mkEntry "ID1" "x.pdf" (Some Sample.md5_abc) (Some 3);
                mkEntry "ID2" "x.pdf" (Some Sample.md5_abc) (Some 3) ]
              Sample.abc_world) as (w' & Hrun & Hfs).
  - reflexivity.
  - reflexivity.
  - reflexivity.
  - reflexivity.
  - vm_compute. reflexivity.
  - vm_compute. reflexivity.
  - constructor; [vm_compute; reflexivity|].
    constructor; [vm_compute; reflexivity|]. constructor.
  - exists w'. split; [exact Hrun|]. rewrite Hfs. vm_compute. reflexivity.
Defined.

(* ===================================================================== *)
(** * The constructor and the loop over the configs                      *)
(* ===================================================================== *)

Section CliFacts.
Context `{Hashlib} `{Urllib}.
Variable args : Args.
Variable env : Remote.

(** One pass of the loop never raises: it returns the list it was given,
    with the stem appended when the config failed. *)
Lemma run_process_config fuel failed config_path w :
  ∃ w',
    run (process_config args env fuel failed config_path) w = (OutOfFuel, w')
    ∨ run (process_config args env fuel failed config_path) w = (Return failed, w')
    ∨ run (process_config args env fuel failed config_path) w
      = (Return (failed ++ [stem config_path]), w').
Proof.
  unfold process_config. rewrite run_bind, run_logger. unfold try_except. cbn [run].
  destruct (run _ _) as [[failed'|e|] w1] eqn:Hbody.
  - exists w1. right. left. f_equal.
    rewrite run_bind in Hbody. destruct (run (Downloader_init _ _ _ _ _ _ _ _ _) _)
      as [[d|?|] ?]; [|done..].
    rewrite run_bind in Hbody. destruct (run (download_all _ _ _ _) _) as [[[]|?|] ?];
      [|done..].
    rewrite run_ret in Hbody. by injection Hbody as <- _.
  - rewrite run_bind, run_logger, run_ret. eexists. by right; right.
  - exists w1. by left.
Qed.

Lemma run_process_configs fuel config_paths :
  ∀ failed w, ∃ w',
    run (for_each (process_config args env fuel) config_paths failed) w = (OutOfFuel, w')
    ∨ ∃ more,
        run (for_each (process_config args env fuel) config_paths failed) w
        = (Return (failed ++ more), w')
        ∧ sublist more (stem <$> config_paths).
Proof.
  induction config_paths as [|config_path rest IH]; intros failed w; cbn [for_each].
  { exists w. right. exists []. by rewrite run_ret, app_nil_r. }
  rewrite run_bind.
  destruct (run_process_config fuel failed config_path w) as (w1 & [->| [->| ->]]).
  - exists w1. by left.
  - destruct (IH failed w1) as (w' & [Hout|(more & Hrun & Hsub)]).
    + exists w'. by left.
    + exists w'. right. exists more. split; [done|]. by apply sublist_cons.
  - destruct (IH (failed ++ [stem config_path]) w1) as (w' & [Hout|(more & Hrun & Hsub)]).
    + exists w'. by left.
    + exists w'. right. exists (stem config_path :: more).
      rewrite Hrun, <- app_assoc. split; [done|]. by apply sublist_skip.
Qed.

End CliFacts.



(* ===================================================================== *)
(** * The manifest's paths lead back to the files                        *)
(* ===================================================================== *)

Lemma split_sep_cons (s : string) : ∃ w ws, PurePath.split_sep s = w :: ws.
Proof.
  induction s as [|c s (w & ws & IH)]; cbn [PurePath.split_sep]; [by eauto|].
  rewrite IH. destruct (Ascii.eqb c "/"); eauto.
Qed.

Lemma split_sep_no_sep (s : string) :
  PurePath.has_sep s = false → PurePath.split_sep s = [s].
Proof.
  induction s as [|c s IH]; cbn [PurePath.split_sep PurePath.has_sep]; [done|].
  intros [Hc Hs]%orb_false_elim. by rewrite (IH Hs), Hc.
Qed.

Lemma split_sep_app_sep (a b : string) :
  PurePath.has_sep a = false →
  PurePath.split_sep (a +:+ "/" +:+ b) = a :: PurePath.split_sep b.
Proof.
  induction a as [|c a IH]; cbn [PurePath.has_sep].
  - intros _. change ("" +:+ "/" +:+ b) with (String "/" b).
    cbn [PurePath.split_sep]. by destruct (split_sep_cons b) as (w & ws & ->).
  - intros [Hc Ha]%orb_false_elim.
    change (String c a +:+ "/" +:+ b) with (String c (a +:+ "/" +:+ b)).
    cbn [PurePath.split_sep]. by rewrite (IH Ha), Hc.
Qed.

Lemma split_sep_parts_no_sep (s : string) :
  Forall (λ x, PurePath.has_sep x = false) (PurePath.split_sep s).
Proof.
  induction s as [|c s IH]; cbn [PurePath.split_sep]; [by repeat constructor|].
  destruct (split_sep_cons s) as (w & ws & Hs). rewrite Hs in IH |- *.
  apply Forall_cons in IH as [Hw Hws].
  destruct (Ascii.eqb c "/") eqn:Hc.
  - by repeat constructor.
  - constructor; [|done]. cbn [PurePath.has_sep]. by rewrite Hc, Hw.
Qed.

Lemma split_join_sep (ps : list string) :
  ps ≠ [] → Forall (λ x, PurePath.has_sep x = false) ps →
  PurePath.split_sep (PurePath.join_sep ps) = ps.
Proof.
  induction ps as [|x ps IH]; [done|]. intros _ [Hx Hps]%Forall_cons.
  destruct ps as [|y ps]; cbn [PurePath.join_sep].
  - by apply split_sep_no_sep.
  - rewrite split_sep_app_sep by done. f_equal. by apply IH.
Qed.

Lemma parse_root_not_slash c (s : string) :
  Ascii.eqb c "/" = false → PurePath.parse_root (String c s) = "".
Proof.
  intros Hc. destruct c as [[] [] [] [] [] [] [] []]; try done.
Qed.

Lemma parts_parse_plain (s : string) :
  Forall (λ x, plain_part x = true) (PurePath.parts (PurePath.parse s)).
Proof.
  cbn [PurePath.parse PurePath.parts].
  induction (split_sep_parts_no_sep s) as [|x l Hx _ IH]; [constructor|].
  cbn [List.filter]. destruct (PurePath.keep_part x) eqn:Hkeep; [|done].
  constructor; [|done]. unfold plain_part. by rewrite Hkeep, Hx.
Qed.

(** [PurePosixPath(str(rel))] is [rel] again for a relative path of
    plain components. *)
Lemma parse_str_plain (rest : list string) :
  Forall (λ x, plain_part x = true) rest →
  PurePath.parse (PurePath.str (PurePath.mk "" rest)) = PurePath.mk "" rest.
Proof.
  intros Hplain. unfold PurePath.str. cbn [PurePath.root PurePath.parts].
  destruct rest as [|x rest]; [done|].
  change ("" +:+ PurePath.join_sep (x :: rest)) with (PurePath.join_sep (x :: rest)).
  assert (Forall (λ x, PurePath.has_sep x = false) (x :: rest)) as Hsep.
  { eapply Forall_impl; [exact Hplain|]. intros y Hy. unfold plain_part in Hy.
    apply andb_true_iff in Hy as [_ Hy]. by destruct (PurePath.has_sep y). }
  unfold PurePath.parse. rewrite split_join_sep by done. f_equal.
  - apply Forall_cons in Hplain as [Hx _]. apply Forall_cons in Hsep as [Hsx _].
    destruct x as [|c x]; [done|]. cbn [PurePath.has_sep] in Hsx.
    apply orb_false_elim in Hsx as [Hc _].
    destruct rest; cbn [PurePath.join_sep].
    + by apply parse_root_not_slash.
    + change (String c x +:+ ?r) with (String c (x +:+ r)). by apply parse_root_not_slash.
  - clear Hsep. induction Hplain as [|y ys Hy _ IH]; [done|].
    cbn [List.filter]. unfold plain_part in Hy. apply andb_true_iff in Hy as [-> _].
    by rewrite IH.
Qed.

Lemma plainly_below_refl dir : plainly_below dir dir.
Proof. split; [done|]. exists []. by rewrite app_nil_r. Qed.

Lemma plainly_below_joinpath dir p (s : string) :
  PurePath.parse_root s = "" → plainly_below dir p → plainly_below dir (p // s).
Proof.
  intros Hs (Hroot & rest & Hparts & Hplain). rewrite joinpath_relative by done.
  split; [done|]. cbn [PurePath.parts]. rewrite Hparts, <- app_assoc.
  eexists. split; [done|]. apply Forall_app. split; [done|apply parts_parse_plain].
Qed.

Lemma round_trip_plainly_below dir p :
  plainly_below dir p →
  ∃ rel, PurePath.relative_to p dir = inr rel ∧ dir // PurePath.str rel = p.
Proof.
  intros (Hroot & rest & Hparts & Hplain). exists (PurePath.mk "" rest). split.
  - unfold PurePath.relative_to.
    by rewrite Hroot, String.eqb_refl, Hparts, strip_prefix_app.
  - unfold PurePath.joinpath. rewrite parse_str_plain by done.
    cbn [PurePath.root PurePath.parts truthy_str]. destruct p as [r ps].
    cbn [PurePath.root PurePath.parts] in *. by rewrite Hroot, Hparts.
Qed.

(** X23: the path of a manifest entry leads back to the file.  When no
    listed name starts with a slash, every pair the walker yields has a
    manifest entry, and joining the entry's path to the root, as the
    check against the manifest does, gives the very path the download
    writes to. *)
Theorem manifest_path_round_trip env fuel folder_id local_root recursive y :
  relative_names env →
  y ∈ (_walk_folder env fuel folder_id local_root recursive).1 →
  ∃ entry, entry_of local_root y = Some entry
           ∧ local_root // entry_path entry = y.2.
Proof.
  intros Hrel Hy.
  assert (plainly_below local_root y.2) as Hbelow.
  { revert y Hy. apply Forall_forall. unfold _walk_folder.
    apply (walk_loop_invariant env _ (λ frame, plainly_below local_root frame.2));
      [|by repeat constructor; apply plainly_below_refl|done].
    intros frame children stack Hframe Hstack (page_token & response & page_size & Hlist & ->).
    specialize (Hrel _ _ Hlist). rewrite Forall_forall in Hrel. split.
    - apply Forall_forall. intros y (child & size & Hin & _ & _ & ->)%visit_page_yields.
      apply plainly_below_joinpath; [by apply Hrel|done].
    - intros stack' (pushed & -> & Hpushed)%visit_page_pushes.
      apply Forall_app. split; [done|]. eapply Forall_impl; [exact Hpushed|].
      intros ? (child & Hin & _ & ->). apply plainly_below_joinpath; [by apply Hrel|done]. }
  destruct (round_trip_plainly_below _ _ Hbelow) as (rel & Hto & Hback).
  exists (manifest_entry y.1 rel). unfold entry_of. by rewrite Hto.
Qed.

Lemma manifest_path_round_trip_witness :
  Forall (λ y, ∃ entry, entry_of Sample.target_root y = Some entry
                        ∧ Sample.target_root // entry_path entry = y.2)
    (_walk_folder (Sample.remote_with Sample.tree_listing Sample.no_media) 9 "R"
       Sample.target_root true).1.
Proof.
  apply Forall_forall. intros y Hy.
  exact (manifest_path_round_trip
           (Sample.remote_with Sample.tree_listing Sample.no_media) 9 "R"
           Sample.target_root true y tree_listing_relative_names Hy).
Defined.

Lemma entry_passes_written `{Hashlib} self target_root manifest f entry :
  target_root // entry_path entry ≠ target_root // MANIFEST_NAME →
  entry_passes self target_root (written_fs target_root manifest f) entry
  = entry_passes self target_root f entry.
Proof.
  intros Hne. unfold entry_passes, written_fs. destruct manifest; [done|].
  destruct (bool_decide _); [done|]. cbn [files]. by rewrite lookup_insert_ne.
Qed.

Lemma forallb_entry_passes_written `{Hashlib} self target_root manifest f entries :
  Forall (λ entry, target_root // entry_path entry ≠ target_root // MANIFEST_NAME)
         entries →
  forallb (entry_passes self target_root (written_fs target_root manifest f)) entries
  = forallb (entry_passes self target_root f) entries.
Proof.
  induction 1 as [|entry rest Hentry _ IH]; [done|]. cbn [forallb].
  by rewrite IH, entry_passes_written.
Qed.

(** X24: a verify-only run checks the files it lists.  In verify-only
    mode, when the listing of a folder completes and no listed file is
    the manifest itself, the folder run writes the manifest and then
    returns exactly when every listed file passes the verifier on the
    disk as it was, and raises [RuntimeError] otherwise; no file other
    than the manifest changes. *)
Theorem verify_only_run_checks_listed_files `{Hashlib}
    self env fuel item target_root overwrite ys entries w :
  manifest_only self = false → verify_only self = true →
  truthy_scalar (folder_id item) = true → drive_service env = inr tt →
  walk_of env fuel item target_root = (ys, WalkDone) →
  mapM (entry_of target_root) ys = Some entries →
  Forall (λ entry, target_root // entry_path entry ≠ target_root // MANIFEST_NAME)
         entries →
  ∃ w', run (_download_gdrive_folder self env fuel item target_root overwrite) w
        = ((if forallb (entry_passes self target_root (fs w)) entries
            then Return tt
            else Raise (RuntimeError "Verification failed - see log for details")), w')
        ∧ fs w' = written_fs target_root entries (fs w).
Proof.
  intros Hmo Hvo Hid Hsvc Hwalk Hmap Hother.
  destruct (run_for_each_under_root self overwrite target_root ys entries Hmap
              initial_state (logged w INFO folder_log)) as (st & w1 & Hrun & Hfs1).
  destruct (run_for_each_process self overwrite target_root ys _ _ _ _ Hrun)
    as ((entries' & Hmap' & Hman) & _).
  rewrite Hmap in Hmap'. injection Hmap' as <-. cbn [initial_state manifest app] in Hman.
  assert (run (consume (walk_of env fuel item target_root)
                 (process_entry self overwrite target_root) initial_state)
              (logged w INFO folder_log) = (Return st, w1)) as Hloop.
  { unfold consume. rewrite Hwalk. cbn [fst snd]. by rewrite run_bind, Hrun, run_ret. }
  destruct (run_folder_enumerated self env fuel item target_root overwrite w st w1
              Hid Hsvc Hloop) as (w2 & Hrest & Hfs2).
  rewrite Hman, Hfs1 in Hfs2. cbn [logged fs] in Hfs2.
  rewrite Hrest. unfold after_manifest. rewrite Hmo, Hvo, Hman.
  destruct (run_verify_against_manifest self target_root entries w2) as (w3 & Hv & Hfs3).
  exists w3. split; [|congruence]. rewrite Hv. do 2 f_equal.
  rewrite Hfs2. by rewrite forallb_entry_passes_written.
Qed.

Lemma verify_only_run_checks_listed_files_witness :
  ∃ w', run (_download_gdrive_folder
               {| config := Sample.config_of [Sample.folder "F"];
                  max_http_workers := 8; max_drive_workers := 4;
                  manifest_only := false; verify_only := true;
                  verify_downloads := true; use_progress := false |}
               (Sample.remote_with Sample.twice_listing Sample.broken_media)
               8 (Sample.folder "F") Sample.target_root false)
            Sample.stale_world
        = (Raise (RuntimeError "Verification failed - see log for details"), w')
        ∧ files (fs w') !! (Sample.target_root // "x.pdf") = Some (encode_utf8 "old").
Proof.
  destruct (verify_only_run_checks_listed_files
              {| config := Sample.config_of [Sample.folder "F"];
                 max_http_workers := 8; max_drive_workers := 4;
                 manifest_only := false; verify_only := true;
                 verify_downloads := true; use_progress := false |}
              (Sample.remote_with Sample.twice_listing Sample.broken_media)
              8 (Sample.folder "F") Sample.target_root false Sample.twice
              [ mkEntry "ID1" "x.pdf" (Some Sample.md5_abc) (Some 3);
                mkEntry "ID2" "x.pdf" (Some Sample.md5_abc) (Some 3) ]
              Sample.stale_world) as (w' & Hrun & Hfs).
  - reflexivity.
  - reflexivity.
  - reflexivity.
  - reflexivity.
  - vm_compute. reflexivity.
  - vm_compute. reflexivity.
  - constructor; [vm_compute; discriminate|].
    constructor; [vm_compute; discriminate|]. constructor.
  - exists w'. split.
    + rewrite Hrun. f_equal.
    + rewrite Hfs. vm_compute. reflexivity.
Defined.

(* ===================================================================== *)
(** * What the dedupe counter counts                                     *)
(* ===================================================================== *)

Lemma repeated_from_snoc earlier rest entry :
  repeated_from earlier (rest ++ [entry])
  = repeated_from earlier rest + (if repeats (earlier ++ rest) entry then 1 else 0).
Proof.
  revert earlier. induction rest as [|e rest IH]; intros earlier;
    cbn [app repeated_from].
  - rewrite app_nil_r. lia.
  - rewrite IH, <- app_assoc. cbn [app]. lia.
Qed.

Lemma repeated_entries_snoc manifest entry :
  repeated_entries (manifest ++ [entry])
  = repeated_entries manifest + (if repeats manifest entry then 1 else 0).
Proof. unfold repeated_entries. by rewrite repeated_from_snoc. Qed.

Lemma repeats_iff earlier entry :
  repeats earlier entry = true
  ↔ ∃ m, entry_md5 entry = Some m ∧ m ≠ ""
         ∧ ∃ e, e ∈ earlier ∧ entry_path e = entry_path entry ∧ entry_md5 e = Some m.
Proof.
  unfold repeats. rewrite andb_true_iff, existsb_exists. split.
  - intros [Htruthy (e & Hin & [Hp Hm]%bool_decide_eq_true_1)].
    destruct (entry_md5 entry) as [m|] eqn:Hmd5; [|done].
    exists m. split; [done|]. split; [by apply truthy_Some|].
    exists e. split; [by apply list_elem_of_In|done].
  - intros (m & Hmd5 & Hm & e & Hin & Hp & He). rewrite Hmd5. split.
    + by apply truthy_Some.
    + exists e. split; [by apply list_elem_of_In|]. by apply bool_decide_eq_true_2.
Qed.

(** The gate of the loop says "duplicate" exactly for an entry that
    repeats an earlier one. *)
Lemma dedupe_flag_repeats st entry :
  seen_exact st →
  (dedupe (append_manifest st entry) (entry_path entry) (entry_md5 entry)).2
  = repeats (manifest st) entry.
Proof.
  intros Hseen. apply eq_true_iff_eq. rewrite repeats_iff. unfold dedupe.
  cbn [append_manifest seen_md5_by_path].
  destruct (entry_md5 entry) as [m|] eqn:Hmd5.
  2:{ split; [done|]. by intros (? & [=] & _). }
  destruct (truthy_str m) eqn:Htruthy.
  2:{ split; [done|]. intros (? & [= <-] & Hm & _). by destruct m. }
  assert (m ≠ "") as Hm by (by destruct m).
  destruct (seen_md5_by_path st !! entry_path entry) as [existing|] eqn:Hp.
  - destruct (bool_decide (m ∈ existing)) eqn:Hin; cbn [snd].
    + apply bool_decide_eq_true_1 in Hin. split; [intros _|done].
      exists m. split; [done|]. split; [done|].
      by destruct (proj1 (Hseen (entry_path entry) m)) as (_ & e & ? & ? & ?);
        [by exists existing|exists e].
    + apply bool_decide_eq_false_1 in Hin. split; [done|].
      intros (? & [= <-] & _ & e & He & Hpath & Hmd).
      destruct (proj2 (Hseen (entry_path entry) m)) as (existing' & Hp' & Hin');
        [split; [done|by exists e]|].
      congruence.
  - cbn [snd]. split; [done|].
    intros (? & [= <-] & _ & e & He & Hpath & Hmd).
    destruct (proj2 (Hseen (entry_path entry) m)) as (existing' & Hp' & Hin');
      [split; [done|by exists e]|].
    congruence.
Qed.

Lemma skipped_dedupe st p md5 :
  skipped_duplicate_count (dedupe st p md5).1
  = skipped_duplicate_count st + (if (dedupe st p md5).2 then 1 else 0).
Proof.
  unfold dedupe. destruct md5 as [m|]; [|cbn; lia].
  destruct (truthy_str m); [|cbn; lia].
  destruct (seen_md5_by_path st !! p); [|cbn; lia].
  destruct (bool_decide _); cbn; lia.
Qed.

Lemma skipped_count_repeated `{Hashlib} self overwrite target_root ys st w w' :
  manifest_only self = false → verify_only self = false →
  run (for_each (process_entry self overwrite target_root) ys initial_state) w
  = (Return st, w') →
  skipped_duplicate_count st = repeated_entries (manifest st).
Proof.
  intros Hmo Hvo Hrun.
  assert ((seen_exact st ∧ conflicts_exact st)
          ∧ skipped_duplicate_count st = repeated_entries (manifest st)) as [_ Hcount];
    [|done].
  refine (for_each_process_invariant self
            (λ st, (seen_exact st ∧ conflicts_exact st)
                   ∧ skipped_duplicate_count st = repeated_entries (manifest st))
            overwrite target_root _ ys initial_state w st w' Hrun _).
  - intros st0 y rel content _ [Hexact Hcount]. split.
    { by apply exact_after_entry. }
    destruct Hexact as [Hseen _].
    rewrite manifest_after_entry, repeated_entries_snoc.
    rewrite <- (dedupe_flag_repeats st0 (manifest_entry y.1 rel) Hseen), <- Hcount.
    change (entry_path (manifest_entry y.1 rel)) with (PurePath.str rel).
    change (entry_md5 (manifest_entry y.1 rel)) with (meta_md5Checksum y.1).
    unfold after_entry. rewrite Hmo, Hvo. cbn [orb].
    pose proof (skipped_dedupe (append_manifest st0 (manifest_entry y.1 rel))
                  (PurePath.str rel) (meta_md5Checksum y.1)) as Hskip.
    change (skipped_duplicate_count (append_manifest st0 (manifest_entry y.1 rel)))
      with (skipped_duplicate_count st0) in Hskip.
    destruct (dedupe _ _ _).2; [done|].
    destruct (local_skip_rule _ _ _ _ _); [done|].
    by cbn [submit_download skipped_duplicate_count].
  - split; [|done]. split.
    + intros p m. cbn [initial_state seen_md5_by_path manifest]. split.
      * intros (? & Hl & _). by rewrite lookup_empty in Hl.
      * intros (_ & ? & ?%elem_of_nil & _). done.
    + split; intros p s; cbn [initial_state seen_md5_by_path conflict_md5s_by_path];
        rewrite ?lookup_empty; [done|]. split; [done|by intros [? _]].
Qed.

(** X25: what the dedupe counter counts.  Outside manifest-only and
    verify-only mode, when the listing loop is through,
    [skipped_duplicate_count] is the number of manifest entries that
    repeat the path and the non-empty md5 of an entry listed before
    them; entries without md5 are never counted. *)
Theorem skipped_count_is_repeated_entries `{Hashlib}
    self overwrite target_root ys st w w' :
  manifest_only self = false → verify_only self = false →
  run (for_each (process_entry self overwrite target_root) ys initial_state) w
  = (Return st, w') →
  skipped_duplicate_count st = repeated_entries (manifest st)
  ∧ ∀ earlier entry,
      repeats earlier entry = true
      ↔ ∃ m, entry_md5 entry = Some m ∧ m ≠ ""
             ∧ ∃ e, e ∈ earlier ∧ entry_path e = entry_path entry
                    ∧ entry_md5 e = Some m.
Proof.
  intros Hmo Hvo Hrun. split; [by eapply skipped_count_repeated|apply repeats_iff].
Qed.

Lemma skipped_count_is_repeated_entries_witness :
  ∃ st w',
    run (for_each (process_entry (Sample.normal []) false Sample.target_root)
           Example3.conflicting initial_state) Sample.empty_world = (Return st, w')
    ∧ skipped_duplicate_count st = 1
    ∧ repeated_entries (manifest st) = 1.
Proof.
  eexists _, _.
  match goal with |- ?A ∧ _ => assert A as Hrun by (vm_compute; reflexivity) end.
  split; [exact Hrun|].
  destruct (skipped_count_is_repeated_entries (Sample.normal []) false
              Sample.target_root Example3.conflicting _ Sample.empty_world _
              eq_refl eq_refl Hrun) as [Hcount _].
  split; [vm_compute; reflexivity|]. rewrite <- Hcount. vm_compute. reflexivity.
Defined.

(* ===================================================================== *)
(** * The manifest cleaner                                               *)
(* ===================================================================== *)

Lemma dedupe_loop_snoc entries entry :
  dedupe_loop (entries ++ [entry]) = dedupe_entry (dedupe_loop entries) entry.
Proof. unfold dedupe_loop. by rewrite foldl_app. Qed.

(** The keys seen are those of the entries read, and those of the
    entries kept. *)
Lemma seen_keys_exact entries p m :
  (p, m) ∈ seen_keys (dedupe_loop entries)
  ↔ ∃ e, e ∈ entries ∧ entry_path e = p ∧ entry_md5 e = Some m.
Proof.
  induction entries as [|entry entries IH] using rev_ind.
  { split; [by intros ?%elem_of_empty|by intros (? & ?%elem_of_nil & _)]. }
  rewrite dedupe_loop_snoc. unfold dedupe_entry.
  assert ((∃ e, e ∈ entries ++ [entry] ∧ entry_path e = p ∧ entry_md5 e = Some m)
          ↔ ((p, m) ∈ seen_keys (dedupe_loop entries)
             ∨ (entry_path entry = p ∧ entry_md5 entry = Some m))) as ->.
  { rewrite IH. split.
    - intros (e & [Hin| ->%list_elem_of_singleton]%elem_of_app & Hp & Hm);
        [left; by exists e|by right].
    - intros [(e & Hin & ?)|[? ?]].
      + exists e. split; [apply elem_of_app; by left|done].
      + exists entry. split; [|done]. apply elem_of_app. right.
        by apply list_elem_of_singleton. }
  destruct (entry_md5 entry) as [md5|] eqn:Hmd5; cbn [seen_keys].
  2:{ split; [by left|]. by intros [?|[_ [=]]]. }
  destruct (bool_decide _) eqn:Hseen; cbn [seen_keys].
  - apply bool_decide_eq_true_1 in Hseen. split; [by left|].
    intros [?|[<- [= <-]]]; done.
  - rewrite elem_of_union, elem_of_singleton. split.
    + intros [?|[= -> ->]]; [by left|by right].
    + intros [?|[<- [= <-]]]; [by left|by right].
Qed.

Lemma seen_keys_kept entries p m :
  (p, m) ∈ seen_keys (dedupe_loop entries)
  ↔ ∃ e, e ∈ deduped (dedupe_loop entries) ∧ entry_path e = p ∧ entry_md5 e = Some m.
Proof.
  induction entries as [|entry entries IH] using rev_ind.
  { split; [by intros ?%elem_of_empty|by intros (? & ?%elem_of_nil & _)]. }
  rewrite dedupe_loop_snoc. unfold dedupe_entry.
  destruct (entry_md5 entry) as [md5|] eqn:Hmd5; cbn [seen_keys deduped].
  - destruct (bool_decide _) eqn:Hseen; cbn [seen_keys deduped]; [done|].
    rewrite elem_of_union, elem_of_singleton, IH. split.
    + intros [(e & Hin & ?)|[= -> ->]].
      * exists e. split; [apply elem_of_app; by left|done].
      * exists entry. split; [|done]. apply elem_of_app. right.
        by apply list_elem_of_singleton.
    + intros (e & [Hin| ->%list_elem_of_singleton]%elem_of_app & Hp & Hm).
      * left. by exists e.
      * right. congruence.
  - rewrite IH. split.
    + intros (e & Hin & ?). exists e. split; [apply elem_of_app; by left|done].
    + intros (e & [Hin| ->%list_elem_of_singleton]%elem_of_app & Hp & Hm);
        [by exists e|congruence].
Qed.

Lemma deduped_sublist entries : sublist (deduped (dedupe_loop entries)) entries.
Proof.
  induction entries as [|entry entries IH] using rev_ind; [done|].
  rewrite dedupe_loop_snoc. unfold dedupe_entry.
  destruct (entry_md5 entry); [destruct (bool_decide _)|]; cbn [deduped].
  - by apply sublist_inserts_r.
  - by apply sublist_app.
  - by apply sublist_app.
Qed.

Lemma deduped_counts entries :
  0 ≤ duplicates_removed (dedupe_loop entries)
  ∧ Z.of_nat (length entries)
    = Z.of_nat (length (deduped (dedupe_loop entries)))
      + duplicates_removed (dedupe_loop entries).
Proof.
  induction entries as [|entry entries [IH1 IH2]] using rev_ind; [done|].
  rewrite dedupe_loop_snoc, length_app. unfold dedupe_entry. cbn [length].
  destruct (entry_md5 entry); [destruct (bool_decide _)|];
    cbn [deduped duplicates_removed]; rewrite ?length_app; cbn [length]; lia.
Qed.

Lemma distinct_keys_snoc entries entry :
  distinct_keys entries →
  (∀ m e, entry_md5 entry = Some m → e ∈ entries →
          entry_path e = entry_path entry → entry_md5 e ≠ Some m) →
  distinct_keys (entries ++ [entry]).
Proof.
  intros Hdistinct Hnew i j e1 e2 Hij H1 H2 Hpath Hmd5.
  pose proof (lookup_lt_Some _ _ _ H2) as Hj. rewrite length_app in Hj. cbn [length] in Hj.
  rewrite lookup_app_l in H1 by lia.
  destruct (decide (j < length entries)%nat) as [Hlt|Hge].
  { rewrite lookup_app_l in H2 by lia.
    exact (Hdistinct i j e1 e2 Hij H1 H2 Hpath Hmd5). }
  rewrite lookup_app_r in H2 by lia.
  destruct (j - length entries)%nat as [|k]; [|by destruct k]. injection H2 as <-.
  destruct (entry_md5 entry) as [m|] eqn:Hm; [|done].
  destruct (Hnew m e1 eq_refl (list_elem_of_lookup_2 _ _ _ H1) Hpath Hmd5).
Qed.

Lemma deduped_distinct entries : distinct_keys (deduped (dedupe_loop entries)).
Proof.
  induction entries as [|entry entries IH] using rev_ind.
  { intros i j e1 e2 _ H1.
    change (deduped (dedupe_loop [])) with (@nil ManifestEntry) in H1.
    by rewrite lookup_nil in H1. }
  rewrite dedupe_loop_snoc. unfold dedupe_entry.
  destruct (entry_md5 entry) as [md5|] eqn:Hmd5; cbn [deduped].
  - destruct (bool_decide _) eqn:Hseen; cbn [deduped]; [exact IH|].
    apply bool_decide_eq_false_1 in Hseen. apply distinct_keys_snoc; [exact IH|].
    intros m e Hm Hin Hpath He. rewrite Hmd5 in Hm. injection Hm as <-.
    apply Hseen, seen_keys_kept. by exists e.
  - apply distinct_keys_snoc; [exact IH|]. intros m e Hm. congruence.
Qed.

(** A manifest without repeated keys goes through unchanged. *)
Lemma dedupe_loop_distinct entries :
  distinct_keys entries →
  deduped (dedupe_loop entries) = entries
  ∧ duplicates_removed (dedupe_loop entries) = 0.
Proof.
  induction entries as [|entry entries IH] using rev_ind; [done|].
  intros Hdistinct.
  destruct IH as [IHkept IHnone].
  { intros i j e1 e2 Hij H1 H2. apply (Hdistinct i j e1 e2 Hij).
    - by apply lookup_app_l_Some.
    - by apply lookup_app_l_Some. }
  rewrite dedupe_loop_snoc. unfold dedupe_entry.
  destruct (entry_md5 entry) as [md5|] eqn:Hmd5; cbn [deduped duplicates_removed].
  2:{ by rewrite IHkept. }
  destruct (bool_decide _) eqn:Hseen; cbn [deduped duplicates_removed].
  2:{ by rewrite IHkept. }
  apply bool_decide_eq_true_1, seen_keys_exact in Hseen as (e & Hin & Hpath & He).
  apply list_elem_of_lookup_1 in Hin as [i Hi].
  pose proof (lookup_lt_Some _ _ _ Hi) as Hlt.
  assert (entry_md5 e = None); [|congruence].
  apply (Hdistinct i (length entries) e entry Hlt).
  - by apply lookup_app_l_Some.
  - by rewrite lookup_app_r, Nat.sub_diag.
  - done.
  - congruence.
Qed.

(** X26: the loop of [dedupe_manifest] keeps the first entry of every
    path and md5.  What it keeps is a sublist of the manifest, in the
    manifest's order; the entries kept and the duplicates removed add up
    to the entries read; every path and md5 of the manifest is still
    there, once; and a second pass removes nothing. *)
Theorem dedupe_manifest_keeps_first entries :
  let st := dedupe_loop entries in
  sublist (deduped st) entries
  ∧ 0 ≤ duplicates_removed st
  ∧ Z.of_nat (length entries) = Z.of_nat (length (deduped st)) + duplicates_removed st
  ∧ (∀ e, e ∈ entries →
       ∃ e', e' ∈ deduped st ∧ entry_path e' = entry_path e
             ∧ entry_md5 e' = entry_md5 e)
  ∧ distinct_keys (deduped st)
  ∧ deduped (dedupe_loop (deduped st)) = deduped st
  ∧ duplicates_removed (dedupe_loop (deduped st)) = 0.
Proof.
  cbv zeta. split; [apply deduped_sublist|]. destruct (deduped_counts entries) as [? ?].
  split; [done|]. split; [done|]. split.
  - intros e Hin. destruct (entry_md5 e) as [m|] eqn:Hm.
    + apply seen_keys_kept, seen_keys_exact. by exists e.
    + exists e. split; [|done]. clear -Hin Hm.
      induction entries as [|entry entries IH] using rev_ind.
      { by apply elem_of_nil in Hin. }
      rewrite dedupe_loop_snoc. unfold dedupe_entry.
      apply elem_of_app in Hin as [Hin| ->%list_elem_of_singleton].
      * specialize (IH Hin).
        destruct (entry_md5 entry); [destruct (bool_decide _)|]; cbn [deduped];
          [done|apply elem_of_app; by left..].
      * rewrite Hm. cbn [deduped]. apply elem_of_app. right.
        by apply list_elem_of_singleton.
  - split; [apply deduped_distinct|]. apply dedupe_loop_distinct, deduped_distinct.
Qed.

Lemma duplicates_are_repeats entries :
  Forall (λ e, entry_md5 e ≠ Some "") entries →
  duplicates_removed (dedupe_loop entries) = repeated_entries entries.
Proof.
  induction entries as [|entry entries IH] using rev_ind; [done|].
  intros [Hentries Hentry%Forall_inv]%Forall_app.
  rewrite dedupe_loop_snoc, repeated_entries_snoc, <- (IH Hentries).
  unfold dedupe_entry.
  destruct (entry_md5 entry) as [md5|] eqn:Hmd5.
  2:{ unfold repeats. rewrite Hmd5. cbn. lia. }
  assert (bool_decide ((entry_path entry, md5) ∈ seen_keys (dedupe_loop entries))
          = repeats entries entry) as ->.
  { apply eq_true_iff_eq. rewrite bool_decide_eq_true, seen_keys_exact, repeats_iff.
    split.
    - intros (e & Hin & Hpath & He). exists md5. split; [done|].
      split; [congruence|]. by exists e.
    - intros (m & Hm & _ & e & Hin & Hpath & He). exists e. split; [done|].
      split; [done|]. congruence. }
  destruct (repeats entries entry); cbn [duplicates_removed]; lia.
Qed.

(** X27: the cleaner removes what the downloader reported.  When no
    listed md5 is the empty string, the loop of [dedupe_manifest], run on
    the manifest of a listing loop outside manifest-only and verify-only
    mode, removes exactly as many entries as the downloader counted as
    deduplicated, and so keeps one entry per listed pair that was not
    skipped as a duplicate. *)
Theorem cleaner_removes_what_loop_skipped `{Hashlib}
    self overwrite target_root ys st w w' :
  manifest_only self = false → verify_only self = false →
  run (for_each (process_entry self overwrite target_root) ys initial_state) w
  = (Return st, w') →
  Forall (λ y, meta_md5Checksum y.1 ≠ Some "") ys →
  duplicates_removed (dedupe_loop (manifest st)) = skipped_duplicate_count st
  ∧ Z.of_nat (length (deduped (dedupe_loop (manifest st))))
    = Z.of_nat (length ys) - skipped_duplicate_count st.
Proof.
  intros Hmo Hvo Hrun Hmd5.
  destruct (run_for_each_process self overwrite target_root ys _ _ _ _ Hrun)
    as ((entries & Hmap & Hman) & _).
  cbn [initial_state manifest app] in Hman.
  assert (Forall (λ e, entry_md5 e ≠ Some "") (manifest st)) as Hentries.
  { rewrite Hman. apply mapM_Some_1 in Hmap. clear -Hmap Hmd5.
    induction Hmap as [|y entry ys entries Hy _ IH]; [constructor|].
    apply Forall_cons in Hmd5 as [Hy5 Hys]. constructor; [|by apply IH].
    unfold entry_of in Hy. destruct (PurePath.relative_to _ _); [done|].
    by injection Hy as <-. }
  assert (duplicates_removed (dedupe_loop (manifest st)) = skipped_duplicate_count st)
    as Hsame.
  { rewrite (skipped_count_repeated self overwrite target_root ys st w w' Hmo Hvo Hrun).
    by apply duplicates_are_repeats. }
  split; [done|]. destruct (deduped_counts (manifest st)) as [_ Hcount].
  rewrite Hsame in Hcount. rewrite Hman in Hcount at 1.
  apply length_mapM in Hmap. lia.
Qed.

Lemma cleaner_removes_what_loop_skipped_witness :
  ∃ st w',
    run (for_each (process_entry (Sample.normal []) false Sample.target_root)
           Example3.conflicting initial_state) Sample.empty_world = (Return st, w')
    ∧ duplicates_removed (dedupe_loop (manifest st)) = 1
    ∧ length (deduped (dedupe_loop (manifest st))) = 2%nat.
Proof.
  eexists _, _.
  match goal with |- ?A ∧ _ => assert A as Hrun by (vm_compute; reflexivity) end.
  split; [exact Hrun|].
  destruct (cleaner_removes_what_loop_skipped (Sample.normal []) false
              Sample.target_root Example3.conflicting _ Sample.empty_world _
              eq_refl eq_refl Hrun) as [Hremoved _].
  - repeat constructor; discriminate.
  - split; [rewrite Hremoved|]; vm_compute; reflexivity.
Defined.
